(** * AnonForum: a shallow embedding of the backend models, the validation
    rules, the request filters and the posts router, with the properties of
    the content lifecycle.

    Layout: the JavaScript data the code handles ([JS]), Node's Buffer
    transcoding ([Buffer]), the interface of Node's [crypto] module
    ([NodeCrypto]) and the process environment ([Process]), the regular
    expressions of the validators ([RegExp]), the validation rules
    ([Security]), the two Mongoose models ([Post], [Comment]), the posts
    router ([Routes]), the patterns and the middlewares of the request
    filters ([Pattern], [Middleware]), the histories of a document
    ([Lifecycle]) and sample data ([Samples]); the lemmas and theorems
    follow the definitions.

    Collections are lists of documents, dates are milliseconds, and the
    sources of randomness ([Math.random], [crypto.randomBytes]) are passed
    as state.  The cipher and the hash are parameters; the hexadecimal and
    UTF-8 transcoding of buffers and the matching of regular expressions are
    defined here. *)

From Stdlib Require Import ZArith QArith Qround List String Ascii Bool Lia.
From Stdlib Require Import Strings.Byte DecimalString Sorted.
Import ListNotations.

Local Open Scope string_scope.
Local Open Scope list_scope.
Local Open Scope Z_scope.

(** ** JavaScript values *)

Module JS.

(** A JavaScript string is a sequence of UTF-16 code units. *)
Definition jsstring := list Z.

Definition code_unit (c : ascii) : Z := Z.of_N (N_of_ascii c).

(** The code units of an ASCII literal. *)
Definition js (s : string) : jsstring := List.map code_unit (list_ascii_of_string s).


Fixpoint str_eqb (a b : jsstring) : bool :=
  match a, b with
  | [], [] => true
  | x :: a', y :: b' => (x =? y) && str_eqb a' b'
  | _, _ => false
  end.

(** Numbers as the route handlers meet them: the result of [parseInt] is
    NaN, an integer-valued double or an infinity. *)
Inductive number := NaN | NegInf | Int (z : Z) | PosInf.

(** ToBoolean on a number: NaN and zero are falsy. *)
Definition num_truthy (n : number) : bool :=
  match n with
  | NaN => false
  | Int z => negb (z =? 0)
  | _ => true
  end.

(** [a || b] on numbers. *)
Definition num_or (a b : number) : number := if num_truthy a then a else b.

Definition Math_max (a b : number) : number :=
  match a, b with
  | NaN, _ | _, NaN => NaN
  | PosInf, _ | _, PosInf => PosInf
  | NegInf, x | x, NegInf => x
  | Int x, Int y => Int (Z.max x y)
  end.

Definition Math_min (a b : number) : number :=
  match a, b with
  | NaN, _ | _, NaN => NaN
  | NegInf, _ | _, NegInf => NegInf
  | PosInf, x | x, PosInf => x
  | Int x, Int y => Int (Z.min x y)
  end.

Definition num_sub (a b : number) : number :=
  match a, b with
  | NaN, _ | _, NaN => NaN
  | PosInf, PosInf | NegInf, NegInf => NaN
  | PosInf, _ | _, NegInf => PosInf
  | NegInf, _ | _, PosInf => NegInf
  | Int x, Int y => Int (x - y)
  end.

Definition num_mul (a b : number) : number :=
  match a, b with
  | NaN, _ | _, NaN => NaN
  | Int x, Int y => Int (x * y)
  | Int x, PosInf | PosInf, Int x =>
      if x =? 0 then NaN else if 0 <? x then PosInf else NegInf
  | Int x, NegInf | NegInf, Int x =>
      if x =? 0 then NaN else if 0 <? x then NegInf else PosInf
  | PosInf, PosInf | NegInf, NegInf => PosInf
  | PosInf, NegInf | NegInf, PosInf => NegInf
  end.

(** [a < b] on numbers; every comparison with NaN is false. *)
Definition num_ltb (a b : number) : bool :=
  match a, b with
  | NaN, _ | _, NaN => false
  | _, NegInf => false
  | NegInf, _ => true
  | PosInf, _ => false
  | _, PosInf => true
  | Int x, Int y => x <? y
  end.

(** [Math.ceil(a / b)] for an integer [a] and a positive integer [b]. *)
Definition ceil_div (a b : Z) : Z := (a + b - 1) / b.

(** [Number.MAX_SAFE_INTEGER] *)
Definition MAX_SAFE_INTEGER : Z := 2 ^ 53 - 1.

(** A Number is a double.  It holds every integer up to 2^53 in absolute
    value, and a larger one only when its low bits are zero.
    [to_double z] is the double nearest to the integer [z], a tie going to
    the even significand: this is how the exact result of an addition or a
    subtraction is rounded (for [z] below 2^1024, where the doubles end). *)
Definition to_double (z : Z) : Z :=
  if Z.abs z <=? 2 ^ 53 then z
  else
    let ulp := 2 ^ (Z.log2 (Z.abs z) - 52) in
    let q := Z.abs z / ulp in
    let r := Z.abs z mod ulp in
    let q' := if (ulp <? 2 * r) || ((2 * r =? ulp) && Z.odd q) then q + 1 else q in
    Z.sgn z * (q' * ulp).

(** [x + y] and [x - y] on Numbers that hold integers. *)
Definition int_add (x y : Z) : Z := to_double (x + y).

Definition int_sub (x y : Z) : Z := to_double (x - y).

(** The decimal rendering of an integer, as a template literal
    [`${number}`] produces it. *)
Definition num_to_string (z : Z) : jsstring :=
  js (NilZero.string_of_int (Z.to_int z)).

(** Completion of a piece of code: a value, or a thrown exception. *)
Inductive error := TypeError (msg : string) | Error (msg : string).

Inductive completion (A : Type) :=
| Normal (a : A)
| Throw (e : error).
Arguments Normal {A} a.
Arguments Throw {A} e.

Definition bind {A B} (c : completion A) (k : A -> completion B) : completion B :=
  match c with
  | Normal a => k a
  | Throw e => Throw e
  end.

(** [try { body } catch (error) { return handler }] *)
Definition try_catch {A} (body : completion A) (handler : error -> completion A)
  : completion A :=
  match body with
  | Normal a => Normal a
  | Throw e => handler e
  end.

(** Plain data as it travels in a JSON response. *)
#[warnings="-register-all"] Inductive value :=
| VUndefined
| VNull
| VBool (b : bool)
| VNum (n : number)
| VStr (s : jsstring)
| VDate (ms : Z)
| VId (oid : list byte)
| VArr (items : list value)
| VObj (fields : list (string * value)).

(** Objects keep their keys in insertion order. *)
Definition obj := list (string * value).

Fixpoint obj_get (o : obj) (k : string) : value :=
  match o with
  | [] => VUndefined
  | (k', v) :: o' => if String.eqb k' k then v else obj_get o' k
  end.

Definition obj_has (o : obj) (k : string) : bool :=
  existsb (fun kv => String.eqb (fst kv) k) o.

(** [o[k] = v]: an existing key keeps its place. *)
Fixpoint obj_set (o : obj) (k : string) (v : value) : obj :=
  match o with
  | [] => [(k, v)]
  | (k', v') :: o' =>
      if String.eqb k' k then (k, v) :: o' else (k', v') :: obj_set o' k v
  end.

(** [delete o[k]] *)
Definition obj_delete (o : obj) (k : string) : obj :=
  List.filter (fun kv => negb (String.eqb (fst kv) k)) o.

(** [{ ...o, k1: v1, ... }] *)
Definition obj_spread (o : obj) (extra : list (string * value)) : obj :=
  fold_left (fun acc kv => obj_set acc (fst kv) (snd kv)) extra o.

(** The value of a property of an object, [undefined] when there is none. *)
Definition field (v : value) (k : string) : value :=
  match v with
  | VObj o => obj_get o k
  | _ => VUndefined
  end.

(** An object with one property written, [{ ...v, k: x }]. *)
Definition set_field (v : value) (k : string) (x : value) : value :=
  match v with
  | VObj o => VObj (obj_set o k x)
  | _ => v
  end.

(** ToBoolean on the values a parsed query string holds. *)
Definition truthy (v : value) : bool :=
  match v with
  | VUndefined | VNull => false
  | VBool b => b
  | VNum n => num_truthy n
  | VStr [] => false
  | _ => true
  end.

(** [v === 'literal'] *)
Definition is_string (v : value) (w : string) : bool :=
  match v with
  | VStr s => str_eqb s (js w)
  | _ => false
  end.

End JS.
Export JS.

Notation "x <- c ;; k" := (JS.bind c (fun x => k))
(at level 61, c at next level, right associativity).

(** ** Node's Buffer: hexadecimal and UTF-8 transcoding *)

Module Buffer.

Definition byte_of_Z (z : Z) : byte :=
  match Byte.of_N (Z.to_N z) with
  | Some b => b
  | None => x00
  end.

Definition Z_of_byte (b : byte) : Z := Z.of_N (Byte.to_N b).

(** *** 'hex' *)

Definition hex_digit (n : Z) : Z := if n <? 10 then 48 + n else 87 + n.

Definition hex_value (u : Z) : option Z :=
  if (48 <=? u) && (u <=? 57) then Some (u - 48)
  else if (97 <=? u) && (u <=? 102) then Some (u - 87)
  else if (65 <=? u) && (u <=? 70) then Some (u - 55)
  else None.

(** [buf.toString('hex')]: two lower-case digits per byte. *)
Fixpoint toString_hex (buf : list byte) : jsstring :=
  match buf with
  | [] => []
  | b :: buf' =>
      hex_digit (Z_of_byte b / 16) :: hex_digit (Z_of_byte b mod 16) :: toString_hex buf'
  end.

(** [Buffer.from(s, 'hex')]: pairs of digits are decoded until the first
    pair that is not hexadecimal; a trailing single digit is dropped.  The
    decoder reads the low byte of each code unit, so a code unit above 255
    counts as the digit its low byte spells. *)
Fixpoint from_hex (s : jsstring) : list byte :=
  match s with
  | h :: l :: s' =>
      match hex_value (h mod 256), hex_value (l mod 256) with
      | Some x, Some y => byte_of_Z (16 * x + y) :: from_hex s'
      | _, _ => []
      end
  | _ => []
  end.

(** *** 'utf8' *)

Definition is_high_surrogate (u : Z) : bool := (0xD800 <=? u) && (u <=? 0xDBFF).
Definition is_low_surrogate (u : Z) : bool := (0xDC00 <=? u) && (u <=? 0xDFFF).

(** U+FFFD, the replacement character, in UTF-8. *)
Definition replacement : list Z := [0xEF; 0xBF; 0xBD].

Definition utf8_of_code_point (cp : Z) : list Z :=
  if cp <? 0x80 then [cp]
  else if cp <? 0x800 then [0xC0 + cp / 64; 0x80 + cp mod 64]
  else if cp <? 0x10000 then
    [0xE0 + cp / 4096; 0x80 + (cp / 64) mod 64; 0x80 + cp mod 64]
  else
    [0xF0 + cp / 262144; 0x80 + (cp / 4096) mod 64;
     0x80 + (cp / 64) mod 64; 0x80 + cp mod 64].

(** Writing a string as UTF-8: a surrogate pair becomes one four-byte
    sequence, an unpaired surrogate becomes U+FFFD. *)
Fixpoint utf8_units (s : jsstring) : list Z :=
  match s with
  | [] => []
  | u :: rest =>
      if is_high_surrogate u then
        match rest with
        | v :: rest' =>
            if is_low_surrogate v then
              utf8_of_code_point (0x10000 + (u - 0xD800) * 1024 + (v - 0xDC00))
                ++ utf8_units rest'
            else replacement ++ utf8_units rest
        | [] => replacement
        end
      else if is_low_surrogate u then replacement ++ utf8_units rest
      else utf8_of_code_point u ++ utf8_units rest
  end.

(** [Buffer.from(s, 'utf8')] *)
Definition from_utf8 (s : jsstring) : list byte := List.map byte_of_Z (utf8_units s).

Definition code_units_of (cp : Z) : jsstring :=
  if cp <? 0x10000 then [cp]
  else [0xD800 + (cp - 0x10000) / 1024; 0xDC00 + (cp - 0x10000) mod 1024].

(** Reading UTF-8, as the decoder of the Encoding Standard does: [needed]
    continuation bytes are still expected for the code point [cp], the next
    of them between [lower] and [upper].  A byte that cannot continue or
    start a sequence, and a sequence cut short, yield U+FFFD; the byte that
    broke a sequence is read again as the start of the next one. *)
Fixpoint utf8_decode (bs : list Z) (needed : nat) (cp lower upper : Z) : jsstring :=
  match bs with
  | [] => match needed with
          | O => []
          | S _ => [0xFFFD]
          end
  | b :: rest =>
      let start :=
        if b <? 0x80 then b :: utf8_decode rest 0 0 0x80 0xBF
        else if (0xC2 <=? b) && (b <=? 0xDF) then
          utf8_decode rest 1 (b - 0xC0) 0x80 0xBF
        else if (0xE0 <=? b) && (b <=? 0xEF) then
          utf8_decode rest 2 (b - 0xE0)
            (if b =? 0xE0 then 0xA0 else 0x80) (if b =? 0xED then 0x9F else 0xBF)
        else if (0xF0 <=? b) && (b <=? 0xF4) then
          utf8_decode rest 3 (b - 0xF0)
            (if b =? 0xF0 then 0x90 else 0x80) (if b =? 0xF4 then 0x8F else 0xBF)
        else 0xFFFD :: utf8_decode rest 0 0 0x80 0xBF in
      match needed with
      | O => start
      | S needed' =>
          if (lower <=? b) && (b <=? upper) then
            let cp' := cp * 64 + (b - 0x80) in
            match needed' with
            | O => code_units_of cp' ++ utf8_decode rest 0 0 0x80 0xBF
            | S _ => utf8_decode rest needed' cp' 0x80 0xBF
            end
          else 0xFFFD :: start
      end
  end.

Definition units_of_utf8 (bs : list Z) : jsstring := utf8_decode bs 0 0 0x80 0xBF.

(** [buf.toString('utf8')] *)
Definition toString_utf8 (buf : list byte) : jsstring :=
  units_of_utf8 (List.map Z_of_byte buf).


End Buffer.

(** ** Node's [crypto] module and the process environment *)

(** The primitives the models call, as the versions of Node that still
    provide [createCipher] and [createDecipher] have them.
    [crypto.createCipher(algorithm, password)] takes no IV: it derives both
    the key and the IV from its password with OpenSSL's [EVP_BytesToKey]. *)
Class NodeCrypto := {
  (** the key and the IV derived from a password *)
  EVP_BytesToKey : list byte -> list byte * list byte;
  (** AES-256-GCM under a key, an IV and associated data: the ciphertext
      and the authentication tag *)
  gcm_encrypt : list byte -> list byte -> list byte -> list byte -> list byte * list byte;
  (** the plaintext of a ciphertext and a tag, or [None] where
      [setAuthTag], [update] or [final] throws *)
  gcm_decrypt : list byte -> list byte -> list byte -> list byte -> list byte
                -> option (list byte);
  (** [crypto.createHash('sha256').update(data).digest()] *)
  sha256 : list byte -> list byte;
  (** [Buffer.from(v, 'hex')] on an array or on another object *)
  Buffer_from_object : value -> completion (list byte)
}.

(** What AES-256-GCM guarantees: a ciphertext opens, with its own tag and
    under the key, IV and associated data that sealed it, to the plaintext. *)
Class NodeCryptoLaws `{NodeCrypto} := {
  gcm_decrypt_encrypt : forall key iv aad plaintext,
    gcm_decrypt key iv aad (fst (gcm_encrypt key iv aad plaintext))
                (snd (gcm_encrypt key iv aad plaintext)) = Some plaintext
}.


Module Process.

(** [process.env] *)
Record env := {
  ENCRYPTION_KEY : option jsstring;
  IP_SALT : option jsstring
}.

(** The value of [process.env.X || fallback]: an unset or empty variable
    is falsy. *)
Definition env_or (x : option jsstring) (fallback : jsstring) : jsstring :=
  match x with
  | Some (u :: s) => u :: s
  | _ => fallback
  end.

(** A 256-bit key is configured: [ENCRYPTION_KEY] holds 64 hexadecimal
    digits. *)
Definition key_configured (e : env) : Prop :=
  exists k, ENCRYPTION_KEY e = Some k /\ List.length k = 64%nat
            /\ Forall (fun u => Buffer.hex_value u <> None) k.

(** The operating system's entropy, as the bytes still to be handed out. *)
Definition entropy := nat -> byte.

(** [crypto.randomBytes(n)] *)
Definition randomBytes (n : nat) (g : entropy) : list byte * entropy :=
  (List.map g (seq 0 n), fun i => g (n + i)%nat).

(** The state of [Math.random]: the doubles still to be drawn, each in
    the interval [0, 1). *)
Definition prng := nat -> Q.

Definition Math_random (g : prng) : Q * prng := (g 0%nat, fun i => g (S i)).

Definition unit_interval (g : prng) : Prop := forall i, (0 <= g i)%Q /\ (g i < 1)%Q.

End Process.
Export Process.

(** ** Regular expressions *)

(** The fragment of JavaScript's regular expressions the validators and the
    routes use (no flags): character classes, sequencing, greedy
    quantifiers, capturing groups, backreferences, [\b], [^] and [$].
    Matching is by backtracking; [exec] lists every way a pattern can match
    from a state, so a pattern matches when the list is not empty. *)
Module RegExp.

Inductive regex :=
| Chr (p : Z -> bool)
| Seq (r1 r2 : regex)
| Quant (r : regex) (lo : nat) (hi : option nat)
| Group (n : nat) (r : regex)
| Backref (n : nat)
| WordBoundary
| Bol
| Eol.

(** A position in the subject and the text each group captured last. *)
Record state := { pos : nat; caps : list (nat * jsstring) }.

Definition captured (n : nat) (st : state) : jsstring :=
  match List.find (fun c => Nat.eqb (fst c) n) (caps st) with
  | Some c => snd c
  | None => []
  end.

Definition capture (n : nat) (w : jsstring) (st : state) : state :=
  {| pos := pos st; caps := (n, w) :: caps st |}.

Definition advance (k : nat) (st : state) : state :=
  {| pos := (pos st + k)%nat; caps := caps st |}.

Definition substring (s : jsstring) (from to : nat) : jsstring :=
  firstn (to - from) (skipn from s).

(** [\w], [\s] and [.] on a code unit. *)
Definition word_char (u : Z) : bool :=
  ((65 <=? u) && (u <=? 90)) || ((97 <=? u) && (u <=? 122))
  || ((48 <=? u) && (u <=? 57)) || (u =? 95).

Definition white_space (u : Z) : bool :=
  ((9 <=? u) && (u <=? 13)) || (u =? 32) || (u =? 160) || (u =? 0x1680)
  || ((0x2000 <=? u) && (u <=? 0x200A)) || (u =? 0x2028) || (u =? 0x2029)
  || (u =? 0x202F) || (u =? 0x205F) || (u =? 0x3000) || (u =? 0xFEFF).

Definition dot (u : Z) : bool :=
  negb ((u =? 10) || (u =? 13) || (u =? 0x2028) || (u =? 0x2029)).

Definition word_at (s : jsstring) (i : nat) : bool :=
  match nth_error s i with
  | Some u => word_char u
  | None => false
  end.

(** The mandatory repetitions of a quantifier. *)
Fixpoint times (step : state -> list state) (n : nat) (st : state) : list state :=
  match n with
  | O => [st]
  | S n' => flat_map (times step n') (step st)
  end.

(** The optional repetitions: at most [budget] more, none of which may match
    the empty string. *)
Fixpoint optional (step : state -> list state) (budget : nat) (st : state)
  : list state :=
  st :: match budget with
        | O => []
        | S budget' =>
            flat_map (optional step budget')
                     (List.filter (fun st' => Nat.ltb (pos st) (pos st')) (step st))
        end.

Fixpoint exec (s : jsstring) (r : regex) (st : state) : list state :=
  match r with
  | Chr p =>
      match nth_error s (pos st) with
      | Some u => if p u then [advance 1 st] else []
      | None => []
      end
  | Seq r1 r2 => flat_map (exec s r2) (exec s r1 st)
  | Quant r' lo hi =>
      let budget := match hi with
                    | Some h => (h - lo)%nat
                    | None => List.length s
                    end in
      flat_map (optional (exec s r') budget) (times (exec s r') lo st)
  | Group n r' =>
      List.map (fun st' => capture n (substring s (pos st) (pos st')) st') (exec s r' st)
  | Backref n =>
      let w := captured n st in
      if str_eqb (substring s (pos st) (pos st + List.length w)) w
      then [advance (List.length w) st] else []
  | WordBoundary =>
      let before := match pos st with
                    | O => false
                    | S i => word_at s i
                    end in
      if xorb before (word_at s (pos st)) then [st] else []
  | Bol => if Nat.eqb (pos st) 0 then [st] else []
  | Eol => if Nat.eqb (pos st) (List.length s) then [st] else []
  end.

Definition matches_at (r : regex) (s : jsstring) (i : nat) : bool :=
  match exec s r {| pos := i; caps := [] |} with
  | [] => false
  | _ :: _ => true
  end.

(** [r.test(s)]: a match starting at some index of [s]. *)
Definition test (r : regex) (s : jsstring) : bool :=
  existsb (matches_at r s) (seq 0 (S (List.length s))).

(** Pattern syntax. *)
Definition lit (c : ascii) : regex := Chr (Z.eqb (code_unit c)).

Definition range (a b : ascii) (u : Z) : bool :=
  (code_unit a <=? u) && (u <=? code_unit b).

Fixpoint text (cs : list ascii) (k : regex) : regex :=
  match cs with
  | [] => k
  | c :: cs' => Seq (lit c) (text cs' k)
  end.

(** [str "abc" k] is the pattern [abc] followed by [k]. *)
Definition str (w : string) (k : regex) : regex := text (list_ascii_of_string w) k.

Definition plus (r : regex) : regex := Quant r 1 None.
Definition star (r : regex) : regex := Quant r 0 None.
Definition opt (r : regex) : regex := Quant r 0 (Some 1%nat).
Definition at_least (n : nat) (r : regex) : regex := Quant r n None.

End RegExp.

(** ** middleware/security.js: the validation rules *)

Module Security.
Import RegExp.

(** [/(.)\1{10,}/]: repeated characters *)
Definition repeated_characters : regex :=
  Seq (Group 1 (Chr dot)) (at_least 10 (Backref 1)).

(** [/(https?:\/\/[^\s]+){n,}/]: multiple URLs *)
Definition multiple_urls (n : nat) : regex :=
  at_least n
    (Group 1 (str "http" (Seq (opt (lit "s"))
                (str "://" (plus (Chr (fun u => negb (white_space u)))))))).

(** [/[A-Z]{n,}/]: all caps spam *)
Definition all_caps (n : nat) : regex := at_least n (Chr (range "A" "Z")).

(** Repeated words: the group [\b\w+\b] followed by [\s] any number of
    times, taken one to three times, then [\1{5,}]. *)
Definition repeated_words : regex :=
  Seq (Quant (Group 1 (Seq WordBoundary
                         (Seq (plus (Chr word_char))
                            (Seq WordBoundary (star (Chr white_space))))))
             1 (Some 3%nat))
      (at_least 5 (Backref 1)).

(** validator.js [isLength]: the length in code units, a surrogate pair
    counting once and the variation selectors U+FE0E and U+FE0F not at all. *)
Fixpoint surrogate_pairs (s : jsstring) : Z :=
  match s with
  | u :: ((v :: s') as rest) =>
      if Buffer.is_high_surrogate u && Buffer.is_low_surrogate v
      then 1 + surrogate_pairs s'
      else surrogate_pairs rest
  | _ => 0
  end.

Definition presentation_selectors (s : jsstring) : Z :=
  Z.of_nat (List.length (List.filter (fun u => (u =? 0xFE0F) || (u =? 0xFE0E)) s)).

Definition isLength (min max : Z) (s : jsstring) : bool :=
  let len := Z.of_nat (List.length s) - presentation_selectors s - surrogate_pairs s in
  (min <=? len) && (len <=? max).

(** The letters of the title and tag patterns outside ASCII:
    [\u00C0-\u017F] and [\u1EA0-\u1EF9]. *)
Definition accented (u : Z) : bool :=
  ((0xC0 <=? u) && (u <=? 0x17F)) || ((0x1EA0 <=? u) && (u <=? 0x1EF9)).

Definition alphanumeric (u : Z) : bool :=
  range "a" "z" u || range "A" "Z" u || range "0" "9" u.

(** The pattern of a title: one or more letters, digits, white space or
    the marks [.,!?()-], from [^] to [$]. *)
Definition title_format : regex :=
  Seq Bol
    (Seq (plus (Chr (fun u => alphanumeric u || white_space u || accented u
                              || existsb (Z.eqb u) (js ".,!?()-"))))
         Eol).

(** The pattern of a tag: one or more letters, digits, white space or
    hyphens, from [^] to [$]. *)
Definition tag_format : regex :=
  Seq Bol
    (Seq (plus (Chr (fun u => alphanumeric u || accented u || white_space u
                              || (u =? code_unit "-"))))
         Eol).

Definition categories : list jsstring :=
  [js "general"; js "tech"; js "crypto"; js "society"; js "random";
   js "confession"; js "question"].

(** The [.custom] validator of a post's content. *)
Definition postSpamPatterns : list regex :=
  [repeated_characters; multiple_urls 3; all_caps 20; repeated_words].

Definition postContentCustom (value : jsstring) : completion bool :=
  if existsb (fun pattern => test pattern value) postSpamPatterns
  then Throw (Error "Content appears to be spam")
  else Normal true.

(** The [.custom] validator of a comment's content. *)
Definition commentSpamPatterns : list regex :=
  [repeated_characters; multiple_urls 2; all_caps 15].

Definition commentContentCustom (value : jsstring) : completion bool :=
  if existsb (fun pattern => test pattern value) commentSpamPatterns
  then Throw (Error "Comment appears to be spam")
  else Normal true.

(** The [.custom] validator of the tags: the first offending tag throws. *)
Fixpoint tagsCustom (tags : list value) : completion bool :=
  match tags with
  | [] => Normal true
  | VStr tag :: tags' =>
      if 50 <? Z.of_nat (List.length tag)
      then Throw (Error "Each tag must be a string with maximum 50 characters")
      else if negb (test tag_format tag)
      then Throw (Error "Tags contain invalid characters")
      else tagsCustom tags'
  | _ :: _ => Throw (Error "Each tag must be a string with maximum 50 characters")
  end.

(** The errors of a validation chain: every validator of a chain runs, and
    each failure adds the field with its message; a custom validator fails
    with the message of what it throws. *)
Definition check (field : string) (message : string) (ok : bool)
  : list (string * string) :=
  if ok then [] else [(field, message)].

Definition custom (field : string) (c : completion bool) : list (string * string) :=
  match c with
  | Normal true => []
  | Normal false => [(field, "Invalid value")]
  | Throw (Error msg) | Throw (TypeError msg) => [(field, msg)]
  end.

(** The fields of a request body that the rules read; [tags] may be absent. *)
Record body := {
  title : jsstring;
  content : jsstring;
  category : jsstring;
  tags : option (list value)
}.

(** The errors [postValidationRules()] leaves for [validateRequest]. *)
Definition postValidationRules (req : body) : list (string * string) :=
  check "title" "Title must be between 3 and 200 characters"
        (isLength 3 200 (title req))
  ++ check "title" "Title contains invalid characters" (test title_format (title req))
  ++ check "content" "Content must be between 10 and 5000 characters"
           (isLength 10 5000 (content req))
  ++ custom "content" (postContentCustom (content req))
  ++ check "category" "Invalid category" (existsb (str_eqb (category req)) categories)
  ++ match tags req with
     | None => []
     | Some items =>
         check "tags" "Maximum 5 tags allowed" (Nat.leb (List.length items) 5)
         ++ custom "tags" (tagsCustom items)
     end.

(** The errors [commentValidationRules()] leaves for [validateRequest]. *)
Definition commentValidationRules (content : jsstring) : list (string * string) :=
  check "content" "Comment must be between 1 and 2000 characters"
        (isLength 1 2000 content)
  ++ custom "content" (commentContentCustom content).

End Security.

(** ** models/Post.js *)

Definition ObjectId := list byte.

Definition oid_eqb (a b : ObjectId) : bool :=
  str_eqb (List.map Buffer.Z_of_byte a) (List.map Buffer.Z_of_byte b).

(** Dates are milliseconds since the epoch. *)
Definition Date := Z.

Module Post.

(** A document of the schema.  [anonId] and [expiresAt] may be missing on a
    document that has not been saved yet; [userAgent] and [deletedAt] are
    optional. *)
Record doc := {
  _id : ObjectId;
  anonId : option jsstring;
  title : jsstring;
  content : jsstring;
  category : jsstring;
  tags : list jsstring;
  likes : Z;
  commentCount : Z;
  ipHash : jsstring;
  userAgent : option jsstring;
  createdAt : Date;
  updatedAt : Date;
  expiresAt : option Date;
  isDeleted : bool;
  deletedAt : option Date;
  isFlagged : bool;
  flagCount : Z
}.

(** [new Post({ title, content, category, tags, ipHash, userAgent, anonId })]:
    the other paths take the defaults of the schema. *)
Definition create (id : ObjectId) (now : Date) (title content category : jsstring)
    (tags : list jsstring) (ipHash : jsstring) (userAgent anonId : option jsstring)
  : doc :=
  {| _id := id; anonId := anonId; title := title; content := content;
     category := category; tags := tags; likes := 0; commentCount := 0;
     ipHash := ipHash; userAgent := userAgent; createdAt := now; updatedAt := now;
     expiresAt := None; isDeleted := false; deletedAt := None;
     isFlagged := false; flagCount := 0 |}.

(** Assignments to the paths the methods write. *)
Definition set_anonId (v : option jsstring) (d : doc) : doc :=
  {| _id := _id d; anonId := v; title := title d; content := content d;
     category := category d; tags := tags d; likes := likes d;
     commentCount := commentCount d; ipHash := ipHash d; userAgent := userAgent d;
     createdAt := createdAt d; updatedAt := updatedAt d; expiresAt := expiresAt d;
     isDeleted := isDeleted d; deletedAt := deletedAt d; isFlagged := isFlagged d;
     flagCount := flagCount d |}.

Definition set_likes (v : Z) (d : doc) : doc :=
  {| _id := _id d; anonId := anonId d; title := title d; content := content d;
     category := category d; tags := tags d; likes := v;
     commentCount := commentCount d; ipHash := ipHash d; userAgent := userAgent d;
     createdAt := createdAt d; updatedAt := updatedAt d; expiresAt := expiresAt d;
     isDeleted := isDeleted d; deletedAt := deletedAt d; isFlagged := isFlagged d;
     flagCount := flagCount d |}.

Definition set_commentCount (v : Z) (d : doc) : doc :=
  {| _id := _id d; anonId := anonId d; title := title d; content := content d;
     category := category d; tags := tags d; likes := likes d;
     commentCount := v; ipHash := ipHash d; userAgent := userAgent d;
     createdAt := createdAt d; updatedAt := updatedAt d; expiresAt := expiresAt d;
     isDeleted := isDeleted d; deletedAt := deletedAt d; isFlagged := isFlagged d;
     flagCount := flagCount d |}.

Definition set_expiresAt (v : option Date) (d : doc) : doc :=
  {| _id := _id d; anonId := anonId d; title := title d; content := content d;
     category := category d; tags := tags d; likes := likes d;
     commentCount := commentCount d; ipHash := ipHash d; userAgent := userAgent d;
     createdAt := createdAt d; updatedAt := updatedAt d; expiresAt := v;
     isDeleted := isDeleted d; deletedAt := deletedAt d; isFlagged := isFlagged d;
     flagCount := flagCount d |}.

Definition set_isDeleted (v : bool) (d : doc) : doc :=
  {| _id := _id d; anonId := anonId d; title := title d; content := content d;
     category := category d; tags := tags d; likes := likes d;
     commentCount := commentCount d; ipHash := ipHash d; userAgent := userAgent d;
     createdAt := createdAt d; updatedAt := updatedAt d; expiresAt := expiresAt d;
     isDeleted := v; deletedAt := deletedAt d; isFlagged := isFlagged d;
     flagCount := flagCount d |}.

Definition set_deletedAt (v : option Date) (d : doc) : doc :=
  {| _id := _id d; anonId := anonId d; title := title d; content := content d;
     category := category d; tags := tags d; likes := likes d;
     commentCount := commentCount d; ipHash := ipHash d; userAgent := userAgent d;
     createdAt := createdAt d; updatedAt := updatedAt d; expiresAt := expiresAt d;
     isDeleted := isDeleted d; deletedAt := v; isFlagged := isFlagged d;
     flagCount := flagCount d |}.

Definition set_isFlagged (v : bool) (d : doc) : doc :=
  {| _id := _id d; anonId := anonId d; title := title d; content := content d;
     category := category d; tags := tags d; likes := likes d;
     commentCount := commentCount d; ipHash := ipHash d; userAgent := userAgent d;
     createdAt := createdAt d; updatedAt := updatedAt d; expiresAt := expiresAt d;
     isDeleted := isDeleted d; deletedAt := deletedAt d; isFlagged := v;
     flagCount := flagCount d |}.

Definition set_flagCount (v : Z) (d : doc) : doc :=
  {| _id := _id d; anonId := anonId d; title := title d; content := content d;
     category := category d; tags := tags d; likes := likes d;
     commentCount := commentCount d; ipHash := ipHash d; userAgent := userAgent d;
     createdAt := createdAt d; updatedAt := updatedAt d; expiresAt := expiresAt d;
     isDeleted := isDeleted d; deletedAt := deletedAt d; isFlagged := isFlagged d;
     flagCount := v |}.

(** *** Static methods *)

Definition prefixes : list jsstring :=
  [js "Anon"; js "Ghost"; js "Shadow"; js "Phantom"; js "Mystery"; js "Unknown";
   js "Cipher"; js "Void"].

(** [prefixes[i]]; an index outside the array reads [undefined]. *)
Definition prefix_at (i : Z) : jsstring :=
  if i <? 0 then js "undefined"
  else nth (Z.to_nat i) prefixes (js "undefined").

(** The two products are taken exactly.  The code rounds them to doubles:
    the product with 8 is exact, and the product with 9999 stays below
    9999, so that the index and the number range as they do here; on a draw
    whose product lies within the rounding of an integer, the code's number
    can be the next one up. *)
Definition generateAnonId (g : prng) : jsstring * prng :=
  let '(r1, g1) := Math_random g in
  let prefix := prefix_at (Qfloor (r1 * inject_Z (Z.of_nat (List.length prefixes)))) in
  let '(r2, g2) := Math_random g1 in
  let number := Qfloor (r2 * 9999) + 1000 in
  (prefix ++ num_to_string number, g2).

Section Crypto.
Context `{NodeCrypto}.

Definition hashIP (e : env) (ip : jsstring) : jsstring :=
  let salt := env_or (IP_SALT e) (js "anonforum-salt-2024") in
  Buffer.toString_hex (sha256 (Buffer.from_utf8 (ip ++ salt))).

(** [Buffer.from(process.env.ENCRYPTION_KEY ||
    crypto.randomBytes(32).toString('hex'), 'hex')]: entropy is drawn only
    when the variable is unset or empty. *)
Definition encryption_key (e : env) (g : entropy) : list byte * entropy :=
  match ENCRYPTION_KEY e with
  | Some (u :: k) => (Buffer.from_hex (u :: k), g)
  | _ =>
      let '(random, g') := randomBytes 32 g in
      (Buffer.from_hex (Buffer.toString_hex random), g')
  end.

(** The key and the IV that [createCipher] and [createDecipher] derive
    from the key buffer. *)
Definition cipher_key (e : env) (g : entropy) : list byte * list byte :=
  EVP_BytesToKey (fst (encryption_key e g)).

(** The associated data, [Buffer.from('anonforum', 'utf8')]. *)
Definition aad : list byte := Buffer.from_utf8 (js "anonforum").

(** The cipher is made by [crypto.createCipher(algorithm, key)], which
    takes [key] as a password; [iv] goes to the result only. *)
Definition encryptContent (e : env) (content : jsstring) (g : entropy)
  : value * entropy :=
  let '(key, g1) := encryption_key e g in
  let '(iv, g2) := randomBytes 16 g1 in
  let '(k, derived_iv) := EVP_BytesToKey key in
  let '(encrypted, authTag) :=
    gcm_encrypt k derived_iv aad (Buffer.from_utf8 content) in
  (VObj [("content", VStr (Buffer.toString_hex encrypted));
         ("iv", VStr (Buffer.toString_hex iv));
         ("authTag", VStr (Buffer.toString_hex authTag))],
   g2).

(** [v.k]: reading a property of [undefined] or [null] throws; a value
    that is not an object has none of the properties read here. *)
Definition prop (v : value) (k : string) : completion value :=
  match v with
  | VUndefined | VNull => Throw (TypeError "Cannot read properties")
  | VObj o => Normal (obj_get o k)
  | _ => Normal VUndefined
  end.

(** [Buffer.from(v, 'hex')] *)
Definition Buffer_from_hex (v : value) : completion (list byte) :=
  match v with
  | VStr s => Normal (Buffer.from_hex s)
  | VArr _ | VObj _ | VId _ => Buffer_from_object v
  | _ => Throw (TypeError "The first argument must be of type string")
  end.

(** [decipher.update(data, 'hex', 'utf8') + decipher.final('utf8')] after
    [setAAD] and [setAuthTag]: the data must be a string, [update] refuses
    a hex string of odd length, and [final] throws unless the tag
    authenticates the data. *)
Definition decipher (k iv tag : list byte) (data : value) : completion jsstring :=
  match data with
  | VStr s =>
      if Nat.odd (List.length s)
      then Throw (TypeError "The argument 'encoding' is invalid for data of odd length")
      else
        match gcm_decrypt k iv aad (Buffer.from_hex s) tag with
        | Some plaintext => Normal (Buffer.toString_utf8 plaintext)
        | None => Throw (Error "Unsupported state or unable to authenticate data")
        end
  | _ => Throw (TypeError "The data argument must be of type string")
  end.

Definition placeholder : jsstring := js "[Content could not be decrypted]".

Definition decryptContent (e : env) (encryptedData : value) (g : entropy)
  : completion jsstring * entropy :=
  let '(key, g1) := encryption_key e g in
  (try_catch
     (let '(k, derived_iv) := EVP_BytesToKey key in
      authTag <- prop encryptedData "authTag" ;;
      tag <- Buffer_from_hex authTag ;;
      data <- prop encryptedData "content" ;;
      decipher k derived_iv tag data)
     (fun error => Normal placeholder),
   g1).

End Crypto.

(** *** Validation *)

Definition categories : list jsstring :=
  [js "general"; js "tech"; js "crypto"; js "society"; js "random";
   js "confession"; js "question"].

(** The validators of the schema, which [save()] runs before the
    [pre('save')] middleware and which reject the save when one fails:
    [required] (on a string path, a string that is not empty), [maxlength],
    [enum] and [min]. *)
Definition validate (d : doc) : bool :=
  match anonId d with Some (_ :: _) => true | _ => false end
  && negb (Nat.eqb (List.length (title d)) 0) && Nat.leb (List.length (title d)) 200
  && negb (Nat.eqb (List.length (content d)) 0) && Nat.leb (List.length (content d)) 5000
  && existsb (str_eqb (category d)) categories
  && forallb (fun tag => Nat.leb (List.length tag) 50) (tags d)
  && (0 <=? likes d) && (0 <=? commentCount d)
  && negb (Nat.eqb (List.length (ipHash d)) 0)
  && match userAgent d with
     | Some ua => Nat.leb (List.length ua) 500
     | None => true
     end
  && match expiresAt d with
     | Some _ => true
     | None => false
     end.

(** *** Instance methods *)

(** The [pre('save')] middleware. *)
Definition pre_save (now : Date) (g : prng) (this : doc) : doc * prng :=
  let sevenDays := 7 * 24 * 60 * 60 * 1000 in
  let this1 := match expiresAt this with
               | None => set_expiresAt (Some (now + sevenDays)) this
               | Some _ => this
               end in
  match anonId this1 with
  | Some (_ :: _) => (this1, g)
  | _ => let '(id, g') := generateAnonId g in (set_anonId (Some id) this1, g')
  end.

(** [this.save()], as it leaves the document in memory.  The validators
    run first: on a document that fails one the save is rejected, the
    middleware does not run and nothing is written.  (What a save writes
    to the collection is [stored], below.) *)
Definition save (now : Date) (g : prng) (this : doc) : doc * prng :=
  if validate this then pre_save now g this else (this, g).

Definition incrementLikes (now : Date) (g : prng) (this : doc) : doc * prng :=
  save now g (set_likes (int_add (likes this) 1) this).

Definition incrementComments (now : Date) (g : prng) (this : doc) : doc * prng :=
  save now g (set_commentCount (int_add (commentCount this) 1) this).

Definition decrementComments (now : Date) (g : prng) (this : doc) : doc * prng :=
  save now g (if 0 <? commentCount this
              then set_commentCount (int_sub (commentCount this) 1) this
              else this).

Definition softDelete (now : Date) (g : prng) (this : doc) : doc * prng :=
  save now g (set_deletedAt (Some now) (set_isDeleted true this)).

Definition flag (now : Date) (g : prng) (this : doc) : doc * prng :=
  let this1 := set_flagCount (int_add (flagCount this) 1) this in
  save now g (if 5 <=? flagCount this1 then set_isFlagged true this1 else this1).

(** The virtual [timeUntilExpiry]. *)
Definition timeUntilExpiry (now : Date) (this : doc) : value :=
  match expiresAt this with
  | None => VNull
  | Some expires =>
      let timeLeft := expires - now in
      if timeLeft <=? 0 then VStr (js "Expired")
      else
        let days := timeLeft / (24 * 60 * 60 * 1000) in
        let hours := (timeLeft mod (24 * 60 * 60 * 1000)) / (60 * 60 * 1000) in
        if 0 <? days then VStr (num_to_string days ++ js " ng" ++ [0xE0] ++ js "y")
        else if 0 <? hours then VStr (num_to_string hours ++ js " gi" ++ [0x1EDD])
        else VStr (js "D" ++ [0x1B0; 0x1EDB] ++ js "i 1 gi" ++ [0x1EDD])
  end.

Definition opt_field {A} (k : string) (f : A -> value) (x : option A)
  : list (string * value) :=
  match x with
  | Some a => [(k, f a)]
  | None => []
  end.

(** The plain object of a document: what [.lean()] returns for a stored
    document and what [toJSON] starts from. *)
Definition toObject (d : doc) : obj :=
  [("_id", VId (_id d))]
  ++ opt_field "anonId" VStr (anonId d)
  ++ [("title", VStr (title d)); ("content", VStr (content d));
      ("category", VStr (category d)); ("tags", VArr (List.map VStr (tags d)));
      ("likes", VNum (Int (likes d))); ("commentCount", VNum (Int (commentCount d)));
      ("ipHash", VStr (ipHash d))]
  ++ opt_field "userAgent" VStr (userAgent d)
  ++ [("createdAt", VDate (createdAt d))]
  ++ opt_field "expiresAt" VDate (expiresAt d)
  ++ [("isDeleted", VBool (isDeleted d))]
  ++ opt_field "deletedAt" VDate (deletedAt d)
  ++ [("isFlagged", VBool (isFlagged d)); ("flagCount", VNum (Int (flagCount d)));
      ("updatedAt", VDate (updatedAt d))].

(** The [transform] of the [toJSON] option. *)
Definition transform (now : Date) (d : doc) (ret : obj) : obj :=
  let ret1 := obj_delete ret "ipHash" in
  let ret2 := obj_delete ret1 "userAgent" in
  let ret3 := obj_delete ret2 "__v" in
  obj_set ret3 "timeUntilExpiry" (timeUntilExpiry now d).

(** [doc.toJSON()] *)
Definition toJSON (now : Date) (d : doc) : obj := transform now d (toObject d).

(** [Post.findById(id)] on the collection. *)
Definition findById (posts : list doc) (id : ObjectId) : option doc :=
  List.find (fun p => oid_eqb (_id p) id) posts.


(** *** Saving to the collection *)

Definition set_updatedAt (v : Date) (d : doc) : doc :=
  {| _id := _id d; anonId := anonId d; title := title d; content := content d;
     category := category d; tags := tags d; likes := likes d;
     commentCount := commentCount d; ipHash := ipHash d; userAgent := userAgent d;
     createdAt := createdAt d; updatedAt := v; expiresAt := expiresAt d;
     isDeleted := isDeleted d; deletedAt := deletedAt d; isFlagged := isFlagged d;
     flagCount := flagCount d |}.

(** The collection once a modified document that was loaded from it has
    been saved at time [now]: the [timestamps] option sets [updatedAt], and
    the stored document of that [_id] is replaced. *)
Definition stored (now : Date) (this : doc) (posts : list doc) : list doc :=
  List.map (fun p => if oid_eqb (_id p) (_id this) then set_updatedAt now this else p)
           posts.

(** Whether the methods have changed a path of the document that was
    loaded as [loaded]: an assignment of the value a path has already does
    not count, and the save of an unchanged document writes nothing and
    leaves [updatedAt] alone. *)
Definition modified (loaded this : doc) : bool :=
  negb ((likes this =? likes loaded) && (commentCount this =? commentCount loaded)
        && (flagCount this =? flagCount loaded)
        && Bool.eqb (isFlagged this) (isFlagged loaded)
        && Bool.eqb (isDeleted this) (isDeleted loaded)
        && match deletedAt this, deletedAt loaded with
           | Some a, Some b => a =? b
           | None, None => true
           | _, _ => false
           end).

End Post.

(** ** models/Comment.js *)

Module Comment.

Record doc := {
  _id : ObjectId;
  postId : option ObjectId;
  anonId : option jsstring;
  content : jsstring;
  ipHash : jsstring;
  userAgent : option jsstring;
  createdAt : Date;
  updatedAt : Date;
  expiresAt : option Date;
  isDeleted : bool;
  deletedAt : option Date;
  isFlagged : bool;
  flagCount : Z
}.

Definition set_anonId (v : option jsstring) (d : doc) : doc :=
  {| _id := _id d; postId := postId d; anonId := v; content := content d;
     ipHash := ipHash d; userAgent := userAgent d; createdAt := createdAt d;
     updatedAt := updatedAt d; expiresAt := expiresAt d; isDeleted := isDeleted d;
     deletedAt := deletedAt d; isFlagged := isFlagged d; flagCount := flagCount d |}.

Definition set_expiresAt (v : option Date) (d : doc) : doc :=
  {| _id := _id d; postId := postId d; anonId := anonId d; content := content d;
     ipHash := ipHash d; userAgent := userAgent d; createdAt := createdAt d;
     updatedAt := updatedAt d; expiresAt := v; isDeleted := isDeleted d;
     deletedAt := deletedAt d; isFlagged := isFlagged d; flagCount := flagCount d |}.

Definition set_isDeleted (v : bool) (d : doc) : doc :=
  {| _id := _id d; postId := postId d; anonId := anonId d; content := content d;
     ipHash := ipHash d; userAgent := userAgent d; createdAt := createdAt d;
     updatedAt := updatedAt d; expiresAt := expiresAt d; isDeleted := v;
     deletedAt := deletedAt d; isFlagged := isFlagged d; flagCount := flagCount d |}.

Definition set_deletedAt (v : option Date) (d : doc) : doc :=
  {| _id := _id d; postId := postId d; anonId := anonId d; content := content d;
     ipHash := ipHash d; userAgent := userAgent d; createdAt := createdAt d;
     updatedAt := updatedAt d; expiresAt := expiresAt d; isDeleted := isDeleted d;
     deletedAt := v; isFlagged := isFlagged d; flagCount := flagCount d |}.

Definition set_isFlagged (v : bool) (d : doc) : doc :=
  {| _id := _id d; postId := postId d; anonId := anonId d; content := content d;
     ipHash := ipHash d; userAgent := userAgent d; createdAt := createdAt d;
     updatedAt := updatedAt d; expiresAt := expiresAt d; isDeleted := isDeleted d;
     deletedAt := deletedAt d; isFlagged := v; flagCount := flagCount d |}.

Definition set_flagCount (v : Z) (d : doc) : doc :=
  {| _id := _id d; postId := postId d; anonId := anonId d; content := content d;
     ipHash := ipHash d; userAgent := userAgent d; createdAt := createdAt d;
     updatedAt := updatedAt d; expiresAt := expiresAt d; isDeleted := isDeleted d;
     deletedAt := deletedAt d; isFlagged := isFlagged d; flagCount := v |}.

(** *** Static methods *)

Definition prefixes : list jsstring :=
  [js "Anon"; js "Ghost"; js "Shadow"; js "Phantom"; js "Mystery"; js "Unknown";
   js "Cipher"; js "Void"].

Definition prefix_at (i : Z) : jsstring :=
  if i <? 0 then js "undefined"
  else nth (Z.to_nat i) prefixes (js "undefined").

Definition generateAnonId (g : prng) : jsstring * prng :=
  let '(r1, g1) := Math_random g in
  let prefix := prefix_at (Qfloor (r1 * inject_Z (Z.of_nat (List.length prefixes)))) in
  let '(r2, g2) := Math_random g1 in
  let number := Qfloor (r2 * 9999) + 1000 in
  (prefix ++ num_to_string number, g2).

Section Crypto.
Context `{NodeCrypto}.

Definition hashIP (e : env) (ip : jsstring) : jsstring :=
  let salt := env_or (IP_SALT e) (js "anonforum-salt-2024") in
  Buffer.toString_hex (sha256 (Buffer.from_utf8 (ip ++ salt))).

Definition encryptContent (e : env) (content : jsstring) (g : entropy)
  : value * entropy :=
  let '(key, g1) := Post.encryption_key e g in
  let '(iv, g2) := randomBytes 16 g1 in
  let '(k, derived_iv) := EVP_BytesToKey key in
  let '(encrypted, authTag) :=
    gcm_encrypt k derived_iv Post.aad (Buffer.from_utf8 content) in
  (VObj [("content", VStr (Buffer.toString_hex encrypted));
         ("iv", VStr (Buffer.toString_hex iv));
         ("authTag", VStr (Buffer.toString_hex authTag))],
   g2).

Definition decryptContent (e : env) (encryptedData : value) (g : entropy)
  : completion jsstring * entropy :=
  let '(key, g1) := Post.encryption_key e g in
  (try_catch
     (let '(k, derived_iv) := EVP_BytesToKey key in
      authTag <- Post.prop encryptedData "authTag" ;;
      tag <- Post.Buffer_from_hex authTag ;;
      data <- Post.prop encryptedData "content" ;;
      Post.decipher k derived_iv tag data)
     (fun error => Normal Post.placeholder),
   g1).

End Crypto.

(** *** Validation *)

(** The validators of the schema, [required] and [maxlength], which
    [save()] runs before the [pre('save')] middleware. *)
Definition validate (d : doc) : bool :=
  match postId d with Some _ => true | None => false end
  && match anonId d with Some (_ :: _) => true | _ => false end
  && negb (Nat.eqb (List.length (content d)) 0) && Nat.leb (List.length (content d)) 2000
  && negb (Nat.eqb (List.length (ipHash d)) 0)
  && match userAgent d with
     | Some ua => Nat.leb (List.length ua) 500
     | None => true
     end
  && match expiresAt d with
     | Some _ => true
     | None => false
     end.

(** *** Instance methods *)

(** The [pre('save')] middleware.  The parent post is looked up only for a
    comment that has no [expiresAt] of its own and has a [postId]. *)
Definition pre_save (posts : list Post.doc) (g : prng) (this : doc) : doc * prng :=
  let '(this1, g1) :=
    match anonId this with
    | Some (_ :: _) => (this, g)
    | _ => let '(id, g') := generateAnonId g in (set_anonId (Some id) this, g')
    end in
  match expiresAt this1, postId this1 with
  | None, Some pid =>
      match Post.findById posts pid with
      | Some post => (set_expiresAt (Post.expiresAt post) this1, g1)
      | None => (this1, g1)
      end
  | _, _ => (this1, g1)
  end.

(** [this.save()], as it leaves the comment in memory: the validators run
    first, and on a comment that fails one the save is rejected and the
    middleware does not run. *)
Definition save (posts : list Post.doc) (g : prng) (this : doc) : doc * prng :=
  if validate this then pre_save posts g this else (this, g).

Definition softDelete (posts : list Post.doc) (now : Date) (g : prng) (this : doc)
  : doc * prng :=
  save posts g (set_deletedAt (Some now) (set_isDeleted true this)).

Definition flag (posts : list Post.doc) (g : prng) (this : doc) : doc * prng :=
  let this1 := set_flagCount (int_add (flagCount this) 1) this in
  save posts g (if 3 <=? flagCount this1 then set_isFlagged true this1 else this1).

Definition toObject (d : doc) : obj :=
  [("_id", VId (_id d))]
  ++ Post.opt_field "postId" VId (postId d)
  ++ Post.opt_field "anonId" VStr (anonId d)
  ++ [("content", VStr (content d)); ("ipHash", VStr (ipHash d))]
  ++ Post.opt_field "userAgent" VStr (userAgent d)
  ++ [("createdAt", VDate (createdAt d))]
  ++ Post.opt_field "expiresAt" VDate (expiresAt d)
  ++ [("isDeleted", VBool (isDeleted d))]
  ++ Post.opt_field "deletedAt" VDate (deletedAt d)
  ++ [("isFlagged", VBool (isFlagged d)); ("flagCount", VNum (Int (flagCount d)));
      ("updatedAt", VDate (updatedAt d))].

Definition transform (d : doc) (ret : obj) : obj :=
  let ret1 := obj_delete ret "ipHash" in
  let ret2 := obj_delete ret1 "userAgent" in
  obj_delete ret2 "__v".

Definition toJSON (d : doc) : obj := transform d (toObject d).


(** *** Middleware after a save and after a removal *)

(** The [post('save')] middleware, which runs once the save of the comment
    has gone through: the parent post counts one comment more unless the
    comment is soft-deleted.  The update of the post is started and not
    awaited; it is taken here at the moment it is started.  Its [save()]
    runs the validators of the post, and a post that fails them, or that
    the addition has left as it was, is not written. *)
Definition post_save (posts : list Post.doc) (now : Date) (g : prng) (this : doc)
  : list Post.doc * prng :=
  match postId this with
  | Some pid =>
      match Post.findById posts pid with
      | Some post =>
          if negb (isDeleted this)
          then
            if Post.validate
                 (Post.set_commentCount (int_add (Post.commentCount post) 1) post)
            then let '(saved, g') := Post.incrementComments now g post in
                 (if Post.modified post saved then Post.stored now saved posts else posts,
                  g')
            else (posts, g)
          else (posts, g)
      | None => (posts, g)
      end
  | None => (posts, g)
  end.

(** The [post('remove')] middleware: the parent post counts one comment
    less, but not below zero; a post whose count is zero already is saved
    unmodified, which writes nothing. *)
Definition post_remove (posts : list Post.doc) (now : Date) (g : prng) (this : doc)
  : list Post.doc * prng :=
  match postId this with
  | Some pid =>
      match Post.findById posts pid with
      | Some post =>
          if Post.validate
               (if 0 <? Post.commentCount post
                then Post.set_commentCount (int_sub (Post.commentCount post) 1) post
                else post)
          then let '(saved, g') := Post.decrementComments now g post in
               (if Post.modified post saved then Post.stored now saved posts else posts,
                g')
          else (posts, g)
      | None => (posts, g)
      end
  | None => (posts, g)
  end.

End Comment.

(** ** Inputs of [decryptContent] *)

(** The classes of input on which decryption has to fail. *)
Module SealedInput.



Section Crypto.
Context `{NodeCrypto}.





End Crypto.

End SealedInput.

(** ** routes/posts.js *)

Module Routes.

Record response := { status : Z; body : value }.

Definition json (status : Z) (body : obj) : response :=
  {| status := status; body := VObj body |}.

(** The array [posts] of a response body (empty when the body has none). *)
Definition response_posts (r : response) : list value :=
  match body r with
  | VObj o => match obj_get o "posts" with
              | VArr items => items
              | _ => []
              end
  | _ => []
  end.

(** [expiresAt: { $gt: now }]: a document without the path does not match. *)
Definition expires_after (now : Date) (expiresAt : option Date) : bool :=
  match expiresAt with
  | Some t => now <? t
  | None => false
  end.

(** [.sort({ [field]: order })], by insertion; the order of documents with
    equal keys is the store's to choose. *)
Fixpoint insert_by {A} (key : A -> Z) (ascending : bool) (x : A) (l : list A) : list A :=
  match l with
  | [] => [x]
  | y :: l' =>
      if (if ascending then key x <=? key y else key y <=? key x)
      then x :: y :: l'
      else y :: insert_by key ascending x l'
  end.

Definition sort_by {A} (key : A -> Z) (ascending : bool) (l : list A) : list A :=
  fold_right (insert_by key ascending) [] l.

(** [.skip(skip).limit(limit)]; a limit of zero is no limit, a negative
    limit counts as its absolute value, and a skip that is no natural
    number is refused. *)
Definition skip_limit {A} (skip limit : number) (l : list A) : completion (list A) :=
  match skip, limit with
  | Int s, Int n =>
      if s <? 0 then Throw (Error "Skip value must be non-negative")
      else if n =? 0 then Normal (skipn (Z.to_nat s) l)
      else Normal (firstn (Z.to_nat (Z.abs n)) (skipn (Z.to_nat s) l))
  | _, _ => Throw (Error "Cast to number failed")
  end.

(** [Math.ceil(total / limit)] *)
Definition total_pages (total : Z) (limit : number) : number :=
  match limit with
  | Int n => if 0 <? n then Int (ceil_div total n) else NaN
  | _ => NaN
  end.

Definition sort_key (field : jsstring) (p : Post.doc) : Z :=
  if str_eqb field (js "likes") then Post.likes p
  else if str_eqb field (js "commentCount") then Post.commentCount p
  else Post.createdAt p.

Definition validCategories : list jsstring :=
  [js "general"; js "tech"; js "crypto"; js "society"; js "random";
   js "confession"; js "question"].

(** [/^[0-9a-fA-F]{24}$/] *)
Definition object_id_format : RegExp.regex :=
  RegExp.Seq RegExp.Bol
    (RegExp.Seq
       (RegExp.Quant
          (RegExp.Chr (fun u => RegExp.range "0" "9" u || RegExp.range "a" "f" u
                                || RegExp.range "A" "F" u))
          24 (Some 24%nat))
       RegExp.Eol).

(** The distinct values of a list, in order of first occurrence. *)
Fixpoint distinct (l : list jsstring) : list jsstring :=
  match l with
  | [] => []
  | x :: l' => x :: List.filter (fun y => negb (str_eqb x y)) (distinct l')
  end.

(** A stored post as a list response shows it when its content does not
    decrypt. *)
Definition listed (extra : list (string * value)) (post : Post.doc) : value :=
  VObj (obj_spread (Post.toObject post)
          (("content", VStr Post.placeholder) :: extra)).

(** The same for a stored comment. *)
Definition listed_comment (comment : Comment.doc) : value :=
  VObj (obj_spread (Comment.toObject comment) [("content", VStr Post.placeholder)]).

(** A post that is neither soft-deleted, nor flagged, nor expired. *)
Definition live (now : Date) (p : Post.doc) : bool :=
  negb (Post.isDeleted p) && negb (Post.isFlagged p)
  && expires_after now (Post.expiresAt p).

Section Handlers.
Context `{NodeCrypto}.

(** [parseInt] on a value of the query string. *)
Variable parseInt : value -> number.

(** How Mongoose casts and applies a condition [{ category: v }] whose
    value is not a string (an array or an object of the query string). *)
Variable cast_condition : value -> completion (Post.doc -> bool).

Variable e : env.

Definition category_condition (v : value) : completion (Post.doc -> bool) :=
  match v with
  | VStr c => Normal (fun p => str_eqb (Post.category p) c)
  | _ => cast_condition v
  end.

(** [docs.map(doc => ({ ...doc, content: decryptContent(doc.content), ...extra }))] *)
Fixpoint decrypt_posts (extra : list (string * value)) (docs : list Post.doc)
    (g : entropy) : completion (list value) * entropy :=
  match docs with
  | [] => (Normal [], g)
  | post :: docs' =>
      let '(c, g1) := Post.decryptContent e (VStr (Post.content post)) g in
      match c with
      | Throw err => (Throw err, g1)
      | Normal text =>
          let '(rest, g2) := decrypt_posts extra docs' g1 in
          (bind rest (fun items =>
             Normal (VObj (obj_spread (Post.toObject post)
                             (("content", VStr text) :: extra)) :: items)),
           g2)
      end
  end.

Fixpoint decrypt_comments (docs : list Comment.doc) (g : entropy)
  : completion (list value) * entropy :=
  match docs with
  | [] => (Normal [], g)
  | comment :: docs' =>
      let '(c, g1) := Comment.decryptContent e (VStr (Comment.content comment)) g in
      match c with
      | Throw err => (Throw err, g1)
      | Normal text =>
          let '(rest, g2) := decrypt_comments docs' g1 in
          (bind rest (fun items =>
             Normal (VObj (obj_spread (Comment.toObject comment)
                             [("content", VStr text)]) :: items)),
           g2)
      end
  end.

Definition pagination (page : number) (total : Z) (limit : number) : value :=
  VObj [("current", VNum page);
        ("total", VNum (total_pages total limit));
        ("hasNext", VBool (num_ltb page (total_pages total limit)));
        ("hasPrev", VBool (num_ltb (Int 1) page))].

Definition effective_page (query : obj) : number :=
  Math_max (Int 1) (num_or (parseInt (obj_get query "page")) (Int 1)).

Definition effective_limit (query : obj) : number :=
  Math_min (Int 50) (Math_max (Int 1) (num_or (parseInt (obj_get query "limit")) (Int 20))).

(** The condition of the list route: [query] of the handler. *)
Definition list_filter (now : Date) (cond : Post.doc -> bool) (p : Post.doc) : bool :=
  negb (Post.isDeleted p) && negb (Post.isFlagged p)
  && expires_after now (Post.expiresAt p) && cond p.

(** [router.get('/')] *)
Definition get_posts (posts : list Post.doc) (now : Date) (g : entropy) (query : obj)
  : response * entropy :=
  let page := effective_page query in
  let limit := effective_limit query in
  let skip := num_mul (num_sub page (Int 1)) limit in
  let category := obj_get query "category" in
  let sortBy := if truthy (obj_get query "sort") then obj_get query "sort"
                else VStr (js "createdAt") in
  let ascending := is_string (obj_get query "order") "asc" in
  let finalSortBy :=
    match sortBy with
    | VStr s => if existsb (str_eqb s) [js "createdAt"; js "likes"; js "commentCount"]
                then s else js "createdAt"
    | _ => js "createdAt"
    end in
  let cond := if truthy category && negb (is_string category "all")
              then category_condition category
              else Normal (fun _ => true) in
  let found := bind cond (fun c =>
    let matching := List.filter (list_filter now c) posts in
    bind (skip_limit skip limit (sort_by (sort_key finalSortBy) ascending matching))
      (fun docs => Normal (docs, Z.of_nat (List.length matching)))) in
  match found with
  | Throw _ => (json 500 [("error", VStr (js "Failed to fetch posts"))], g)
  | Normal (docs, total) =>
      let '(decrypted, g') :=
        decrypt_posts [("totalPages", VNum (total_pages total limit));
                       ("currentPage", VNum page)] docs g in
      match decrypted with
      | Throw _ => (json 500 [("error", VStr (js "Failed to fetch posts"))], g')
      | Normal decryptedPosts =>
          (json 200 [("posts", VArr decryptedPosts);
                     ("pagination", pagination page total limit);
                     ("total", VNum (Int total))], g')
      end
  end.

(** [router.get('/:id')]; each query reads the clock. *)
Definition get_post (posts : list Post.doc) (comments : list Comment.doc)
    (now1 now2 : Date) (g : entropy) (postId : jsstring) : response * entropy :=
  if negb (RegExp.test object_id_format postId)
  then (json 400 [("error", VStr (js "Invalid post ID format"))], g)
  else
    let id := Buffer.from_hex postId in
    match List.find (fun p => oid_eqb (Post._id p) id
                              && list_filter now1 (fun _ => true) p) posts with
    | None => (json 404 [("error", VStr (js "Post not found or expired"))], g)
    | Some post =>
        let found :=
          firstn 100
            (sort_by Comment.createdAt true
               (List.filter
                  (fun c => match Comment.postId c with
                            | Some pid => oid_eqb pid id
                            | None => false
                            end
                            && negb (Comment.isDeleted c) && negb (Comment.isFlagged c)
                            && expires_after now2 (Comment.expiresAt c))
                  comments)) in
        let '(c, g1) := Post.decryptContent e (VStr (Post.content post)) g in
        match c with
        | Throw _ => (json 500 [("error", VStr (js "Failed to fetch post"))], g1)
        | Normal text =>
            let decryptedPost := obj_spread (Post.toObject post) [("content", VStr text)] in
            let '(cs, g2) := decrypt_comments found g1 in
            match cs with
            | Throw _ => (json 500 [("error", VStr (js "Failed to fetch post"))], g2)
            | Normal decryptedComments =>
                (json 200 [("post", VObj decryptedPost);
                           ("comments", VArr decryptedComments)], g2)
            end
        end
    end.

(** [router.get('/category/:category')] *)
Definition get_category (posts : list Post.doc) (now1 now2 : Date) (g : entropy)
    (category : jsstring) (query : obj) : response * entropy :=
  let page := effective_page query in
  let limit := effective_limit query in
  let skip := num_mul (num_sub page (Int 1)) limit in
  if negb (existsb (str_eqb category) validCategories)
  then (json 400 [("error", VStr (js "Invalid category"))], g)
  else
    let cond := fun p => str_eqb (Post.category p) category in
    match skip_limit skip limit
            (sort_by Post.createdAt false (List.filter (list_filter now1 cond) posts)) with
    | Throw _ => (json 500 [("error", VStr (js "Failed to fetch posts"))], g)
    | Normal docs =>
        let total := Z.of_nat (List.length (List.filter (list_filter now2 cond) posts)) in
        let '(decrypted, g') := decrypt_posts [] docs g in
        match decrypted with
        | Throw _ => (json 500 [("error", VStr (js "Failed to fetch posts"))], g')
        | Normal decryptedPosts =>
            (json 200 [("posts", VArr decryptedPosts);
                       ("pagination", pagination page total limit);
                       ("category", VStr category);
                       ("total", VNum (Int total))], g')
        end
    end.

(** The condition of the statistics: [isDeleted] and [expiresAt] only. *)
Definition stats_filter (now : Date) (isDeleted : bool) (expiresAt : option Date) : bool :=
  negb isDeleted && expires_after now expiresAt.

(** [router.get('/stats/overview')] *)
Definition get_stats (posts : list Post.doc) (comments : list Comment.doc) (now : Date)
  : response :=
  let active := List.filter (fun p => stats_filter now (Post.isDeleted p) (Post.expiresAt p))
                            posts in
  let totalPosts := Z.of_nat (List.length active) in
  let totalComments :=
    Z.of_nat (List.length
      (List.filter (fun c => stats_filter now (Comment.isDeleted c) (Comment.expiresAt c))
                   comments)) in
  let postsToday :=
    Z.of_nat (List.length
      (List.filter (fun p => now - 24 * 60 * 60 * 1000 <=? Post.createdAt p) active)) in
  let categories := distinct (List.map Post.category active) in
  json 200 [("totalPosts", VNum (Int totalPosts));
            ("totalComments", VNum (Int totalComments));
            ("postsToday", VNum (Int postsToday));
            ("activeCategories", VNum (Int (Z.of_nat (List.length categories))));
            ("lastUpdated", VDate now)].

End Handlers.


(** *** The routes that write *)

(** [Post.findOne({ _id: postId, ...condition })] *)
Definition findOne (posts : list Post.doc) (id : ObjectId) (condition : Post.doc -> bool)
  : option Post.doc :=
  List.find (fun p => oid_eqb (Post._id p) id && condition p) posts.

(** [router.post('/:id/like')], behind its rate limiter.  The query reads
    the clock at [now1], the save at [now2]; the save validates the post as
    the method has changed it, and a rejected save is answered with 500.  A
    post that the method has left as it was is not written. *)
Definition like_post (posts : list Post.doc) (now1 now2 : Date) (g : prng)
    (postId : jsstring) : response * list Post.doc * prng :=
  if negb (RegExp.test object_id_format postId)
  then (json 400 [("error", VStr (js "Invalid post ID format"))], posts, g)
  else
    match findOne posts (Buffer.from_hex postId)
            (fun p => negb (Post.isDeleted p) && negb (Post.isFlagged p)
                      && expires_after now1 (Post.expiresAt p)) with
    | None => (json 404 [("error", VStr (js "Post not found or expired"))], posts, g)
    | Some post =>
        if Post.validate (Post.set_likes (int_add (Post.likes post) 1) post)
        then
          let '(saved, g') := Post.incrementLikes now2 g post in
          (json 200 [("message", VStr (js "Post liked successfully"));
                     ("likes", VNum (Int (Post.likes saved)))],
           if Post.modified post saved then Post.stored now2 saved posts else posts, g')
        else (json 500 [("error", VStr (js "Failed to like post"))], posts, g)
    end.

(** [router.post('/:id/flag')], behind its rate limiter: the condition of
    its query does not mention [isFlagged]. *)
Definition flag_post (posts : list Post.doc) (now1 now2 : Date) (g : prng)
    (postId : jsstring) : response * list Post.doc * prng :=
  if negb (RegExp.test object_id_format postId)
  then (json 400 [("error", VStr (js "Invalid post ID format"))], posts, g)
  else
    match findOne posts (Buffer.from_hex postId)
            (fun p => negb (Post.isDeleted p) && expires_after now1 (Post.expiresAt p)) with
    | None => (json 404 [("error", VStr (js "Post not found or expired"))], posts, g)
    | Some post =>
        let flagged := Post.set_flagCount (int_add (Post.flagCount post) 1) post in
        if Post.validate (if 5 <=? Post.flagCount flagged
                          then Post.set_isFlagged true flagged else flagged)
        then
          let '(saved, g') := Post.flag now2 g post in
          (json 200 [("message", VStr (js "Post flagged for review"));
                     ("flagged", VBool (Post.isFlagged saved))],
           if Post.modified post saved then Post.stored now2 saved posts else posts, g')
        else (json 500 [("error", VStr (js "Failed to flag post"))], posts, g)
    end.

End Routes.

(** ** middleware/security.js: the request filters *)

(** The patterns of the filters use, beyond the fragment of [RegExp],
    alternation, a group repeated any number of times and a negative
    lookahead; all of them carry the flag [i]. *)
Module Pattern.
Import RegExp.

Inductive pattern :=
| Plain (r : regex)
| Then (a b : pattern)
| Or (a b : pattern)
| Many (a : pattern)
| NotAhead (a : pattern).

Fixpoint run (s : jsstring) (p : pattern) (st : state) : list state :=
  match p with
  | Plain r => exec s r st
  | Then a b => flat_map (run s b) (run s a st)
  | Or a b => run s a st ++ run s b st
  | Many a => optional (run s a) (List.length s) st
  | NotAhead a =>
      match run s a st with
      | [] => [st]
      | _ :: _ => []
      end
  end.

Definition matches_at (p : pattern) (s : jsstring) (i : nat) : bool :=
  match run s p {| pos := i; caps := [] |} with
  | [] => false
  | _ :: _ => true
  end.

(** [p.test(s)] on a pattern whose [lastIndex] is zero. *)
Definition test (p : pattern) (s : jsstring) : bool :=
  existsb (matches_at p s) (seq 0 (S (List.length s))).

(** Canonicalization under the flag [i]: a code unit is compared through
    its upper case, which for the characters of these patterns concerns the
    ASCII letters only. *)
Definition canonicalize (u : Z) : Z :=
  if (97 <=? u) && (u <=? 122) then u - 32 else u.

Definition ci (c : ascii) : regex :=
  Chr (fun u => canonicalize u =? canonicalize (code_unit c)).

Fixpoint ci_text (cs : list ascii) (k : regex) : regex :=
  match cs with
  | [] => k
  | c :: cs' => Seq (ci c) (ci_text cs' k)
  end.

(** [ci_str "abc" k] is the pattern [abc] under the flag [i], followed by [k]. *)
Definition ci_str (w : string) (k : regex) : regex := ci_text (list_ascii_of_string w) k.

End Pattern.

Module Middleware.
Import RegExp Pattern.

(** *** sanitizeInput *)

(** [s.replace(/[<>]/g, '')] *)
Definition remove_angle_brackets (s : jsstring) : jsstring :=
  List.filter (fun u => negb ((u =? code_unit "<") || (u =? code_unit ">"))) s.

(** [w] under the flag [i] at the start of [s]. *)
Fixpoint starts_with_ci (w s : jsstring) : bool :=
  match w, s with
  | [], _ => true
  | c :: w', u :: s' => (canonicalize u =? canonicalize c) && starts_with_ci w' s'
  | _ :: _, [] => false
  end.

(** [s.replace(/w/gi, '')] for a literal [w]: the occurrences of [w] are
    removed from left to right, the search resuming after each one; [skip]
    code units of an occurrence are still to be dropped. *)
Fixpoint remove_ci (w : jsstring) (skip : nat) (s : jsstring) : jsstring :=
  match s with
  | [] => []
  | u :: s' =>
      match skip with
      | S k => remove_ci w k s'
      | O =>
          if starts_with_ci w s
          then remove_ci w (List.length w - 1) s'
          else u :: remove_ci w 0 s'
      end
  end.

Fixpoint trim_start (s : jsstring) : jsstring :=
  match s with
  | u :: s' => if white_space u then trim_start s' else s
  | [] => []
  end.

(** [s.trim()] *)
Definition trim (s : jsstring) : jsstring := rev (trim_start (rev (trim_start s))).

(** The strings that [sanitizeObject] and [checkSuspicious] come by in an
    object: those among its properties, at any depth, in the order of the
    traversal. *)
Fixpoint strings_in (obj : value) : list jsstring :=
  let property (v : value) : list jsstring :=
    match v with
    | VStr s => [s]
    | VObj _ | VArr _ => strings_in v
    | _ => []
    end in
  match obj with
  | VObj fields => flat_map (fun '(key, v) => property v) fields
  | VArr items => flat_map property items
  | _ => []
  end.

Section Sanitizer.

(** [purify.sanitize(s, { ALLOWED_TAGS: [], ALLOWED_ATTR: [] })] *)
Variable purify : jsstring -> jsstring.

(** What [sanitizeObject] assigns to a property that holds a string. *)
Definition clean (s : jsstring) : jsstring :=
  trim (remove_ci (js "vbscript:") 0
          (remove_ci (js "data:") 0
             (remove_ci (js "javascript:") 0
                (remove_angle_brackets (purify s))))).

(** [sanitizeObject(obj)]: the strings among the properties of an object or
    the elements of an array are cleaned, objects and arrays among them are
    gone through in turn, and the other values stay; the keys are not
    touched. *)
Fixpoint sanitizeObject (obj : value) : value :=
  let property (v : value) : value :=
    match v with
    | VStr s => VStr (clean s)
    | VObj _ | VArr _ => sanitizeObject v
    | _ => v
    end in
  match obj with
  | VObj fields => VObj (List.map (fun '(key, v) => (key, property v)) fields)
  | VArr items => VArr (List.map property items)
  | _ => obj
  end.

(** The parts of a request the middlewares read: the parsed body, the
    parsed query string and the route parameters. *)
Record request := {
  body : value;
  query : value;
  params : value
}.

(** [sanitizeInput]: the request that [next()] goes on with. *)
Definition sanitizeInput (req : request) : request :=
  {| body := if truthy (body req) then sanitizeObject (body req) else body req;
     query := if truthy (query req) then sanitizeObject (query req) else query req;
     params := if truthy (params req) then sanitizeObject (params req) else params req |}.

End Sanitizer.

(** *** suspiciousActivityDetector *)

(** [/union\s+select/gi] *)
Definition union_select : pattern :=
  Plain (ci_str "union" (Seq (plus (Chr white_space)) (ci_str "selec" (ci "t")))).

(** The script pattern: [<script\b], any characters but [<], then any number
    of times a [<] that does not start [</script>] with the characters but
    [<] after it, then [</script>]. *)
Definition closing_script : pattern := Plain (ci_str "</script" (lit ">")).

Definition script_element : pattern :=
  Then (Plain (ci_str "<script"
                 (Seq WordBoundary (star (Chr (fun u => negb (u =? code_unit "<")))))))
       (Then (Many (Then (NotAhead closing_script)
                         (Plain (Seq (lit "<")
                                     (star (Chr (fun u => negb (u =? code_unit "<"))))))))
             closing_script).

(** [/javascript:/gi], [/vbscript:/gi], [/onload\s*=/gi], [/onerror\s*=/gi] *)
Definition javascript_protocol : pattern := Plain (ci_str "javascript" (lit ":")).
Definition vbscript_protocol : pattern := Plain (ci_str "vbscript" (lit ":")).
Definition onload_handler : pattern :=
  Plain (ci_str "onload" (Seq (star (Chr white_space)) (lit "="))).
Definition onerror_handler : pattern :=
  Plain (ci_str "onerror" (Seq (star (Chr white_space)) (lit "="))).

Definition suspicious : list pattern :=
  [union_select; script_element; javascript_protocol; vbscript_protocol;
   onload_handler; onerror_handler].

(** [checkSuspicious(obj)]: some string among the properties of [obj], at
    any depth, matches one of the patterns.  A pattern that has matched ends
    the search, so every test starts with [lastIndex] at zero. *)
Fixpoint checkSuspicious (obj : value) : bool :=
  let property (v : value) : bool :=
    match v with
    | VStr s => existsb (fun p => test p s) suspicious
    | VObj _ | VArr _ => checkSuspicious v
    | _ => false
    end in
  match obj with
  | VObj fields => existsb (fun '(key, v) => property v) fields
  | VArr items => existsb property items
  | _ => false
  end.

(** The answer of a middleware: a response, or [next()]. *)
Inductive outcome :=
| Respond (status : Z) (body : obj)
| Next.

Definition suspiciousActivityDetector (req : request) : outcome :=
  if checkSuspicious (body req) || checkSuspicious (query req)
  then Respond 403 [("error", VStr (js "Suspicious activity detected"))]
  else Next.

(** *** contentFilter *)

(** [/\b(spam|scam|fake)\b/gi] and [/\b(buy now|click here|urgent)\b/gi] *)
Definition inappropriatePatterns : list pattern :=
  [Then (Plain WordBoundary)
        (Then (Or (Plain (ci_str "spa" (ci "m")))
                  (Or (Plain (ci_str "sca" (ci "m"))) (Plain (ci_str "fak" (ci "e")))))
              (Plain WordBoundary));
   Then (Plain WordBoundary)
        (Then (Or (Plain (ci_str "buy no" (ci "w")))
                  (Or (Plain (ci_str "click her" (ci "e")))
                      (Plain (ci_str "urgen" (ci "t")))))
              (Plain WordBoundary))].

Section ContentFilter.

(** The conversion to a string of a value that is not one, which
    [pattern.test] applies to its argument. *)
Variable ToString : value -> jsstring.

Definition checkContent (text : value) : bool :=
  if negb (truthy text) then true
  else
    let subject := match text with
                   | VStr s => s
                   | _ => ToString text
                   end in
    negb (existsb (fun p => test p subject) inappropriatePatterns).

(** [text?.substring(0, n)], evaluated for the log entry: a value that is
    neither a string nor missing has no method [substring]. *)
Definition substring_of (text : value) (n : nat) : completion value :=
  match text with
  | VUndefined | VNull => Normal VUndefined
  | VStr s => Normal (VStr (firstn n s))
  | _ => Throw (TypeError "substring is not a function")
  end.

(** [contentFilter]: a failure inside the [try] block ends in [next()]. *)
Definition contentFilter (req : request) : outcome :=
  match
    try_catch
      (title <- Post.prop (body req) "title" ;;
       content <- Post.prop (body req) "content" ;;
       if negb (checkContent title) || negb (checkContent content)
       then
         _ <- substring_of title 50 ;;
         _ <- substring_of content 100 ;;
         Normal (Respond 400 [("error", VStr (js "Content violates community guidelines"))])
       else Normal Next)
      (fun error => Normal Next)
  with
  | Normal o => o
  | Throw _ => Next
  end.

End ContentFilter.

End Middleware.

(** ** Histories of a document *)

(** The operations that write a stored post or comment, and their effect in
    sequence.  Each event carries the time at which it happens; an event on
    a comment carries the posts collection of that moment as well. *)
Module Lifecycle.

Inductive post_op :=
| PostIncrementLikes
| PostIncrementComments
| PostDecrementComments
| PostSoftDelete
| PostFlag
| PostSave.

Definition post_step (st : Post.doc * prng) (ev : Date * post_op) : Post.doc * prng :=
  let '(this, g) := st in
  let '(now, op) := ev in
  match op with
  | PostIncrementLikes => Post.incrementLikes now g this
  | PostIncrementComments => Post.incrementComments now g this
  | PostDecrementComments => Post.decrementComments now g this
  | PostSoftDelete => Post.softDelete now g this
  | PostFlag => Post.flag now g this
  | PostSave => Post.save now g this
  end.

Definition post_run (trace : list (Date * post_op)) (st : Post.doc * prng)
  : Post.doc * prng :=
  fold_left post_step trace st.

Definition post_flags (trace : list (Date * post_op)) : Z :=
  Z.of_nat (List.length
    (List.filter (fun ev => match snd ev with PostFlag => true | _ => false end) trace)).

Definition post_likes (trace : list (Date * post_op)) : Z :=
  Z.of_nat (List.length
    (List.filter (fun ev => match snd ev with PostIncrementLikes => true | _ => false end)
                 trace)).

Inductive comment_op :=
| CommentSoftDelete
| CommentFlag
| CommentSave.

Definition comment_step (st : Comment.doc * prng)
    (ev : list Post.doc * Date * comment_op) : Comment.doc * prng :=
  let '(this, g) := st in
  let '(posts, now, op) := ev in
  match op with
  | CommentSoftDelete => Comment.softDelete posts now g this
  | CommentFlag => Comment.flag posts g this
  | CommentSave => Comment.save posts g this
  end.

Definition comment_run (trace : list (list Post.doc * Date * comment_op))
    (st : Comment.doc * prng) : Comment.doc * prng :=
  fold_left comment_step trace st.

Definition comment_flags (trace : list (list Post.doc * Date * comment_op)) : Z :=
  Z.of_nat (List.length
    (List.filter (fun ev => match snd ev with CommentFlag => true | _ => false end) trace)).

End Lifecycle.

(** ** Sample data *)

(** Concrete documents, draws and library instances, on which the
    definitions above can be evaluated. *)
Module Samples.

Definition oid1 : ObjectId :=
  [x65; x4a; x1b; x2c; x3d; x4e; x5f; x60; x71; x82; x93; xa4].

Definition oid2 : ObjectId :=
  [x65; x4a; x1b; x2c; x3d; x4e; x5f; x60; x71; x82; x93; xa5].

(** 2024-01-01T00:00:00Z and a week later. *)
Definition t0 : Date := 1704067200000.
Definition week : Z := 7 * 24 * 60 * 60 * 1000.

(** Draws of [Math.random]: 0 first, then 15/16 for ever. *)
Definition draws : prng := fun i => match i with O => 0%Q | S _ => (15 # 16)%Q end.

(** A post as the create route builds it. *)
Definition new_post : Post.doc :=
  Post.create oid1 t0 (js "Hello") (js "0a1b2c3d") (js "general") []
    (js "9f86d081884c7d65") (Some (js "Mozilla/5.0")) (Some (js "Ghost4821")).

(** The same post as a stored document, with the expiry that the
    middleware computes for it; and after five flags. *)
Definition post1 : Post.doc := fst (Post.pre_save t0 draws new_post).

Definition flagged_post : Post.doc :=
  fst (Lifecycle.post_run
         [(t0, Lifecycle.PostFlag); (t0, Lifecycle.PostFlag); (t0, Lifecycle.PostFlag);
          (t0, Lifecycle.PostFlag); (t0, Lifecycle.PostFlag)]
         (post1, draws)).

(** [post1] after four flags. *)
Definition post_with_four_flags : Post.doc :=
  fst (Lifecycle.post_run
         [(t0, Lifecycle.PostFlag); (t0, Lifecycle.PostFlag); (t0, Lifecycle.PostFlag);
          (t0, Lifecycle.PostFlag)]
         (post1, draws)).

(** The identifier of [post1] as a route parameter. *)
Definition oid1_hex : jsstring := js "654a1b2c3d4e5f60718293a4".

(** A comment on [post1] that brings no [expiresAt] of its own, and one
    that does and passes the validators. *)
Definition new_comment : Comment.doc :=
  {| Comment._id := oid2; Comment.postId := Some oid1;
     Comment.anonId := Some (js "Void1000"); Comment.content := js "0a1b";
     Comment.ipHash := js "9f86d081884c7d65"; Comment.userAgent := None;
     Comment.createdAt := t0 + 1000; Comment.updatedAt := t0 + 1000;
     Comment.expiresAt := None; Comment.isDeleted := false;
     Comment.deletedAt := None; Comment.isFlagged := false;
     Comment.flagCount := 0 |}.

Definition dated_comment : Comment.doc :=
  Comment.set_expiresAt (Some (t0 + 2 * week)) new_comment.

(** A stand-in for the library, on which the models can be evaluated: the
    key is the password itself, the ciphertext is the plaintext reversed,
    and the tag is made of sixteen bytes of the ciphertext, the key, the IV
    and the associated data.  It satisfies the laws of the cipher. *)
Definition toy_tag (key iv aad ciphertext : list byte) : list byte :=
  firstn 16 (ciphertext ++ key ++ iv ++ aad ++ repeat x00 16).

Definition toy_crypto : NodeCrypto :=
  {| EVP_BytesToKey := fun password => (password, firstn 12 password);
     gcm_encrypt := fun key iv aad plaintext =>
       (rev plaintext, toy_tag key iv aad (rev plaintext));
     gcm_decrypt := fun key iv aad ciphertext tag =>
       if list_eq_dec byte_eq_dec tag (toy_tag key iv aad ciphertext)
       then Some (rev ciphertext) else None;
     sha256 := fun data => data;
     Buffer_from_object := fun _ =>
       Throw (TypeError "The first argument must be of type string") |}.

(** A configured environment, and two states of the entropy source. *)
Definition configured : env :=
  {| ENCRYPTION_KEY :=
       Some (js "000102030405060708090a0b0c0d0e0f101112131415161718191a1b1c1d1e1f");
     IP_SALT := None |}.

Definition zeros : entropy := fun _ => x00.
Definition ones : entropy := fun _ => x01.


(** Ten code units, the first an unpaired high surrogate. *)
Definition unpaired : jsstring := 0xD800 :: js "aaaaaaaaa".

(** One URL four times, separated by spaces; and three times, run together. *)
Definition four_urls : jsstring :=
  js "http://a.com http://a.com http://a.com http://a.com".

Definition joined_urls : jsstring := js "http://a.comhttp://a.comhttp://a.com".

(** [parseInt] on a missing parameter and on a string of decimal digits
    with an optional sign; the other values, whose conversion to a string is
    not modelled, read NaN. *)
Fixpoint digits (s : jsstring) (acc : option Z) : option Z :=
  match s with
  | u :: s' =>
      if (48 <=? u) && (u <=? 57)
      then digits s' (Some (10 * match acc with Some a => a | None => 0 end + (u - 48)))
      else acc
  | [] => acc
  end.

Definition parseInt (v : value) : number :=
  match v with
  | VStr (45 :: s) => match digits s None with Some z => Int (- z) | None => NaN end
  | VStr s => match digits s None with Some z => Int z | None => NaN end
  | _ => NaN
  end.

End Samples.

(** * Properties *)

(** ** Numbers and saves *)

Section Numbers.

Lemma two_53 : 2 ^ 53 = 9007199254740992.
Proof. reflexivity. Qed.

Lemma log2_above z : 2 ^ 53 < z -> 53 <= Z.log2 z.
Proof.
  intros Hz. rewrite <- (Z.log2_pow2 53) by lia. apply Z.log2_le_mono. lia.
Qed.

(** An integer up to 2^53 in absolute value is a double. *)
Lemma to_double_exact z : Z.abs z <= 2 ^ 53 -> to_double z = z.
Proof.
  intros Hz. unfold to_double.
  destruct (Z.leb_spec (Z.abs z) (2 ^ 53)); [reflexivity | lia].
Qed.

Lemma to_double_opp z : to_double (- z) = - to_double z.
Proof.
  unfold to_double. rewrite Z.abs_opp, Z.sgn_opp.
  destruct (Z.abs z <=? 2 ^ 53); [reflexivity|]. cbv zeta. ring.
Qed.

Lemma to_double_nonneg z : 0 <= z -> 0 <= to_double z.
Proof.
  intros Hz. unfold to_double.
  destruct (Z.leb_spec (Z.abs z) (2 ^ 53)) as [|Hbig]; [exact Hz|]. cbv zeta.
  rewrite Z.abs_eq in * by exact Hz.
  pose proof (log2_above z Hbig) as H53.
  assert (Hulp : 0 < 2 ^ (Z.log2 z - 52)) by (apply Z.pow_pos_nonneg; lia).
  assert (Hq : 0 <= z / 2 ^ (Z.log2 z - 52)) by (apply Z.div_pos; lia).
  rewrite two_53 in Hbig. rewrite Z.sgn_pos by lia.
  destruct (_ || _); nia.
Qed.

Lemma to_double_nonpos z : z <= 0 -> to_double z <= 0.
Proof.
  intros Hz. pose proof (to_double_nonneg (- z) ltac:(lia)) as H.
  rewrite to_double_opp in H. lia.
Qed.

(** Rounding does not cross a bound that is a small positive integer. *)
Lemma to_double_below z k : 0 < k <= 2 ^ 53 -> z < k -> to_double z < k.
Proof.
  intros Hk Hz. destruct (Z.le_gt_cases (Z.abs z) (2 ^ 53)) as [Hs|Hbig].
  - now rewrite to_double_exact.
  - pose proof (to_double_nonpos z ltac:(lia)). lia.
Qed.

Lemma int_add_exact x y : Z.abs (x + y) <= 2 ^ 53 -> int_add x y = x + y.
Proof. apply to_double_exact. Qed.

Lemma int_sub_exact x y : Z.abs (x - y) <= 2 ^ 53 -> int_sub x y = x - y.
Proof. apply to_double_exact. Qed.

(** Counting up to [MAX_SAFE_INTEGER + 1] and down from it is exact. *)
Lemma int_add_one x :
  - MAX_SAFE_INTEGER <= x <= MAX_SAFE_INTEGER -> int_add x 1 = x + 1.
Proof.
  unfold MAX_SAFE_INTEGER. intros Hx. apply int_add_exact. lia.
Qed.

Lemma int_sub_one x : 0 <= x <= MAX_SAFE_INTEGER + 1 -> int_sub x 1 = x - 1.
Proof.
  unfold MAX_SAFE_INTEGER. intros Hx. apply int_sub_exact. lia.
Qed.

(** One more than 2^53 is no double: the sum is rounded back to 2^53. *)
Lemma int_add_at_limit : int_add (2 ^ 53) 1 = 2 ^ 53.
Proof. vm_compute. reflexivity. Qed.

(** The validators ask for what the middleware would fill in, so the
    middleware of a post changes nothing when a save lets it run: a save
    leaves the document in memory as the method has made it. *)
Lemma post_save_in_memory now g p : Post.save now g p = (p, g).
Proof.
  unfold Post.save. destruct (Post.validate p) eqn:Hv; [|reflexivity].
  unfold Post.validate in Hv.
  repeat (apply andb_true_iff in Hv; destruct Hv as [Hv ?]).
  unfold Post.pre_save.
  destruct (Post.expiresAt p); [|discriminate].
  destruct (Post.anonId p) as [[|u s]|]; try discriminate. reflexivity.
Qed.

Lemma comment_save_in_memory posts g c : Comment.save posts g c = (c, g).
Proof.
  unfold Comment.save. destruct (Comment.validate c) eqn:Hv; [|reflexivity].
  unfold Comment.validate in Hv.
  repeat (apply andb_true_iff in Hv; destruct Hv as [Hv ?]).
  unfold Comment.pre_save.
  destruct (Comment.anonId c) as [[|u s]|]; try discriminate.
  destruct (Comment.expiresAt c); [reflexivity | discriminate].
Qed.

End Numbers.

(** ** Flagging *)

Section Flagging.
Import Lifecycle.

Lemma post_flag_spec now g p :
  Post.flagCount (fst (Post.flag now g p)) = int_add (Post.flagCount p) 1
  /\ Post.isFlagged (fst (Post.flag now g p))
     = Post.isFlagged p || (5 <=? int_add (Post.flagCount p) 1).
Proof.
  unfold Post.flag. rewrite post_save_in_memory.
  cbn [fst Post.flagCount Post.set_flagCount].
  destruct (5 <=? int_add (Post.flagCount p) 1); cbn; split; auto.
  - now rewrite orb_true_r.
  - now rewrite orb_false_r.
Qed.

Lemma post_step_flags st ev :
  Post.flagCount (fst (post_step st ev))
  = (if match snd ev with PostFlag => true | _ => false end
     then int_add (Post.flagCount (fst st)) 1
     else Post.flagCount (fst st))
  /\ Post.isFlagged (fst (post_step st ev))
     = Post.isFlagged (fst st)
       || (match snd ev with PostFlag => true | _ => false end
           && (5 <=? int_add (Post.flagCount (fst st)) 1)).
Proof.
  destruct st as [p g], ev as [now op]. cbn [fst snd post_step].
  destruct op;
    try (unfold Post.incrementLikes, Post.incrementComments, Post.decrementComments,
           Post.softDelete;
         rewrite post_save_in_memory;
         try destruct (0 <? Post.commentCount p); cbn;
         rewrite ?orb_false_r; split; reflexivity).
  destruct (post_flag_spec now g p) as [Hc Hf]. rewrite Hc, Hf. cbn. split; auto.
Qed.

Lemma post_flags_cons ev trace :
  post_flags (ev :: trace)
  = (if match snd ev with PostFlag => true | _ => false end then 1 else 0)
    + post_flags trace.
Proof.
  unfold post_flags. cbn [List.filter].
  destruct (match snd ev with PostFlag => true | _ => false end);
    cbn [List.length]; lia.
Qed.

(** A history of [k] flag calls on a document that began with the defaults
    of the schema: while the count is exact it is [k]; once it has reached
    2^53, where it stays, the document has long been flagged. *)
Lemma post_run_flags trace : forall st k,
  0 <= k ->
  (Post.flagCount (fst st) = k /\ k <= 2 ^ 53 /\ Post.isFlagged (fst st) = (5 <=? k))
  \/ (5 <= k /\ Post.isFlagged (fst st) = true) ->
  Post.isFlagged (fst (post_run trace st)) = (5 <=? k + post_flags trace).
Proof.
  induction trace as [|ev trace IH]; intros st k Hk Hinv.
  - unfold post_flags. cbn [post_run fold_left List.filter List.length Z.of_nat].
    rewrite Z.add_0_r.
    destruct Hinv as [(_ & _ & Hf)|[H5 Hf]]; rewrite Hf; [reflexivity|].
    symmetry. now apply Z.leb_le.
  - cbn [post_run fold_left]. fold (post_run trace (post_step st ev)).
    destruct (post_step_flags st ev) as [Hc' Hf'].
    rewrite post_flags_cons.
    destruct (match snd ev with PostFlag => true | _ => false end);
      cbn [andb] in Hf'.
    + replace (k + (1 + post_flags trace)) with (k + 1 + post_flags trace) by lia.
      apply IH; [lia|].
      destruct Hinv as [(Hc & Hle & Hf)|[H5 Hf]].
      * destruct (Z.eq_dec k (2 ^ 53)) as [Ek|Nk].
        -- right. rewrite Hf', Hc, Ek, int_add_at_limit, orb_true_r.
           rewrite two_53 in Ek. split; [lia | reflexivity].
        -- left. rewrite Hc', Hf', Hc, Hf.
           rewrite int_add_exact by lia.
           split; [reflexivity|]. split; [lia|].
           destruct (Z.leb_spec 5 k), (Z.leb_spec 5 (k + 1)); cbn; auto; lia.
      * right. split; [lia|]. rewrite Hf', Hf. reflexivity.
    + rewrite Z.add_0_l. apply IH; [exact Hk|].
      rewrite orb_false_r in Hf'. rewrite Hc', Hf'. exact Hinv.
Qed.

Lemma post_run_monotone trace : forall st,
  Post.isFlagged (fst st) = true ->
  Post.isFlagged (fst (post_run trace st)) = true.
Proof.
  induction trace as [|ev trace IH]; intros st Hf; [exact Hf|].
  cbn [post_run fold_left]. apply IH.
  destruct (post_step_flags st ev) as [_ Hf']. rewrite Hf', Hf. reflexivity.
Qed.

Lemma comment_flag_spec posts g c :
  Comment.flagCount (fst (Comment.flag posts g c)) = int_add (Comment.flagCount c) 1
  /\ Comment.isFlagged (fst (Comment.flag posts g c))
     = Comment.isFlagged c || (3 <=? int_add (Comment.flagCount c) 1).
Proof.
  unfold Comment.flag. rewrite comment_save_in_memory.
  cbn [fst Comment.flagCount Comment.set_flagCount].
  destruct (3 <=? int_add (Comment.flagCount c) 1); cbn; split; auto.
  - now rewrite orb_true_r.
  - now rewrite orb_false_r.
Qed.

Lemma comment_step_flags st ev :
  Comment.flagCount (fst (comment_step st ev))
  = (if match snd ev with CommentFlag => true | _ => false end
     then int_add (Comment.flagCount (fst st)) 1
     else Comment.flagCount (fst st))
  /\ Comment.isFlagged (fst (comment_step st ev))
     = Comment.isFlagged (fst st)
       || (match snd ev with CommentFlag => true | _ => false end
           && (3 <=? int_add (Comment.flagCount (fst st)) 1)).
Proof.
  destruct st as [c g], ev as [[posts now] op]. cbn [fst snd comment_step].
  destruct op;
    try (unfold Comment.softDelete; rewrite comment_save_in_memory; cbn;
         rewrite ?orb_false_r; split; reflexivity).
  destruct (comment_flag_spec posts g c) as [Hc Hf]. rewrite Hc, Hf. cbn. split; auto.
Qed.

Lemma comment_flags_cons ev trace :
  comment_flags (ev :: trace)
  = (if match snd ev with CommentFlag => true | _ => false end then 1 else 0)
    + comment_flags trace.
Proof.
  unfold comment_flags. cbn [List.filter].
  destruct (match snd ev with CommentFlag => true | _ => false end);
    cbn [List.length]; lia.
Qed.

Lemma comment_run_flags trace : forall st k,
  0 <= k ->
  (Comment.flagCount (fst st) = k /\ k <= 2 ^ 53
   /\ Comment.isFlagged (fst st) = (3 <=? k))
  \/ (3 <= k /\ Comment.isFlagged (fst st) = true) ->
  Comment.isFlagged (fst (comment_run trace st)) = (3 <=? k + comment_flags trace).
Proof.
  induction trace as [|ev trace IH]; intros st k Hk Hinv.
  - unfold comment_flags. cbn [comment_run fold_left List.filter List.length Z.of_nat].
    rewrite Z.add_0_r.
    destruct Hinv as [(_ & _ & Hf)|[H3 Hf]]; rewrite Hf; [reflexivity|].
    symmetry. now apply Z.leb_le.
  - cbn [comment_run fold_left]. fold (comment_run trace (comment_step st ev)).
    destruct (comment_step_flags st ev) as [Hc' Hf'].
    rewrite comment_flags_cons.
    destruct (match snd ev with CommentFlag => true | _ => false end);
      cbn [andb] in Hf'.
    + replace (k + (1 + comment_flags trace)) with (k + 1 + comment_flags trace) by lia.
      apply IH; [lia|].
      destruct Hinv as [(Hc & Hle & Hf)|[H3 Hf]].
      * destruct (Z.eq_dec k (2 ^ 53)) as [Ek|Nk].
        -- right. rewrite Hf', Hc, Ek, int_add_at_limit, orb_true_r.
           rewrite two_53 in Ek. split; [lia | reflexivity].
        -- left. rewrite Hc', Hf', Hc, Hf.
           rewrite int_add_exact by lia.
           split; [reflexivity|]. split; [lia|].
           destruct (Z.leb_spec 3 k), (Z.leb_spec 3 (k + 1)); cbn; auto; lia.
      * right. split; [lia|]. rewrite Hf', Hf. reflexivity.
    + rewrite Z.add_0_l. apply IH; [exact Hk|].
      rewrite orb_false_r in Hf'. rewrite Hc', Hf'. exact Hinv.
Qed.

Lemma comment_run_monotone trace : forall st,
  Comment.isFlagged (fst st) = true ->
  Comment.isFlagged (fst (comment_run trace st)) = true.
Proof.
  induction trace as [|ev trace IH]; intros st Hf; [exact Hf|].
  cbn [comment_run fold_left]. apply IH.
  destruct (comment_step_flags st ev) as [_ Hf']. rewrite Hf', Hf. reflexivity.
Qed.

(** C5.  The flag call that takes [flagCount] from 4 to 5 on a post (from 2
    to 3 on a comment) sets [isFlagged]; a flag call that ends below the
    threshold leaves [isFlagged] as it was, so that a document which starts
    with the defaults of the schema (no flags, not flagged) is flagged after
    a history exactly when the history holds five (three) flag calls or
    more; and no history of operations takes [isFlagged] from true back to
    false. *)
Theorem flag_threshold_and_monotonicity :
  (forall now g p,
      Post.flagCount p = 4 -> Post.isFlagged (fst (Post.flag now g p)) = true)
  /\ (forall now g p,
      Post.flagCount p + 1 < 5 ->
      Post.isFlagged (fst (Post.flag now g p)) = Post.isFlagged p)
  /\ (forall trace g p,
      Post.flagCount p = 0 -> Post.isFlagged p = false ->
      Post.isFlagged (fst (post_run trace (p, g))) = (5 <=? post_flags trace))
  /\ (forall trace g p,
      Post.isFlagged p = true -> Post.isFlagged (fst (post_run trace (p, g))) = true)
  /\ (forall posts g c,
      Comment.flagCount c = 2 ->
      Comment.isFlagged (fst (Comment.flag posts g c)) = true)
  /\ (forall posts g c,
      Comment.flagCount c + 1 < 3 ->
      Comment.isFlagged (fst (Comment.flag posts g c)) = Comment.isFlagged c)
  /\ (forall trace g c,
      Comment.flagCount c = 0 -> Comment.isFlagged c = false ->
      Comment.isFlagged (fst (comment_run trace (c, g))) = (3 <=? comment_flags trace))
  /\ (forall trace g c,
      Comment.isFlagged c = true ->
      Comment.isFlagged (fst (comment_run trace (c, g))) = true).
Proof.
  repeat split.
  - intros now g p H4. destruct (post_flag_spec now g p) as [_ Hf].
    rewrite Hf, H4. change (int_add 4 1) with 5. apply orb_true_r.
  - intros now g p Hlt. destruct (post_flag_spec now g p) as [_ Hf].
    rewrite Hf.
    pose proof (to_double_below (Post.flagCount p + 1) 5
                  ltac:(rewrite two_53; lia) Hlt) as Hb.
    fold (int_add (Post.flagCount p) 1) in Hb.
    destruct (Z.leb_spec 5 (int_add (Post.flagCount p) 1)); [lia|].
    apply orb_false_r.
  - intros trace g p H0 Hf.
    rewrite (post_run_flags trace (p, g) 0); [reflexivity | lia |].
    left. cbn [fst]. rewrite H0, Hf, two_53. repeat split; lia.
  - intros trace g p Hf. now apply post_run_monotone.
  - intros posts g c H2. destruct (comment_flag_spec posts g c) as [_ Hf].
    rewrite Hf, H2. change (int_add 2 1) with 3. apply orb_true_r.
  - intros posts g c Hlt. destruct (comment_flag_spec posts g c) as [_ Hf].
    rewrite Hf.
    pose proof (to_double_below (Comment.flagCount c + 1) 3
                  ltac:(rewrite two_53; lia) Hlt) as Hb.
    fold (int_add (Comment.flagCount c) 1) in Hb.
    destruct (Z.leb_spec 3 (int_add (Comment.flagCount c) 1)); [lia|].
    apply orb_false_r.
  - intros trace g c H0 Hf.
    rewrite (comment_run_flags trace (c, g) 0); [reflexivity | lia |].
    left. cbn [fst]. rewrite H0, Hf, two_53. repeat split; lia.
  - intros trace g c Hf. now apply comment_run_monotone.
Qed.

Lemma flag_threshold_and_monotonicity_witness :
  Post.flagCount Samples.post_with_four_flags = 4
  /\ Post.isFlagged Samples.post_with_four_flags = false
  /\ Post.isFlagged
       (fst (Post.flag Samples.t0 Samples.draws Samples.post_with_four_flags)) = true
  /\ Post.isFlagged (fst (Post.flag Samples.t0 Samples.draws Samples.post1)) = false
  /\ Post.isFlagged
       (fst (post_run [(Samples.t0, PostFlag); (Samples.t0, PostIncrementLikes)]
                      (Samples.post1, Samples.draws)))
     = false
  /\ Post.isFlagged
       (fst (post_run [(Samples.t0, PostFlag); (Samples.t0, PostSoftDelete)]
                      (Samples.flagged_post, Samples.draws)))
     = true.
Proof.
  destruct flag_threshold_and_monotonicity as (Hfifth & Hbelow & Hfresh & Hmono & _).
  split; [reflexivity|]. split; [reflexivity|]. split; [|split; [|split]].
  - apply (Hfifth Samples.t0 Samples.draws Samples.post_with_four_flags). reflexivity.
  - rewrite (Hbelow Samples.t0 Samples.draws Samples.post1); [reflexivity|].
    vm_compute. reflexivity.
  - rewrite (Hfresh _ Samples.draws Samples.post1); reflexivity.
  - apply (Hmono _ Samples.draws Samples.flagged_post). reflexivity.
Defined.

End Flagging.

(** ** Anonymous identifiers *)

Section AnonId.

Lemma Qfloor_scaled_range (r : Q) (n : Z) :
  0 < n -> (0 <= r)%Q -> (r < 1)%Q -> 0 <= Qfloor (r * inject_Z n) < n.
Proof.
  intros Hn H0 H1. split.
  - change 0 with (Qfloor 0). apply Qfloor_resp_le.
    apply Qmult_le_0_compat; [exact H0|].
    change 0%Q with (inject_Z 0). rewrite <- Zle_Qle. lia.
  - rewrite Zlt_Qlt. eapply Qle_lt_trans; [apply Qfloor_le|].
    rewrite <- (Qmult_1_l (inject_Z n)) at 2.
    apply Qmult_lt_compat_r; [|exact H1].
    change 0%Q with (inject_Z 0). rewrite <- Zlt_Qlt. lia.
Qed.

Lemma prefix_at_in i : 0 <= i < 8 -> In (Post.prefix_at i) Post.prefixes.
Proof.
  intros Hi. unfold Post.prefix_at.
  destruct (Z.ltb_spec i 0); [lia|].
  apply nth_In. cbn. lia.
Qed.

(** X30.  What the generator of a post and that of a comment return on
    draws from the unit interval: one of the eight prefixes, followed by an
    integer between 1000 and 10998. *)
Lemma generateAnonId_shape g :
  unit_interval g ->
  exists prefix number,
    In prefix Post.prefixes /\ 1000 <= number <= 10998
    /\ fst (Post.generateAnonId g) = prefix ++ num_to_string number
    /\ fst (Comment.generateAnonId g) = prefix ++ num_to_string number.
Proof.
  intros Hg.
  destruct (Hg 0%nat) as [Ha0 Ha1]. destruct (Hg 1%nat) as [Hb0 Hb1].
  exists (Post.prefix_at (Qfloor (g 0%nat * inject_Z 8))),
         (Qfloor (g 1%nat * inject_Z 9999) + 1000).
  split; [|split; [|split; reflexivity]].
  - apply prefix_at_in. apply Qfloor_scaled_range; auto; lia.
  - pose proof (Qfloor_scaled_range (g 1%nat) 9999 ltac:(lia) Hb0 Hb1). lia.
Qed.

Lemma generateAnonId_shape_witness :
  unit_interval Samples.draws
  /\ exists prefix number,
       In prefix Post.prefixes /\ 1000 <= number <= 10998
       /\ fst (Post.generateAnonId Samples.draws) = prefix ++ num_to_string number
       /\ fst (Comment.generateAnonId Samples.draws) = prefix ++ num_to_string number.
Proof.
  assert (Hdraws : unit_interval Samples.draws).
  { intros [|i]; cbn; split; unfold Qle, Qlt; cbn; lia. }
  split; [exact Hdraws|]. exact (generateAnonId_shape Samples.draws Hdraws).
Defined.

(** C7.  With the draws 0 and 15/16, both in the unit interval, the
    generator returns the prefix [Anon] followed by 10374: the number has
    five digits and lies outside the interval from 1000 to 9999. *)
Theorem generateAnonId_five_digits :
  unit_interval Samples.draws
  /\ fst (Post.generateAnonId Samples.draws) = js "Anon10374"
  /\ fst (Comment.generateAnonId Samples.draws) = js "Anon10374".
Proof.
  split; [|split; vm_compute; reflexivity].
  intros [|i]; cbn; split; unfold Qle, Qlt; cbn; lia.
Qed.

End AnonId.

(** ** The read routes *)

Section ReadRoutes.
Context `{NodeCrypto}.
Variable parseInt : value -> number.
Variable cast_condition : value -> completion (Post.doc -> bool).
Variable e : env.

(** The stored content of a document is a string, which has no [authTag]:
    decryption fails and yields the placeholder. *)
Lemma decryptContent_stored_string s g :
  fst (Post.decryptContent e (VStr s) g) = Normal Post.placeholder
  /\ fst (Comment.decryptContent e (VStr s) g) = Normal Post.placeholder.
Proof.
  unfold Post.decryptContent, Comment.decryptContent.
  destruct (Post.encryption_key e g) as [key g1].
  destruct (EVP_BytesToKey key) as [k iv]. split; reflexivity.
Qed.

Lemma decrypt_posts_listed extra docs : forall g,
  fst (Routes.decrypt_posts e extra docs g) = Normal (List.map (Routes.listed extra) docs).
Proof.
  induction docs as [|post docs IH]; intros g; [reflexivity|].
  cbn [Routes.decrypt_posts].
  pose proof (proj1 (decryptContent_stored_string (Post.content post) g)) as Hd.
  destruct (Post.decryptContent e (VStr (Post.content post)) g) as [c g1].
  cbn [fst] in Hd. subst c.
  specialize (IH g1).
  destruct (Routes.decrypt_posts e extra docs g1) as [rest g2].
  cbn [fst] in IH. subst rest. reflexivity.
Qed.

Lemma effective_limit_range query :
  exists n, Routes.effective_limit parseInt query = Int n /\ 1 <= n <= 50.
Proof.
  unfold Routes.effective_limit, num_or.
  destruct (parseInt (obj_get query "limit")) as [| |z|]; cbn.
  - exists 20. split; [reflexivity | lia].
  - exists 1. split; [reflexivity | lia].
  - destruct (z =? 0); cbn.
    + exists 20. split; [reflexivity | lia].
    + exists (Z.min 50 (Z.max 1 z)). split; [reflexivity | lia].
  - exists 50. split; [reflexivity | lia].
Qed.

Lemma effective_page_range query :
  Routes.effective_page parseInt query = PosInf
  \/ exists p, Routes.effective_page parseInt query = Int p /\ 1 <= p.
Proof.
  unfold Routes.effective_page, num_or.
  destruct (parseInt (obj_get query "page")) as [| |z|]; cbn.
  - right. exists 1. split; [reflexivity | lia].
  - right. exists 1. split; [reflexivity | lia].
  - destruct (z =? 0); cbn; right.
    + exists 1. split; [reflexivity | lia].
    + exists (Z.max 1 z). split; [reflexivity | lia].
  - left. reflexivity.
Qed.

Lemma In_firstn {A} n (l : list A) x : In x (firstn n l) -> In x l.
Proof.
  intros Hx. rewrite <- (firstn_skipn n l). apply in_or_app. now left.
Qed.

Lemma In_skipn {A} n (l : list A) x : In x (skipn n l) -> In x l.
Proof.
  intros Hx. rewrite <- (firstn_skipn n l). apply in_or_app. now right.
Qed.

Lemma skip_limit_length {A} skip n (l docs : list A) :
  1 <= n -> Routes.skip_limit skip (Int n) l = Normal docs ->
  Z.of_nat (List.length docs) <= n.
Proof.
  intros Hn. unfold Routes.skip_limit.
  destruct skip as [| |s|]; try discriminate.
  destruct (s <? 0); [discriminate|].
  destruct (Z.eqb_spec n 0); [lia|].
  intros [= <-]. rewrite length_firstn. lia.
Qed.

Lemma skip_limit_incl {A} skip limit (l docs : list A) :
  Routes.skip_limit skip limit l = Normal docs -> incl docs l.
Proof.
  unfold Routes.skip_limit.
  destruct skip as [| |s|], limit as [| |n|]; try discriminate.
  destruct (s <? 0); [discriminate|].
  destruct (n =? 0); intros [= <-] x Hx.
  - eapply In_skipn; eauto.
  - eapply In_skipn, In_firstn; eauto.
Qed.

Lemma list_filter_live now cond p :
  Routes.list_filter now cond p = true -> Routes.live now p = true.
Proof.
  unfold Routes.list_filter, Routes.live. intros Hf.
  apply andb_true_iff in Hf. tauto.
Qed.

Lemma In_insert_by {A} (key : A -> Z) asc x l y :
  In y (Routes.insert_by key asc x l) <-> y = x \/ In y l.
Proof.
  induction l as [|z l IH]; cbn.
  - intuition.
  - destruct (if asc then key x <=? key z else key z <=? key x); cbn.
    + intuition.
    + rewrite IH. intuition.
Qed.

Lemma In_sort_by {A} (key : A -> Z) asc l y :
  In y (Routes.sort_by key asc l) <-> In y l.
Proof.
  induction l as [|x l IH]; cbn; [tauto|].
  rewrite In_insert_by, IH. intuition.
Qed.

(** The list route shows stored posts that are live at the time of the
    query, at most fifty of them. *)
Lemma get_posts_listing posts now g query :
  exists docs extra,
    Routes.response_posts (fst (Routes.get_posts parseInt cast_condition e posts now g query))
    = List.map (Routes.listed extra) docs
    /\ (forall p, In p docs -> In p posts /\ Routes.live now p = true)
    /\ Z.of_nat (List.length docs) <= 50.
Proof.
  unfold Routes.get_posts.
  destruct (effective_limit_range query) as (n & Hn & Hr). rewrite Hn.
  cbv zeta.
  match goal with
  | |- context [bind (if ?b then ?x else ?y) _] =>
      destruct (if b then x else y) as [c|err]
  end; cbn [bind]; [|exists [], []; cbn; intuition; lia].
  match goal with
  | |- context [Routes.skip_limit ?sk ?li ?l] =>
      destruct (Routes.skip_limit sk li l) as [docs|err] eqn:Hs
  end; cbn [bind]; [|exists [], []; cbn; intuition; lia].
  match goal with
  | |- context [Routes.decrypt_posts e ?ex docs g] =>
      pose proof (decrypt_posts_listed ex docs g) as Hd;
      destruct (Routes.decrypt_posts e ex docs g) as [dec g'];
      exists docs, ex
  end.
  cbn [fst] in Hd. subst dec. cbn. split; [reflexivity|]. split.
  - intros p Hp. apply (skip_limit_incl _ _ _ _ Hs) in Hp.
    apply In_sort_by in Hp. apply filter_In in Hp. destruct Hp as [Hin Hf].
    split; [exact Hin|]. eapply list_filter_live; eauto.
  - assert (Hn1 : 1 <= n) by lia.
    pose proof (skip_limit_length _ _ _ _ Hn1 Hs). lia.
Qed.

Lemma get_category_listing posts now1 now2 g category query :
  exists docs,
    Routes.response_posts
      (fst (Routes.get_category parseInt e posts now1 now2 g category query))
    = List.map (Routes.listed []) docs
    /\ (forall p, In p docs -> In p posts /\ Routes.live now1 p = true)
    /\ Z.of_nat (List.length docs) <= 50.
Proof.
  unfold Routes.get_category.
  destruct (effective_limit_range query) as (n & Hn & Hr). rewrite Hn.
  destruct (negb _); [exists []; cbn; intuition; lia|].
  match goal with
  | |- context [Routes.skip_limit ?sk ?li ?l] =>
      destruct (Routes.skip_limit sk li l) as [docs|err] eqn:Hs
  end; [|exists []; cbn; intuition; lia].
  pose proof (decrypt_posts_listed [] docs g) as Hd.
  destruct (Routes.decrypt_posts e [] docs g) as [dec g'].
  exists docs. cbn [fst] in Hd. subst dec. cbn. split; [reflexivity|]. split.
  - intros p Hp. apply (skip_limit_incl _ _ _ _ Hs) in Hp.
    apply In_sort_by in Hp. apply filter_In in Hp. destruct Hp as [Hin Hf].
    split; [exact Hin|]. eapply list_filter_live; eauto.
  - assert (Hn1 : 1 <= n) by lia.
    pose proof (skip_limit_length _ _ _ _ Hn1 Hs). lia.
Qed.

(** C10.  Whatever [parseInt] makes of the query parameters, the effective
    page of a listing is at least 1 (or infinite), the effective page size
    is an integer between 1 and 50, and the list route and the category
    route return at most fifty posts. *)
Theorem listing_page_and_limit_clamped posts now1 now2 g category query :
  (Routes.effective_page parseInt query = PosInf
   \/ exists p, Routes.effective_page parseInt query = Int p /\ 1 <= p)
  /\ (exists n, Routes.effective_limit parseInt query = Int n /\ 1 <= n <= 50)
  /\ Z.of_nat (List.length (Routes.response_posts
        (fst (Routes.get_posts parseInt cast_condition e posts now1 g query)))) <= 50
  /\ Z.of_nat (List.length (Routes.response_posts
        (fst (Routes.get_category parseInt e posts now1 now2 g category query)))) <= 50.
Proof.
  split; [apply effective_page_range|].
  split; [apply effective_limit_range|].
  split.
  - destruct (get_posts_listing posts now1 g query) as (docs & extra & Hr & _ & Hl).
    rewrite Hr, length_map. exact Hl.
  - destruct (get_category_listing posts now1 now2 g category query)
      as (docs & Hr & _ & Hl).
    rewrite Hr, length_map. exact Hl.
Qed.

End ReadRoutes.

(** ** Serialization *)

Section Serialization.

Lemma obj_has_delete o k : obj_has (obj_delete o k) k = false.
Proof.
  unfold obj_has, obj_delete. induction o as [|[k' v] o IH]; cbn; [reflexivity|].
  destruct (String.eqb k' k) eqn:E; cbn; [exact IH|]. now rewrite E.
Qed.

Lemma obj_has_delete_other o k k' :
  obj_has o k = false -> obj_has (obj_delete o k') k = false.
Proof.
  unfold obj_has, obj_delete. induction o as [|[k0 v] o IH]; cbn; [reflexivity|].
  intros Hk. apply orb_false_iff in Hk. destruct Hk as [Hk0 Hk].
  destruct (String.eqb k0 k'); cbn; [auto|]. rewrite Hk0. auto.
Qed.

Lemma obj_has_set_other o k k' v :
  String.eqb k' k = false -> obj_has o k = false -> obj_has (obj_set o k' v) k = false.
Proof.
  unfold obj_has. intros Hne. induction o as [|[k0 v0] o IH]; cbn.
  - now rewrite Hne.
  - intros Hk. apply orb_false_iff in Hk. destruct Hk as [Hk0 Hk].
    destruct (String.eqb k0 k'); cbn.
    + now rewrite Hne, Hk.
    + now rewrite Hk0, IH.
Qed.

(** [toJSON] leaves neither [ipHash] nor [userAgent] in the object of a
    post or of a comment. *)
Lemma toJSON_strips_sensitive_fields :
  (forall now d, obj_has (Post.toJSON now d) "ipHash" = false
                 /\ obj_has (Post.toJSON now d) "userAgent" = false)
  /\ (forall d, obj_has (Comment.toJSON d) "ipHash" = false
                /\ obj_has (Comment.toJSON d) "userAgent" = false).
Proof.
  split.
  - intros now d. unfold Post.toJSON, Post.transform. split.
    + apply obj_has_set_other; [reflexivity|].
      do 2 apply obj_has_delete_other. apply obj_has_delete.
    + apply obj_has_set_other; [reflexivity|].
      apply obj_has_delete_other. apply obj_has_delete.
  - intros d. unfold Comment.toJSON, Comment.transform. split.
    + do 2 apply obj_has_delete_other. apply obj_has_delete.
    + apply obj_has_delete_other. apply obj_has_delete.
Qed.

(** C9.  [toJSON] removes [ipHash] and [userAgent] from every document, but
    the read routes do not go through it: they take the stored documents
    with [.lean()] and spread them into the response.  For a collection
    that holds the one live post [Samples.post1], the list route answers
    with that post's [ipHash] and [userAgent] in the body. *)
Theorem list_response_carries_ipHash_and_userAgent :
  forall `{NodeCrypto} cast_condition e g,
  exists o,
    Routes.response_posts
      (fst (Routes.get_posts Samples.parseInt cast_condition e [Samples.post1]
              (Samples.t0 + 1000) g []))
    = [VObj o]
    /\ obj_get o "ipHash" = VStr (js "9f86d081884c7d65")
    /\ obj_get o "userAgent" = VStr (js "Mozilla/5.0")
    /\ obj_has (Post.toJSON (Samples.t0 + 1000) Samples.post1) "ipHash" = false
    /\ obj_has (Post.toJSON (Samples.t0 + 1000) Samples.post1) "userAgent" = false.
Proof.
  intros crypto cast_condition e g.
  unfold Routes.get_posts. cbv zeta.
  change (Routes.effective_page Samples.parseInt []) with (Int 1).
  change (Routes.effective_limit Samples.parseInt []) with (Int 20).
  cbn [obj_get truthy andb bind].
  match goal with
  | |- context [Routes.skip_limit ?sk ?li ?l] =>
      change (Routes.skip_limit sk li l) with (Normal [Samples.post1])
  end.
  cbn [bind].
  match goal with
  | |- context [Routes.decrypt_posts e ?ex ?docs g] =>
      pose proof (decrypt_posts_listed e ex docs g) as Hd;
      destruct (Routes.decrypt_posts e ex docs g) as [dec g']
  end.
  cbn [fst] in Hd. subst dec.
  eexists. split; [reflexivity|].
  repeat split; vm_compute; reflexivity.
Qed.

End Serialization.

(** ** Expired, deleted and flagged records *)

Section Visibility.

(** The list, single-post and category routes require [isFlagged: false];
    the conditions of the statistics do not mention [isFlagged]. *)
Lemma stats_filter_ignores_flag now p :
  Routes.stats_filter now (Post.isDeleted p) (Post.expiresAt p)
  = Routes.stats_filter now (Post.isDeleted (Post.set_isFlagged true p))
                        (Post.expiresAt (Post.set_isFlagged true p)).
Proof. reflexivity. Qed.

(** C4.  [Samples.flagged_post] is flagged, not deleted and not expired.
    With it as the only stored post, the statistics count it (one post in
    total, one post today, one active category), while the list route and
    the category route show no post and the single-post route answers 404. *)
Theorem stats_count_flagged_post :
  Post.isFlagged Samples.flagged_post = true
  /\ Routes.get_stats [Samples.flagged_post] [] (Samples.t0 + 1000)
     = Routes.json 200 [("totalPosts", VNum (Int 1));
                        ("totalComments", VNum (Int 0));
                        ("postsToday", VNum (Int 1));
                        ("activeCategories", VNum (Int 1));
                        ("lastUpdated", VDate (Samples.t0 + 1000))]
  /\ (forall `{NodeCrypto} parseInt cast_condition e g query,
       Routes.response_posts
         (fst (Routes.get_posts parseInt cast_condition e [Samples.flagged_post]
                 (Samples.t0 + 1000) g query)) = [])
  /\ (forall `{NodeCrypto} parseInt e g category query,
       Routes.response_posts
         (fst (Routes.get_category parseInt e [Samples.flagged_post]
                 (Samples.t0 + 1000) (Samples.t0 + 1000) g category query)) = [])
  /\ (forall `{NodeCrypto} e g,
       Routes.status
         (fst (Routes.get_post e [Samples.flagged_post] [] (Samples.t0 + 1000)
                 (Samples.t0 + 1000) g Samples.oid1_hex)) = 404).
Proof.
  split; [reflexivity|]. split; [vm_compute; reflexivity|].
  split; [|split; [|intros; vm_compute; reflexivity]].
  - intros crypto parseInt cast_condition e g query.
    destruct (get_posts_listing parseInt cast_condition e [Samples.flagged_post]
                (Samples.t0 + 1000) g query) as (docs & extra & Hr & Hlive & _).
    rewrite Hr. destruct docs as [|p docs]; [reflexivity|].
    destruct (Hlive p (or_introl eq_refl)) as [[<-|[]] Hl].
    vm_compute in Hl. discriminate Hl.
  - intros crypto parseInt e g category query.
    destruct (get_category_listing parseInt e [Samples.flagged_post]
                (Samples.t0 + 1000) (Samples.t0 + 1000) g category query)
      as (docs & Hr & Hlive & _).
    rewrite Hr. destruct docs as [|p docs]; [reflexivity|].
    destruct (Hlive p (or_introl eq_refl)) as [[<-|[]] Hl].
    vm_compute in Hl. discriminate Hl.
Qed.

End Visibility.

(** ** Spam patterns *)

Section Spam.

(** The URL pattern repeats its group with nothing in between, and the
    group stops at white space: URLs run together match. *)
Example joined_urls_are_spam :
  Security.postContentCustom Samples.joined_urls
  = Throw (Error "Content appears to be spam")
  /\ Security.commentContentCustom Samples.joined_urls
     = Throw (Error "Comment appears to be spam").
Proof. split; vm_compute; reflexivity. Qed.

(** The rules at work: a title of two characters is refused with the
    message of its length rule, and only that. *)
Example short_title_is_rejected :
  Security.postValidationRules
    {| Security.title := js "Hi"; Security.content := js "A first post.";
       Security.category := js "general"; Security.tags := None |}
  = [("title", "Title must be between 3 and 200 characters")].
Proof. vm_compute. reflexivity. Qed.

(** C8.  A content of 51 characters that holds the same URL four times,
    separated by single spaces, matches none of the spam patterns: the
    custom validator of a post and that of a comment both return [true],
    and the validation rules of a post and of a comment report no error
    for it. *)
Theorem spaced_urls_pass_spam_check :
  List.length Samples.four_urls = 51%nat
  /\ List.map (fun pattern => RegExp.test pattern Samples.four_urls)
              Security.postSpamPatterns
     = [false; false; false; false]
  /\ Security.postContentCustom Samples.four_urls = Normal true
  /\ Security.commentContentCustom Samples.four_urls = Normal true
  /\ Security.postValidationRules
       {| Security.title := js "Useful links"; Security.content := Samples.four_urls;
          Security.category := js "general"; Security.tags := None |} = []
  /\ Security.commentValidationRules Samples.four_urls = [].
Proof. repeat split; vm_compute; reflexivity. Qed.

End Spam.

(** ** Expiry of comments *)

Section CommentExpiry.

(** A comment that brings its own [expiresAt] keeps it through the
    middleware. *)
Lemma comment_pre_save_keeps_expiresAt posts g c t :
  Comment.expiresAt c = Some t ->
  Comment.expiresAt (fst (Comment.pre_save posts g c)) = Some t.
Proof.
  intros Ht. unfold Comment.pre_save.
  destruct (Comment.generateAnonId g) as [id g'].
  destruct (Comment.anonId c) as [[|u s]|]; cbn; rewrite Ht; cbn; auto.
Qed.

(** The middleware, when it runs on a comment without an [expiresAt] whose
    post is stored, copies the [expiresAt] of the post. *)
Lemma comment_pre_save_inherits_expiresAt posts g c pid post :
  Comment.expiresAt c = None ->
  Comment.postId c = Some pid ->
  Post.findById posts pid = Some post ->
  Comment.expiresAt (fst (Comment.pre_save posts g c)) = Post.expiresAt post.
Proof.
  intros He Hp Hf. unfold Comment.pre_save.
  destruct (Comment.generateAnonId g) as [id g'].
  destruct (Comment.anonId c) as [[|u s]|]; cbn; rewrite He, Hp, Hf; reflexivity.
Qed.

Lemma comment_validate_needs_expiresAt c :
  Comment.expiresAt c = None -> Comment.validate c = false.
Proof.
  intros He. unfold Comment.validate. rewrite He. apply andb_false_r.
Qed.

(** C6.  [save()] does not give a comment the [expiresAt] of its post.  The
    middleware that copies it runs after the validators, and [expiresAt] is
    required: a comment without one is rejected, the middleware does not
    run, and the comment stays without one although its post is stored;
    run on its own, the middleware would have copied the date.  Whatever
    the comment holds, [save()] leaves its [expiresAt] as it was: the
    comment [Samples.dated_comment], which passes the validators and was
    built on the stored post [Samples.post1] with a date a week after the
    expiry of that post, is saved with its own date. *)
Theorem comment_save_does_not_inherit_expiresAt :
  (forall posts g c,
      Comment.expiresAt c = None ->
      Comment.validate c = false /\ Comment.save posts g c = (c, g))
  /\ (forall posts g c,
      Comment.expiresAt (fst (Comment.save posts g c)) = Comment.expiresAt c)
  /\ (forall posts g c pid post,
      Comment.expiresAt c = None -> Comment.postId c = Some pid ->
      Post.findById posts pid = Some post ->
      Comment.expiresAt (fst (Comment.pre_save posts g c)) = Post.expiresAt post)
  /\ Comment.validate Samples.dated_comment = true
  /\ Comment.postId Samples.dated_comment = Some Samples.oid1
  /\ Post.findById [Samples.post1] Samples.oid1 = Some Samples.post1
  /\ Post.expiresAt Samples.post1 = Some (Samples.t0 + Samples.week)
  /\ Comment.expiresAt
       (fst (Comment.save [Samples.post1] Samples.draws Samples.dated_comment))
     = Some (Samples.t0 + 2 * Samples.week).
Proof.
  split; [|split; [|split]].
  - intros posts g c He. split; [now apply comment_validate_needs_expiresAt|].
    apply comment_save_in_memory.
  - intros posts g c. now rewrite comment_save_in_memory.
  - apply comment_pre_save_inherits_expiresAt.
  - repeat split; reflexivity.
Qed.

Lemma comment_save_does_not_inherit_expiresAt_witness :
  Comment.expiresAt Samples.new_comment = None
  /\ Comment.postId Samples.new_comment = Some Samples.oid1
  /\ Post.findById [Samples.post1] Samples.oid1 = Some Samples.post1
  /\ Comment.validate Samples.new_comment = false
  /\ Comment.save [Samples.post1] Samples.draws Samples.new_comment
     = (Samples.new_comment, Samples.draws)
  /\ Comment.expiresAt
       (fst (Comment.pre_save [Samples.post1] Samples.draws Samples.new_comment))
     = Post.expiresAt Samples.post1.
Proof.
  destruct comment_save_does_not_inherit_expiresAt as (Hrejected & _ & Hmiddleware & _).
  split; [reflexivity|]. split; [reflexivity|]. split; [reflexivity|].
  destruct (Hrejected [Samples.post1] Samples.draws Samples.new_comment eq_refl)
    as [Hv Hs].
  split; [exact Hv|]. split; [exact Hs|].
  apply (Hmiddleware [Samples.post1] Samples.draws Samples.new_comment Samples.oid1
           Samples.post1); reflexivity.
Defined.

End CommentExpiry.

(** ** Buffer transcoding *)

Section Transcoding.
Import Buffer.

Lemma Z_of_byte_range b : 0 <= Z_of_byte b < 256.
Proof.
  unfold Z_of_byte. pose proof (Byte.to_N_bounded b). lia.
Qed.

Lemma byte_of_Z_of_byte b : byte_of_Z (Z_of_byte b) = b.
Proof.
  unfold byte_of_Z, Z_of_byte. rewrite N2Z.id, Byte.of_to_N. reflexivity.
Qed.



Lemma hex_value_digit n : 0 <= n < 16 -> hex_value (hex_digit n) = Some n.
Proof.
  intros Hn. unfold hex_digit, hex_value.
  destruct (Z.ltb_spec n 10).
  - destruct (Z.leb_spec 48 (48 + n)); [|lia].
    destruct (Z.leb_spec (48 + n) 57); [|lia]. cbn [andb]. f_equal. lia.
  - destruct (Z.leb_spec 48 (87 + n)); [|lia].
    destruct (Z.leb_spec (87 + n) 57); [lia|].
    destruct (Z.leb_spec 97 (87 + n)); [|lia].
    destruct (Z.leb_spec (87 + n) 102); [|lia]. cbn [andb]. f_equal. lia.
Qed.

Lemma hex_value_low_byte n : 0 <= n < 16 -> hex_value (hex_digit n mod 256) = Some n.
Proof.
  intros Hn. rewrite Z.mod_small; [now apply hex_value_digit|].
  unfold hex_digit. destruct (n <? 10); lia.
Qed.

(** Code units that differ by a multiple of 256 are the same digit to the
    decoder. *)
Lemma from_hex_low_byte h l h' l' s :
  h' mod 256 = h mod 256 -> l' mod 256 = l mod 256 ->
  from_hex (h' :: l' :: s) = from_hex (h :: l :: s).
Proof. intros Hh Hl. cbn [from_hex]. now rewrite Hh, Hl. Qed.

(** Decoding the hexadecimal form of a buffer gives the buffer back. *)
Lemma from_hex_toString_hex buf : from_hex (toString_hex buf) = buf.
Proof.
  induction buf as [|b buf IH]; [reflexivity|].
  cbn [toString_hex from_hex].
  pose proof (Z_of_byte_range b) as Hb.
  rewrite !hex_value_low_byte
    by (split; [apply Z.div_pos || apply Z.mod_pos_bound
               | apply Z.div_lt_upper_bound || apply Z.mod_pos_bound]; lia).
  rewrite IH. f_equal.
  rewrite <- (Z.div_mod (Z_of_byte b) 16) by lia. apply byte_of_Z_of_byte.
Qed.


Lemma toString_hex_even buf : Nat.odd (List.length (toString_hex buf)) = false.
Proof.
  induction buf as [|b buf IH]; [reflexivity|].
  cbn [toString_hex List.length]. now rewrite Nat.odd_succ_succ.
Qed.


















(** An unpaired surrogate does not: it is written as U+FFFD. *)
Example lone_surrogate_is_replaced :
  toString_utf8 (from_utf8 [0xD800]) = [0xFFFD].
Proof. vm_compute. reflexivity. Qed.


End Transcoding.

(** ** Content encryption *)

Section Cipher.
Context `{crypto : NodeCrypto}.

Lemma encryption_key_configured e u k g :
  ENCRYPTION_KEY e = Some (u :: k) ->
  Post.encryption_key e g = (Buffer.from_hex (u :: k), g).
Proof. intros He. unfold Post.encryption_key. now rewrite He. Qed.

Lemma key_configured_nonempty e :
  key_configured e -> exists u k, ENCRYPTION_KEY e = Some (u :: k).
Proof.
  intros (k & He & Hl & _). destruct k as [|u k]; [discriminate|]. eauto.
Qed.

(** What [encryptContent] returns under a configured key: the ciphertext
    and the tag depend on the key and the content; the entropy goes into
    the [iv] field and nowhere else. *)
Lemma encryptContent_configured e u k content g :
  ENCRYPTION_KEY e = Some (u :: k) ->
  let key := EVP_BytesToKey (Buffer.from_hex (u :: k)) in
  let sealed := gcm_encrypt (fst key) (snd key) Post.aad (Buffer.from_utf8 content) in
  fst (Post.encryptContent e content g)
  = VObj [("content", VStr (Buffer.toString_hex (fst sealed)));
          ("iv", VStr (Buffer.toString_hex (List.map g (seq 0 16))));
          ("authTag", VStr (Buffer.toString_hex (snd sealed)))]
  /\ Comment.encryptContent e content g = Post.encryptContent e content g.
Proof.
  intros He. cbv zeta. unfold Post.encryptContent, Comment.encryptContent.
  rewrite (encryption_key_configured e u k g He). unfold randomBytes.
  destruct (EVP_BytesToKey (Buffer.from_hex (u :: k))) as [kk iv]. cbn [fst snd].
  destruct (gcm_encrypt kk iv Post.aad (Buffer.from_utf8 content)) as [ct tag].
  split; reflexivity.
Qed.

(** What [decryptContent] does with an object whose [authTag] and [content]
    are strings. *)
Lemma decryptContent_strings e o tag data g :
  obj_get o "authTag" = VStr tag -> obj_get o "content" = VStr data ->
  Nat.odd (List.length data) = false ->
  fst (Post.decryptContent e (VObj o) g)
  = match gcm_decrypt (fst (Post.cipher_key e g)) (snd (Post.cipher_key e g)) Post.aad
            (Buffer.from_hex data) (Buffer.from_hex tag) with
    | Some plaintext => Normal (Buffer.toString_utf8 plaintext)
    | None => Normal Post.placeholder
    end
  /\ Comment.decryptContent e (VObj o) g = Post.decryptContent e (VObj o) g.
Proof.
  intros Ht Hd Heven.
  unfold Post.decryptContent, Comment.decryptContent, Post.cipher_key.
  destruct (Post.encryption_key e g) as [key g1]. cbn [fst snd].
  destruct (EVP_BytesToKey key) as [kk iv]. cbn [fst snd Post.prop bind].
  rewrite Ht, Hd. cbn [Post.Buffer_from_hex bind Post.decipher]. rewrite Heven.
  destruct (gcm_decrypt kk iv Post.aad (Buffer.from_hex data) (Buffer.from_hex tag));
    split; reflexivity.
Qed.





(** C3.  Under a configured key the [content] and the [authTag] that
    [encryptContent] returns do not depend on the entropy: two calls on one
    plaintext return the same ciphertext.  The bytes drawn for the IV go to
    the [iv] field of the result only. *)
Theorem encryptContent_ciphertext_ignores_entropy e p g1 g2 :
  key_configured e ->
  field (fst (Post.encryptContent e p g1)) "content"
  = field (fst (Post.encryptContent e p g2)) "content"
  /\ field (fst (Post.encryptContent e p g1)) "authTag"
     = field (fst (Post.encryptContent e p g2)) "authTag"
  /\ field (fst (Post.encryptContent e p g1)) "iv"
     = VStr (Buffer.toString_hex (List.map g1 (seq 0 16)))
  /\ Comment.encryptContent e p g1 = Post.encryptContent e p g1.
Proof.
  intros Hk. destruct (key_configured_nonempty e Hk) as (u & k & He).
  destruct (encryptContent_configured e u k p g1 He) as [H1 Hc].
  destruct (encryptContent_configured e u k p g2 He) as [H2 _].
  cbv zeta in H1, H2. rewrite H1, H2. repeat split; auto.
Qed.







(** So does an [authTag] whose first code unit is raised by 256: the
    decoder reads the low byte. *)
Lemma raised_code_unit_of_authTag_is_ignored {laws : NodeCryptoLaws} e p g g' o u tag :
  key_configured e ->
  fst (Post.encryptContent e p g) = VObj o ->
  obj_get o "authTag" = VStr (u :: tag) ->
  fst (Post.decryptContent e (VObj (obj_set o "authTag" (VStr (u + 256 :: tag)))) g')
  = Normal (Buffer.toString_utf8 (Buffer.from_utf8 p)).
Proof.
  intros Hk Ho Ht.
  destruct (key_configured_nonempty e Hk) as (u0 & k & He).
  destruct (encryptContent_configured e u0 k p g He) as [Hs _].
  cbv zeta in Hs.
  set (key := EVP_BytesToKey (Buffer.from_hex (u0 :: k))) in *.
  set (sealed := gcm_encrypt (fst key) (snd key) Post.aad (Buffer.from_utf8 p)) in *.
  rewrite Hs in Ho. injection Ho as <-.
  cbn [obj_get String.eqb Ascii.eqb Bool.eqb] in Ht.
  assert (Ht' : u :: tag = Buffer.toString_hex (snd sealed)) by congruence.
  clear Ht.
  assert (Heven : Nat.odd (List.length (u + 256 :: tag)) = false).
  { change (List.length (u + 256 :: tag)) with (List.length (u :: tag)).
    rewrite Ht'. apply toString_hex_even. }
  assert (Hsame : Buffer.from_hex (u + 256 :: tag) = snd sealed).
  { rewrite <- (from_hex_toString_hex (snd sealed)), <- Ht'.
    destruct tag as [|l tag]; [reflexivity|].
    apply from_hex_low_byte; [|reflexivity].
    rewrite <- (Z.mul_1_l 256) at 1. apply Z.mod_add. lia. }
  match goal with
  | |- context [Post.decryptContent e (VObj ?o') g'] =>
      destruct (decryptContent_strings e o' (u + 256 :: tag) _ g' eq_refl eq_refl
                  (toString_hex_even _)) as [Hd _]
  end.
  rewrite Hd. unfold Post.cipher_key.
  rewrite (encryption_key_configured e u0 k g' He). cbn [fst].
  rewrite Hsame, from_hex_toString_hex. fold key. unfold sealed.
  now rewrite gcm_decrypt_encrypt.
Qed.

End Cipher.

Section CipherWitnesses.

Lemma toy_laws : @NodeCryptoLaws Samples.toy_crypto.
Proof.
  constructor. intros key iv aad plaintext.
  unfold gcm_decrypt, gcm_encrypt, Samples.toy_crypto. cbn [fst snd].
  match goal with
  | |- context [list_eq_dec byte_eq_dec ?a ?b] =>
      destruct (list_eq_dec byte_eq_dec a b) as [_|Hne]; [|now elim Hne]
  end.
  now rewrite rev_involutive.
Qed.


Lemma configured_key : key_configured Samples.configured.
Proof.
  eexists. split; [reflexivity|]. split; [reflexivity|].
  repeat constructor; discriminate.
Qed.


(** [Samples.unpaired] is a content the validation rules accept. *)
Example unpaired_content_passes_validation :
  Security.postValidationRules
    {| Security.title := js "A title"; Security.content := Samples.unpaired;
       Security.category := js "general"; Security.tags := None |} = []
  /\ Security.commentValidationRules Samples.unpaired = [].
Proof. split; vm_compute; reflexivity. Qed.


Lemma encryptContent_ciphertext_ignores_entropy_witness :
  key_configured Samples.configured
  /\ field (fst (@Post.encryptContent Samples.toy_crypto Samples.configured
                   (js "hello world") Samples.zeros)) "content"
     = field (fst (@Post.encryptContent Samples.toy_crypto Samples.configured
                     (js "hello world") Samples.ones)) "content".
Proof.
  split; [exact configured_key|].
  apply (@encryptContent_ciphertext_ignores_entropy Samples.toy_crypto
           Samples.configured (js "hello world") Samples.zeros Samples.ones
           configured_key).
Defined.

(** The two calls of the witness differ in their [iv] fields. *)
Example iv_fields_differ :
  field (fst (@Post.encryptContent Samples.toy_crypto Samples.configured
                (js "hello world") Samples.zeros)) "iv"
  <> field (fst (@Post.encryptContent Samples.toy_crypto Samples.configured
                   (js "hello world") Samples.ones)) "iv".
Proof. vm_compute. discriminate. Qed.


(** The same sealed content with the first code unit of its [authTag]
    raised by 256 decrypts to its plaintext as well. *)
Example raised_authTag_sample_is_accepted :
  exists u tag,
    field (fst (@Post.encryptContent Samples.toy_crypto Samples.configured
                  (js "hello world") Samples.zeros)) "authTag" = VStr (u :: tag)
    /\ fst (@Post.decryptContent Samples.toy_crypto Samples.configured
              (set_field (fst (@Post.encryptContent Samples.toy_crypto Samples.configured
                                 (js "hello world") Samples.zeros))
                         "authTag" (VStr (u + 256 :: tag)))
              Samples.ones)
       = Normal (js "hello world").
Proof.
  destruct (@Post.encryptContent Samples.toy_crypto Samples.configured
              (js "hello world") Samples.zeros) as [sealed g] eqn:Hs.
  assert (Ho : exists o u tag, sealed = VObj o /\ obj_get o "authTag" = VStr (u :: tag)).
  { vm_compute in Hs. injection Hs as <- _. eexists _, _, _. split; reflexivity. }
  destruct Ho as (o & u & tag & -> & Ht).
  exists u, tag. cbn [fst field set_field]. split; [exact Ht|].
  rewrite (@raised_code_unit_of_authTag_is_ignored Samples.toy_crypto toy_laws
             Samples.configured (js "hello world") Samples.zeros Samples.ones o u tag
             configured_key); [|now rewrite Hs | exact Ht].
  vm_compute. reflexivity.
Qed.


End CipherWitnesses.

(** ** The life of a post *)

Section PostHistories.
Import Lifecycle.

Lemma post_pre_save_expiresAt now g p :
  Post.expiresAt (fst (Post.pre_save now g p))
  = Some (match Post.expiresAt p with
          | Some t => t
          | None => now + 604800000
          end).
Proof.
  unfold Post.pre_save.
  destruct (Post.generateAnonId g) as [id g'].
  destruct (Post.expiresAt p) eqn:E; cbn;
    destruct (Post.anonId p) as [[|u s]|]; cbn; rewrite ?E; reflexivity.
Qed.

(** What a step of a history leaves alone. *)
Lemma post_step_identity st ev :
  let p := fst st in
  let q := fst (post_step st ev) in
  Post._id q = Post._id p /\ Post.title q = Post.title p
  /\ Post.content q = Post.content p /\ Post.category q = Post.category p
  /\ Post.tags q = Post.tags p /\ Post.ipHash q = Post.ipHash p
  /\ Post.userAgent q = Post.userAgent p /\ Post.createdAt q = Post.createdAt p
  /\ (forall t, Post.expiresAt p = Some t -> Post.expiresAt q = Some t)
  /\ (forall u s, Post.anonId p = Some (u :: s) -> Post.anonId q = Some (u :: s)).
Proof.
  destruct st as [p g], ev as [now op]. cbn [fst post_step].
  destruct op;
    unfold Post.incrementLikes, Post.incrementComments, Post.decrementComments,
      Post.softDelete, Post.flag;
    rewrite post_save_in_memory; cbn [fst];
    try destruct (0 <? Post.commentCount p);
    try destruct (5 <=? _);
    cbn; repeat split; auto.
Qed.

(** X1.  No history of the methods of a post changes its [_id], its title,
    content, category or tags, its [ipHash], [userAgent] or [createdAt]; an
    [expiresAt] that is set stays as it is, and so does an [anonId] that is
    not empty.  Likes, comments, flags and a soft delete neither extend the
    life of a post nor touch what it says. *)
Theorem post_history_keeps_identity trace : forall st,
  let p := fst st in
  let q := fst (post_run trace st) in
  Post._id q = Post._id p /\ Post.title q = Post.title p
  /\ Post.content q = Post.content p /\ Post.category q = Post.category p
  /\ Post.tags q = Post.tags p /\ Post.ipHash q = Post.ipHash p
  /\ Post.userAgent q = Post.userAgent p /\ Post.createdAt q = Post.createdAt p
  /\ (forall t, Post.expiresAt p = Some t -> Post.expiresAt q = Some t)
  /\ (forall u s, Post.anonId p = Some (u :: s) -> Post.anonId q = Some (u :: s)).
Proof.
  induction trace as [|ev trace IH]; intros st; cbv zeta.
  - cbn. repeat split; auto.
  - cbn [post_run fold_left]. fold (post_run trace (post_step st ev)).
    specialize (IH (post_step st ev)). cbv zeta in IH.
    destruct IH as (I1 & I2 & I3 & I4 & I5 & I6 & I7 & I8 & I9 & I10).
    destruct (post_step_identity st ev) as (S1 & S2 & S3 & S4 & S5 & S6 & S7 & S8 & S9 & S10).
    rewrite I1, I2, I3, I4, I5, I6, I7, I8.
    repeat split; auto.
Qed.

Lemma post_history_keeps_identity_witness :
  Post.expiresAt Samples.post1 = Some (Samples.t0 + Samples.week)
  /\ Post.anonId Samples.post1 = Some (js "Ghost4821")
  /\ Post.expiresAt
       (fst (post_run [(Samples.t0 + 5, PostIncrementLikes); (Samples.t0 + 9, PostFlag);
                       (Samples.t0 + 11, PostSoftDelete)]
                      (Samples.post1, Samples.draws)))
     = Some (Samples.t0 + Samples.week)
  /\ Post.anonId
       (fst (post_run [(Samples.t0 + 5, PostIncrementLikes); (Samples.t0 + 9, PostFlag);
                       (Samples.t0 + 11, PostSoftDelete)]
                      (Samples.post1, Samples.draws)))
     = Some (js "Ghost4821").
Proof.
  split; [reflexivity|]. split; [reflexivity|].
  pose proof (post_history_keeps_identity
                [(Samples.t0 + 5, PostIncrementLikes); (Samples.t0 + 9, PostFlag);
                 (Samples.t0 + 11, PostSoftDelete)]
                (Samples.post1, Samples.draws)) as Hk.
  cbv zeta in Hk. destruct Hk as (_ & _ & _ & _ & _ & _ & _ & _ & He & Ha).
  split.
  - apply He. reflexivity.
  - apply (Ha 71 (js "host4821")). reflexivity.
Defined.

End PostHistories.

Section PostCounters.
Import Lifecycle.

Lemma post_step_counters st ev :
  Post.likes (fst (post_step st ev))
  = (if match snd ev with PostIncrementLikes => true | _ => false end
     then int_add (Post.likes (fst st)) 1
     else Post.likes (fst st))
  /\ (0 <= Post.commentCount (fst st) -> 0 <= Post.commentCount (fst (post_step st ev)))
  /\ (Post.isDeleted (fst st) = true -> Post.isDeleted (fst (post_step st ev)) = true).
Proof.
  destruct st as [p g], ev as [now op]. cbn [fst snd post_step].
  destruct op;
    unfold Post.incrementLikes, Post.incrementComments, Post.decrementComments,
      Post.softDelete, Post.flag;
    rewrite post_save_in_memory; cbn [fst];
    try destruct (Z.ltb_spec 0 (Post.commentCount p));
    try destruct (5 <=? _);
    cbn; repeat split; auto; intros Hc;
    apply to_double_nonneg; lia.
Qed.

Lemma post_likes_cons ev trace :
  post_likes (ev :: trace)
  = (if match snd ev with PostIncrementLikes => true | _ => false end then 1 else 0)
    + post_likes trace.
Proof.
  unfold post_likes. cbn [List.filter].
  destruct (match snd ev with PostIncrementLikes => true | _ => false end);
    cbn [List.length]; lia.
Qed.

Lemma post_likes_nonneg trace : 0 <= post_likes trace.
Proof. unfold post_likes. lia. Qed.

Lemma max_safe_succ : MAX_SAFE_INTEGER + 1 = 2 ^ 53.
Proof. reflexivity. Qed.

(** X2.  After any history of the methods of a post, [likes] is what it was
    plus the number of [incrementLikes] calls, as long as that sum is a
    number that [likes] can hold exactly (it is at most 2^53, and [likes]
    began no lower than the least safe integer); a [likes] of 2^53 stays
    where it is.  A [commentCount] that was not negative is not negative:
    [decrementComments] stops at zero. *)
Theorem post_history_counters trace : forall st,
  (- MAX_SAFE_INTEGER <= Post.likes (fst st) ->
   Post.likes (fst st) + post_likes trace <= MAX_SAFE_INTEGER + 1 ->
   Post.likes (fst (post_run trace st)) = Post.likes (fst st) + post_likes trace)
  /\ (Post.likes (fst st) = MAX_SAFE_INTEGER + 1 ->
      Post.likes (fst (post_run trace st)) = MAX_SAFE_INTEGER + 1)
  /\ (0 <= Post.commentCount (fst st) ->
      0 <= Post.commentCount (fst (post_run trace st))).
Proof.
  induction trace as [|ev trace IH]; intros st.
  - unfold post_likes. cbn. repeat split; auto; lia.
  - cbn [post_run fold_left]. fold (post_run trace (post_step st ev)).
    destruct (IH (post_step st ev)) as (IHl & IHs & IHc).
    destruct (post_step_counters st ev) as (Hl & Hc & _).
    pose proof (post_likes_nonneg trace) as Hn.
    rewrite (post_likes_cons ev trace).
    destruct (match snd ev with PostIncrementLikes => true | _ => false end).
    + split; [|split; [|auto]].
      * intros Hlow Hhigh.
        rewrite int_add_one in Hl by lia.
        rewrite IHl; rewrite Hl; lia.
      * intros Hlim. apply IHs.
        rewrite Hl, Hlim, max_safe_succ. apply int_add_at_limit.
    + split; [|split; [|auto]].
      * intros Hlow Hhigh. rewrite IHl; rewrite Hl; lia.
      * intros Hlim. apply IHs. now rewrite Hl.
Qed.

Lemma post_history_counters_witness :
  - MAX_SAFE_INTEGER <= Post.likes Samples.post1
  /\ Post.likes Samples.post1
     + post_likes [(Samples.t0, PostIncrementLikes); (Samples.t0, PostDecrementComments);
                   (Samples.t0, PostIncrementLikes)]
     <= MAX_SAFE_INTEGER + 1
  /\ 0 <= Post.commentCount Samples.post1
  /\ Post.likes
       (fst (post_run [(Samples.t0, PostIncrementLikes); (Samples.t0, PostDecrementComments);
                       (Samples.t0, PostIncrementLikes)]
                      (Samples.post1, Samples.draws))) = 2
  /\ 0 <= Post.commentCount
            (fst (post_run [(Samples.t0, PostIncrementLikes);
                            (Samples.t0, PostDecrementComments);
                            (Samples.t0, PostIncrementLikes)]
                           (Samples.post1, Samples.draws)))
  /\ Post.likes
       (fst (post_run [(Samples.t0, PostIncrementLikes)]
                      (Post.set_likes (MAX_SAFE_INTEGER + 1) Samples.post1, Samples.draws)))
     = MAX_SAFE_INTEGER + 1.
Proof.
  split; [vm_compute; discriminate|]. split; [vm_compute; discriminate|].
  split; [vm_compute; discriminate|].
  destruct (post_history_counters
              [(Samples.t0, PostIncrementLikes); (Samples.t0, PostDecrementComments);
               (Samples.t0, PostIncrementLikes)]
              (Samples.post1, Samples.draws)) as (Hl & _ & Hc).
  split; [|split].
  - rewrite Hl; [reflexivity | vm_compute; discriminate | vm_compute; discriminate].
  - apply Hc. vm_compute. discriminate.
  - apply (post_history_counters [(Samples.t0, PostIncrementLikes)]
             (Post.set_likes (MAX_SAFE_INTEGER + 1) Samples.post1, Samples.draws)).
    reflexivity.
Defined.

Lemma post_incrementComments_count now g p :
  Post.commentCount (fst (Post.incrementComments now g p))
  = int_add (Post.commentCount p) 1.
Proof.
  unfold Post.incrementComments. rewrite post_save_in_memory. reflexivity.
Qed.

Lemma post_decrementComments_count now g p :
  Post.commentCount (fst (Post.decrementComments now g p))
  = if 0 <? Post.commentCount p
    then int_sub (Post.commentCount p) 1
    else Post.commentCount p.
Proof.
  unfold Post.decrementComments. rewrite post_save_in_memory.
  destruct (0 <? Post.commentCount p); reflexivity.
Qed.

(** X3.  [decrementComments] undoes [incrementComments] on a count that is
    not negative and is a safe integer.  The converse fails at zero, where
    [decrementComments] changes nothing: a decrement followed by an
    increment leaves a count of zero at one.  And at 2^53 the increment
    changes nothing, so that the decrement after it leaves one less than
    there was. *)
Theorem decrementComments_undoes_incrementComments now1 now2 g1 g2 p :
  (0 <= Post.commentCount p <= MAX_SAFE_INTEGER ->
   Post.commentCount
     (fst (Post.decrementComments now2 g2 (fst (Post.incrementComments now1 g1 p))))
   = Post.commentCount p)
  /\ (Post.commentCount p = 0 ->
      Post.commentCount
        (fst (Post.incrementComments now2 g2 (fst (Post.decrementComments now1 g1 p))))
      = 1)
  /\ (Post.commentCount p = MAX_SAFE_INTEGER + 1 ->
      Post.commentCount
        (fst (Post.decrementComments now2 g2 (fst (Post.incrementComments now1 g1 p))))
      = MAX_SAFE_INTEGER).
Proof.
  split; [|split].
  - intros H0.
    rewrite post_decrementComments_count, post_incrementComments_count.
    rewrite int_add_one by lia.
    destruct (Z.ltb_spec 0 (Post.commentCount p + 1)); [|lia].
    rewrite int_sub_one by lia. lia.
  - intros Hz.
    rewrite post_incrementComments_count, post_decrementComments_count, Hz.
    reflexivity.
  - intros Hlim.
    rewrite post_decrementComments_count, post_incrementComments_count, Hlim.
    vm_compute. reflexivity.
Qed.

Lemma decrementComments_undoes_incrementComments_witness :
  0 <= Post.commentCount Samples.post1 <= MAX_SAFE_INTEGER
  /\ Post.commentCount
       (fst (Post.decrementComments Samples.t0 Samples.draws
               (fst (Post.incrementComments Samples.t0 Samples.draws Samples.post1))))
     = Post.commentCount Samples.post1
  /\ Post.commentCount
       (fst (Post.incrementComments Samples.t0 Samples.draws
               (fst (Post.decrementComments Samples.t0 Samples.draws Samples.post1))))
     = 1.
Proof.
  assert (Hsafe : 0 <= Post.commentCount Samples.post1 <= MAX_SAFE_INTEGER)
    by (split; vm_compute; discriminate).
  split; [exact Hsafe|].
  destruct (decrementComments_undoes_incrementComments
              Samples.t0 Samples.t0 Samples.draws Samples.draws Samples.post1)
    as (Hu & Hz & _).
  split; [exact (Hu Hsafe) | apply Hz; reflexivity].
Defined.

(** X4.  [softDelete] marks the post as deleted at the time of the call, no
    later call of a method takes the mark back, and a post that carries it
    is not live for the read routes at any time. *)
Theorem softDelete_is_permanent :
  (forall now g p,
      Post.isDeleted (fst (Post.softDelete now g p)) = true
      /\ Post.deletedAt (fst (Post.softDelete now g p)) = Some now)
  /\ (forall trace st,
      Post.isDeleted (fst st) = true ->
      Post.isDeleted (fst (post_run trace st)) = true
      /\ forall now, Routes.live now (fst (post_run trace st)) = false).
Proof.
  split.
  - intros now g p. unfold Post.softDelete. rewrite post_save_in_memory.
    split; reflexivity.
  - assert (Hrun : forall trace st,
               Post.isDeleted (fst st) = true ->
               Post.isDeleted (fst (post_run trace st)) = true).
    { induction trace as [|ev trace IH]; intros st Hd; [exact Hd|].
      cbn [post_run fold_left]. apply IH.
      now apply (post_step_counters st ev). }
    intros trace st Hd. split; [now apply Hrun|].
    intros now. unfold Routes.live. rewrite (Hrun trace st Hd). reflexivity.
Qed.

Lemma softDelete_is_permanent_witness :
  Post.isDeleted (fst (Post.softDelete (Samples.t0 + 5) Samples.draws Samples.post1)) = true
  /\ Post.isDeleted
       (fst (post_run [(Samples.t0 + 9, PostSave); (Samples.t0 + 9, PostIncrementLikes)]
               (Post.softDelete (Samples.t0 + 5) Samples.draws Samples.post1))) = true
  /\ Routes.live (Samples.t0 + 10)
       (fst (post_run [(Samples.t0 + 9, PostSave); (Samples.t0 + 9, PostIncrementLikes)]
               (Post.softDelete (Samples.t0 + 5) Samples.draws Samples.post1))) = false.
Proof.
  destruct softDelete_is_permanent as [Hs Hr].
  split; [apply Hs|].
  destruct (Hr [(Samples.t0 + 9, PostSave); (Samples.t0 + 9, PostIncrementLikes)]
               (Post.softDelete (Samples.t0 + 5) Samples.draws Samples.post1)) as [Hd Hl].
  - apply Hs.
  - split; [exact Hd | apply Hl].
Defined.

End PostCounters.

(** ** The middleware before a save, and the views of a post *)

Section PostSave.

Lemma num_to_string_app_nonempty (prefix : jsstring) z :
  prefix <> [] -> prefix ++ num_to_string z <> [].
Proof. destruct prefix; [congruence | discriminate]. Qed.

Lemma post_prefix_at_nonempty i : Post.prefix_at i <> [].
Proof.
  unfold Post.prefix_at. destruct (i <? 0); [discriminate|].
  generalize (Z.to_nat i). intros n.
  do 8 (destruct n as [|n]; [discriminate|]). destruct n; discriminate.
Qed.

Lemma post_generateAnonId_nonempty g : fst (Post.generateAnonId g) <> [].
Proof.
  unfold Post.generateAnonId. cbn.
  apply num_to_string_app_nonempty, post_prefix_at_nonempty.
Qed.

Lemma post_pre_save_anonId now g p :
  exists u s, Post.anonId (fst (Post.pre_save now g p)) = Some (u :: s).
Proof.
  unfold Post.pre_save.
  pose proof (post_generateAnonId_nonempty g) as Hne.
  destruct (Post.generateAnonId g) as [id g']. cbn [fst] in Hne.
  destruct id as [|u0 s0]; [congruence|].
  destruct (Post.expiresAt p); cbn;
    destruct (Post.anonId p) as [[|u s]|] eqn:Ha; cbn; rewrite ?Ha; eauto.
Qed.

(** X5.  The [pre('save')] middleware of a post leaves it with an
    [expiresAt], seven days after the save when it had none and its own
    otherwise, and with an [anonId] that is not empty; on a post that has
    been through it, it changes nothing, whenever it runs again. *)
Theorem post_pre_save_fills_once now g now' g' p :
  Post.expiresAt (fst (Post.pre_save now g p))
  = Some (match Post.expiresAt p with
          | Some t => t
          | None => now + 7 * 24 * 60 * 60 * 1000
          end)
  /\ (exists u s, Post.anonId (fst (Post.pre_save now g p)) = Some (u :: s))
  /\ Post.pre_save now' g' (fst (Post.pre_save now g p))
     = (fst (Post.pre_save now g p), g').
Proof.
  split; [apply post_pre_save_expiresAt|].
  split; [apply post_pre_save_anonId|].
  destruct (post_pre_save_anonId now g p) as (u & s & Ha).
  pose proof (post_pre_save_expiresAt now g p) as He.
  generalize dependent (fst (Post.pre_save now g p)). intros q Ha He.
  unfold Post.pre_save. rewrite He. cbn. rewrite Ha. reflexivity.
Qed.

(** X6.  The virtual [timeUntilExpiry] of a post reads 'Expired' exactly
    when the post has an [expiresAt] that is not after the time of the
    reading; for a post without [expiresAt] it is [null]. *)
Theorem timeUntilExpiry_expired now p :
  (Post.timeUntilExpiry now p = VStr (js "Expired")
   <-> exists t, Post.expiresAt p = Some t /\ t <= now)
  /\ (Post.timeUntilExpiry now p = VNull <-> Post.expiresAt p = None).
Proof.
  unfold Post.timeUntilExpiry.
  destruct (Post.expiresAt p) as [t|].
  2:{ split; split; try reflexivity; try discriminate.
      intros (t & Ht & _). discriminate. }
  cbv zeta.
  destruct (Z.leb_spec (t - now) 0) as [Hle|Hgt].
  - split; split; try discriminate; try reflexivity.
    intros _. exists t. split; [reflexivity | lia].
  - assert (Hno : forall l : jsstring, last l 0 <> 100 -> VStr l <> VStr (js "Expired")).
    { intros l Hl [= E]. apply Hl. rewrite E. reflexivity. }
    split; split; try discriminate.
    + intros E. exfalso. revert E.
      destruct (0 <? (t - now) / (24 * 60 * 60 * 1000));
        [|destruct (0 <? (t - now) mod (24 * 60 * 60 * 1000) / (60 * 60 * 1000))];
        apply Hno.
      * change (js "y") with [121]. rewrite !app_assoc, last_last. discriminate.
      * rewrite !app_assoc, last_last. discriminate.
      * vm_compute. discriminate.
    + intros (t' & [= <-] & Ht). lia.
    + destruct (0 <? (t - now) / (24 * 60 * 60 * 1000));
        [|destruct (0 <? (t - now) mod (24 * 60 * 60 * 1000) / (60 * 60 * 1000))];
        discriminate.
Qed.

Lemma obj_get_delete_other o k k' :
  String.eqb k' k = false -> obj_get (obj_delete o k') k = obj_get o k.
Proof.
  intros Hne. unfold obj_delete. induction o as [|[k0 v] o IH]; cbn; [reflexivity|].
  destruct (String.eqb k0 k') eqn:E0; cbn.
  - apply String.eqb_eq in E0. subst k0. rewrite Hne. exact IH.
  - destruct (String.eqb k0 k); [reflexivity | exact IH].
Qed.

Lemma obj_get_set_other o k k' v :
  String.eqb k' k = false -> obj_get (obj_set o k' v) k = obj_get o k.
Proof.
  intros Hne. induction o as [|[k0 v0] o IH]; cbn.
  - now rewrite Hne.
  - destruct (String.eqb k0 k') eqn:E0; cbn.
    + apply String.eqb_eq in E0. subst k0. now rewrite Hne.
    + destruct (String.eqb k0 k); [reflexivity | exact IH].
Qed.

Lemma obj_get_set_same o k v : obj_get (obj_set o k v) k = v.
Proof.
  induction o as [|[k0 v0] o IH]; cbn.
  - now rewrite String.eqb_refl.
  - destruct (String.eqb k0 k) eqn:E0; cbn.
    + now rewrite String.eqb_refl.
    + now rewrite E0.
Qed.

(** X7.  [toJSON] of a post takes [ipHash] and [userAgent] out of the object,
    adds the virtual [timeUntilExpiry] and leaves every other property as
    it is stored; [toJSON] of a comment takes the two out and leaves the
    others. *)
Theorem toJSON_removes_only_sensitive_fields :
  (forall now d,
      obj_has (Post.toJSON now d) "ipHash" = false
      /\ obj_has (Post.toJSON now d) "userAgent" = false
      /\ obj_get (Post.toJSON now d) "timeUntilExpiry" = Post.timeUntilExpiry now d
      /\ forall k, k <> "ipHash" -> k <> "userAgent" -> k <> "__v" ->
                   k <> "timeUntilExpiry" ->
                   obj_get (Post.toJSON now d) k = obj_get (Post.toObject d) k)
  /\ (forall d,
      obj_has (Comment.toJSON d) "ipHash" = false
      /\ obj_has (Comment.toJSON d) "userAgent" = false
      /\ forall k, k <> "ipHash" -> k <> "userAgent" -> k <> "__v" ->
                   obj_get (Comment.toJSON d) k = obj_get (Comment.toObject d) k).
Proof.
  destruct toJSON_strips_sensitive_fields as [Hp Hc].
  split.
  - intros now d. destruct (Hp now d) as [H1 H2].
    split; [exact H1|]. split; [exact H2|].
    unfold Post.toJSON, Post.transform. split; [apply obj_get_set_same|].
    intros k K1 K2 K3 K4.
    rewrite obj_get_set_other by (apply String.eqb_neq; congruence).
    rewrite !obj_get_delete_other by (apply String.eqb_neq; congruence).
    reflexivity.
  - intros d. destruct (Hc d) as [H1 H2].
    split; [exact H1|]. split; [exact H2|].
    unfold Comment.toJSON, Comment.transform.
    intros k K1 K2 K3.
    rewrite !obj_get_delete_other by (apply String.eqb_neq; congruence).
    reflexivity.
Qed.

Lemma toJSON_removes_only_sensitive_fields_witness :
  obj_get (Post.toJSON (Samples.t0 + 1000) Samples.post1) "title" = VStr (js "Hello")
  /\ obj_get (Comment.toJSON Samples.new_comment) "content" = VStr (js "0a1b").
Proof.
  destruct toJSON_removes_only_sensitive_fields as [Hp Hc].
  split.
  - destruct (Hp (Samples.t0 + 1000) Samples.post1) as (_ & _ & _ & Hk).
    rewrite (Hk "title"); [reflexivity | discriminate ..].
  - destruct (Hc Samples.new_comment) as (_ & _ & Hk).
    rewrite (Hk "content"); [reflexivity | discriminate ..].
Defined.

End PostSave.

(** ** Comments and the count of their post *)

Section CommentHooks.

Lemma str_eqb_eq a : forall b, str_eqb a b = true <-> a = b.
Proof.
  induction a as [|x a IH]; intros [|y b]; cbn; split; try discriminate; auto.
  - intros Hxy. apply andb_true_iff in Hxy. destruct Hxy as [Hx Ha].
    apply Z.eqb_eq in Hx. apply IH in Ha. congruence.
  - intros [= -> ->]. rewrite Z.eqb_refl. cbn. now apply IH.
Qed.

Lemma oid_eqb_eq a b : oid_eqb a b = true <-> a = b.
Proof.
  unfold oid_eqb. rewrite str_eqb_eq. split; [|congruence].
  intros Hm. apply (f_equal (List.map Buffer.byte_of_Z)) in Hm.
  rewrite !map_map in Hm.
  rewrite !(map_ext _ (fun b => b) byte_of_Z_of_byte), !map_id in Hm. exact Hm.
Qed.

Lemma oid_eqb_refl a : oid_eqb a a = true.
Proof. now apply oid_eqb_eq. Qed.

Lemma oid_eqb_neq a b : oid_eqb a b = false <-> a <> b.
Proof.
  destruct (oid_eqb a b) eqn:E.
  - apply oid_eqb_eq in E. split; [discriminate | congruence].
  - split; [|reflexivity]. intros _ Hab. apply oid_eqb_eq in Hab. congruence.
Qed.

Lemma findById_id posts id p : Post.findById posts id = Some p -> Post._id p = id.
Proof.
  unfold Post.findById. intros Hf. apply find_some in Hf. now apply oid_eqb_eq.
Qed.

(** A save replaces the stored document of its [_id] and no other. *)
Lemma findById_stored posts now this id :
  Post.findById (Post.stored now this posts) id
  = if oid_eqb (Post._id this) id
    then match Post.findById posts id with
         | Some _ => Some (Post.set_updatedAt now this)
         | None => None
         end
    else Post.findById posts id.
Proof.
  unfold Post.findById, Post.stored.
  induction posts as [|p posts IH]; cbn [find List.map].
  - destruct (oid_eqb (Post._id this) id); reflexivity.
  - destruct (oid_eqb (Post._id p) (Post._id this)) eqn:Ep.
    + apply oid_eqb_eq in Ep. cbn [Post._id Post.set_updatedAt]. rewrite Ep.
      destruct (oid_eqb (Post._id this) id) eqn:Et; [reflexivity | exact IH].
    + destruct (oid_eqb (Post._id p) id) eqn:Ei; [|exact IH].
      apply oid_eqb_eq in Ei. subst id.
      apply oid_eqb_neq in Ep.
      destruct (oid_eqb (Post._id this) (Post._id p)) eqn:Et; [|reflexivity].
      apply oid_eqb_eq in Et. congruence.
Qed.

Lemma post_validate_commentCount post n :
  Post.validate post = true -> 0 <= n ->
  Post.validate (Post.set_commentCount n post) = true.
Proof.
  unfold Post.validate. cbn. intros Hv Hn.
  repeat (apply andb_true_iff in Hv; destruct Hv as [Hv ?]).
  repeat (apply andb_true_iff; split); auto. now apply Z.leb_le.
Qed.

Lemma post_validate_counts post :
  Post.validate post = true -> 0 <= Post.likes post /\ 0 <= Post.commentCount post.
Proof.
  unfold Post.validate. intros Hv.
  repeat (apply andb_true_iff in Hv; destruct Hv as [Hv ?]).
  split; now apply Z.leb_le.
Qed.

Lemma post_incrementComments_eq now g p :
  Post.incrementComments now g p
  = (Post.set_commentCount (int_add (Post.commentCount p) 1) p, g).
Proof. unfold Post.incrementComments. apply post_save_in_memory. Qed.

Lemma post_decrementComments_eq now g p :
  Post.decrementComments now g p
  = (if 0 <? Post.commentCount p
     then Post.set_commentCount (int_sub (Post.commentCount p) 1) p
     else p, g).
Proof. unfold Post.decrementComments. apply post_save_in_memory. Qed.

Lemma post_modified_same p : Post.modified p p = false.
Proof.
  unfold Post.modified. rewrite !Z.eqb_refl, !eqb_reflx.
  destruct (Post.deletedAt p); [rewrite Z.eqb_refl|]; reflexivity.
Qed.

Lemma post_modified_commentCount p n :
  n <> Post.commentCount p -> Post.modified p (Post.set_commentCount n p) = true.
Proof.
  intros Hn. unfold Post.modified. cbn.
  apply Z.eqb_neq in Hn. now rewrite Hn, andb_false_r.
Qed.

Lemma comment_post_save_increments posts now g c pid post :
  Comment.postId c = Some pid -> Post.findById posts pid = Some post ->
  Comment.isDeleted c = false -> Post.validate post = true ->
  Post.commentCount post <= MAX_SAFE_INTEGER ->
  (exists post',
      Post.findById (fst (Comment.post_save posts now g c)) pid = Some post'
      /\ Post.commentCount post' = Post.commentCount post + 1
      /\ Post.updatedAt post' = now)
  /\ forall id, id <> pid ->
       Post.findById (fst (Comment.post_save posts now g c)) id = Post.findById posts id.
Proof.
  intros Hp Hf Hd Hv Hsafe. unfold Comment.post_save.
  rewrite Hp, Hf, Hd. cbn [negb].
  destruct (post_validate_counts post Hv) as [_ Hc].
  assert (Hsafe' : - MAX_SAFE_INTEGER <= Post.commentCount post <= MAX_SAFE_INTEGER)
    by (unfold MAX_SAFE_INTEGER in *; rewrite two_53 in *; lia).
  rewrite post_incrementComments_eq, (int_add_one _ Hsafe').
  rewrite (post_validate_commentCount post (Post.commentCount post + 1) Hv) by lia.
  rewrite post_modified_commentCount by lia. cbn [fst].
  pose proof (findById_id _ _ _ Hf) as Hpid.
  split.
  - eexists. rewrite findById_stored. cbn [Post._id Post.set_commentCount].
    rewrite Hpid, oid_eqb_refl, Hf. split; [reflexivity|]. split; reflexivity.
  - intros id Hne. rewrite findById_stored. cbn [Post._id Post.set_commentCount].
    rewrite Hpid.
    assert (E : oid_eqb pid id = false) by (apply oid_eqb_neq; congruence).
    now rewrite E.
Qed.

Lemma comment_post_save_deleted posts now g c :
  Comment.isDeleted c = true -> fst (Comment.post_save posts now g c) = posts.
Proof.
  intros Hd. unfold Comment.post_save. rewrite Hd.
  destruct (Comment.postId c) as [pid|]; [|reflexivity].
  destruct (Post.findById posts pid); reflexivity.
Qed.

(** X8.  The [post('save')] middleware of a comment: when the comment is
    not soft-deleted and its post is stored and valid, with a count that is
    a safe integer, the post counts one comment more and is stamped with
    the time of the update, and every other post is as it was.  On a post
    whose count is 2^53 the addition changes nothing and nothing is
    written; for a soft-deleted comment, or one whose post is not stored,
    nothing is written either. *)
Theorem comment_post_save_counts posts now g c :
  (forall pid post,
      Comment.postId c = Some pid -> Post.findById posts pid = Some post ->
      Comment.isDeleted c = false -> Post.validate post = true ->
      Post.commentCount post <= MAX_SAFE_INTEGER ->
      (exists post',
          Post.findById (fst (Comment.post_save posts now g c)) pid = Some post'
          /\ Post.commentCount post' = Post.commentCount post + 1
          /\ Post.updatedAt post' = now)
      /\ forall id, id <> pid ->
           Post.findById (fst (Comment.post_save posts now g c)) id
           = Post.findById posts id)
  /\ (forall pid post,
      Comment.postId c = Some pid -> Post.findById posts pid = Some post ->
      Post.commentCount post = MAX_SAFE_INTEGER + 1 ->
      fst (Comment.post_save posts now g c) = posts)
  /\ (Comment.isDeleted c = true -> fst (Comment.post_save posts now g c) = posts)
  /\ (match Comment.postId c with
      | Some pid => Post.findById posts pid = None
      | None => True
      end -> fst (Comment.post_save posts now g c) = posts).
Proof.
  split; [|split; [|split]].
  - intros pid post. apply comment_post_save_increments.
  - intros pid post Hp Hf Hlim. unfold Comment.post_save. rewrite Hp, Hf.
    destruct (negb (Comment.isDeleted c)); [|reflexivity].
    rewrite post_incrementComments_eq, Hlim, max_safe_succ, int_add_at_limit.
    rewrite <- max_safe_succ, <- Hlim.
    replace (Post.set_commentCount (Post.commentCount post) post) with post
      by (destruct post; reflexivity).
    rewrite post_modified_same. destruct (Post.validate post); reflexivity.
  - apply comment_post_save_deleted.
  - unfold Comment.post_save.
    destruct (Comment.postId c) as [pid|]; [|reflexivity].
    intros Hf. rewrite Hf. reflexivity.
Qed.

Lemma comment_post_save_counts_witness :
  Comment.postId Samples.dated_comment = Some Samples.oid1
  /\ Post.findById [Samples.post1] Samples.oid1 = Some Samples.post1
  /\ Comment.isDeleted Samples.dated_comment = false
  /\ Post.validate Samples.post1 = true
  /\ Post.commentCount Samples.post1 <= MAX_SAFE_INTEGER
  /\ exists post',
       Post.findById
         (fst (Comment.post_save [Samples.post1] (Samples.t0 + 2000) Samples.draws
                 Samples.dated_comment)) Samples.oid1 = Some post'
       /\ Post.commentCount post' = Post.commentCount Samples.post1 + 1
       /\ Post.updatedAt post' = Samples.t0 + 2000.
Proof.
  assert (Hsafe : Post.commentCount Samples.post1 <= MAX_SAFE_INTEGER)
    by (vm_compute; discriminate).
  split; [reflexivity|]. split; [reflexivity|]. split; [reflexivity|].
  split; [reflexivity|]. split; [exact Hsafe|].
  destruct (comment_post_save_counts [Samples.post1] (Samples.t0 + 2000) Samples.draws
              Samples.dated_comment) as [Hinc _].
  destruct (Hinc Samples.oid1 Samples.post1 eq_refl eq_refl eq_refl eq_refl Hsafe)
    as [Hpost _].
  exact Hpost.
Defined.

Lemma comment_flag_eq posts g c :
  Comment.flag posts g c
  = (let this1 := Comment.set_flagCount (int_add (Comment.flagCount c) 1) c in
     if 3 <=? Comment.flagCount this1 then Comment.set_isFlagged true this1 else this1,
     g).
Proof. unfold Comment.flag. apply comment_save_in_memory. Qed.

Lemma comment_softDelete_eq posts now g c :
  Comment.softDelete posts now g c
  = (Comment.set_deletedAt (Some now) (Comment.set_isDeleted true c), g).
Proof. unfold Comment.softDelete. apply comment_save_in_memory. Qed.

(** X9.  A flag on a comment is a save, and the middleware after a save
    does not tell a new comment from an old one.  A comment that passes the
    validators still passes them as [flag()] saves it, so the middleware
    runs: on a comment that is not soft-deleted it adds one to the
    [commentCount] of the post (stored and valid, its count a safe
    integer).  Run on a comment that [softDelete()] has saved, it leaves
    the posts as they were. *)
Theorem comment_flag_counts_as_comment posts now g g' c pid post :
  Comment.validate c = true ->
  Comment.postId c = Some pid -> Post.findById posts pid = Some post ->
  Post.validate post = true -> Post.commentCount post <= MAX_SAFE_INTEGER ->
  Comment.validate (fst (Comment.flag posts g c)) = true
  /\ (Comment.isDeleted c = false ->
      exists post',
        Post.findById
          (fst (Comment.post_save posts now g' (fst (Comment.flag posts g c)))) pid
        = Some post'
        /\ Post.commentCount post' = Post.commentCount post + 1)
  /\ fst (Comment.post_save posts now g' (fst (Comment.softDelete posts now g c)))
     = posts.
Proof.
  intros Hvc Hp Hf Hv Hsafe. rewrite comment_flag_eq, comment_softDelete_eq.
  cbv zeta. cbn [fst].
  split; [|split].
  - destruct (3 <=? _); exact Hvc.
  - intros Hd.
    destruct (comment_post_save_increments posts now g'
                (if 3 <=? Comment.flagCount
                            (Comment.set_flagCount (int_add (Comment.flagCount c) 1) c)
                 then Comment.set_isFlagged true
                        (Comment.set_flagCount (int_add (Comment.flagCount c) 1) c)
                 else Comment.set_flagCount (int_add (Comment.flagCount c) 1) c)
                pid post) as [(post' & H1 & H2 & _) _]; auto.
    + destruct (3 <=? _); exact Hp.
    + destruct (3 <=? _); exact Hd.
    + exists post'. auto.
  - apply comment_post_save_deleted. reflexivity.
Qed.

Lemma comment_flag_counts_as_comment_witness :
  Comment.validate Samples.dated_comment = true
  /\ Comment.postId Samples.dated_comment = Some Samples.oid1
  /\ Post.findById [Samples.post1] Samples.oid1 = Some Samples.post1
  /\ Post.validate Samples.post1 = true
  /\ Post.commentCount Samples.post1 <= MAX_SAFE_INTEGER
  /\ Comment.isDeleted Samples.dated_comment = false
  /\ (exists post',
       Post.findById
         (fst (Comment.post_save [Samples.post1] (Samples.t0 + 2000) Samples.draws
                 (fst (Comment.flag [Samples.post1] Samples.draws Samples.dated_comment))))
         Samples.oid1 = Some post'
       /\ Post.commentCount post' = Post.commentCount Samples.post1 + 1)
  /\ fst (Comment.post_save [Samples.post1] (Samples.t0 + 2000) Samples.draws
            (fst (Comment.softDelete [Samples.post1] (Samples.t0 + 2000) Samples.draws
                    Samples.dated_comment)))
     = [Samples.post1].
Proof.
  assert (Hsafe : Post.commentCount Samples.post1 <= MAX_SAFE_INTEGER)
    by (vm_compute; discriminate).
  split; [reflexivity|]. split; [reflexivity|]. split; [reflexivity|].
  split; [reflexivity|]. split; [exact Hsafe|]. split; [reflexivity|].
  destruct (comment_flag_counts_as_comment [Samples.post1] (Samples.t0 + 2000)
              Samples.draws Samples.draws Samples.dated_comment Samples.oid1 Samples.post1
              eq_refl eq_refl eq_refl eq_refl Hsafe)
    as (_ & Hflag & Hdel).
  split; [apply Hflag; reflexivity | exact Hdel].
Defined.

(** X10.  The [post('remove')] middleware of a comment whose post is stored
    and valid, its count a safe integer, leaves the post with one comment
    less, and with none when it had none. *)
Theorem comment_post_remove_counts posts now g c pid post :
  Comment.postId c = Some pid -> Post.findById posts pid = Some post ->
  Post.validate post = true -> Post.commentCount post <= MAX_SAFE_INTEGER ->
  exists post',
    Post.findById (fst (Comment.post_remove posts now g c)) pid = Some post'
    /\ Post.commentCount post' = Z.max 0 (Post.commentCount post - 1).
Proof.
  intros Hp Hf Hv Hsafe. unfold Comment.post_remove. rewrite Hp, Hf.
  destruct (post_validate_counts post Hv) as [_ Hc].
  rewrite post_decrementComments_eq.
  destruct (Z.ltb_spec 0 (Post.commentCount post)) as [Hpos|Hzero].
  - rewrite int_sub_one by lia.
    rewrite (post_validate_commentCount post (Post.commentCount post - 1) Hv) by lia.
    rewrite post_modified_commentCount by lia. cbn [fst].
    pose proof (findById_id _ _ _ Hf) as Hpid.
    eexists. rewrite findById_stored. cbn [Post._id Post.set_commentCount].
    rewrite Hpid, oid_eqb_refl, Hf. split; [reflexivity|]. cbn. lia.
  - rewrite Hv, post_modified_same. cbn [fst].
    exists post. split; [exact Hf | lia].
Qed.

Lemma comment_post_remove_counts_witness :
  Comment.postId Samples.dated_comment = Some Samples.oid1
  /\ Post.findById [Samples.post1] Samples.oid1 = Some Samples.post1
  /\ Post.validate Samples.post1 = true
  /\ Post.commentCount Samples.post1 <= MAX_SAFE_INTEGER
  /\ exists post',
       Post.findById
         (fst (Comment.post_remove [Samples.post1] (Samples.t0 + 2000) Samples.draws
                 Samples.dated_comment)) Samples.oid1 = Some post'
       /\ Post.commentCount post' = 0.
Proof.
  assert (Hsafe : Post.commentCount Samples.post1 <= MAX_SAFE_INTEGER)
    by (vm_compute; discriminate).
  split; [reflexivity|]. split; [reflexivity|]. split; [reflexivity|].
  split; [exact Hsafe|].
  exact (comment_post_remove_counts [Samples.post1] (Samples.t0 + 2000) Samples.draws
           Samples.dated_comment Samples.oid1 Samples.post1 eq_refl eq_refl eq_refl Hsafe).
Defined.



End CommentHooks.

(** ** The routes that take an identifier *)

Section Identifiers.
Import RegExp.

(** Repeating a character class [n] times reads [n] code units of it. *)
Lemma times_chr_inv s p n : forall st st',
  In st' (times (exec s (Chr p)) n st) ->
  st' = advance n st
  /\ forall i, (i < n)%nat ->
       exists u, nth_error s (pos st + i) = Some u /\ p u = true.
Proof.
  induction n as [|n IH]; intros st st' Hin.
  - cbn in Hin. destruct Hin as [<-|[]]. split.
    + destruct st. unfold advance. cbn. now rewrite Nat.add_0_r.
    + intros i Hi. lia.
  - cbn [times] in Hin. apply in_flat_map in Hin. destruct Hin as (st1 & H1 & Hin).
    cbn [exec] in H1.
    destruct (nth_error s (pos st)) as [u|] eqn:Eu; [|destruct H1].
    destruct (p u) eqn:Ep; [|destruct H1].
    destruct H1 as [<-|[]].
    apply IH in Hin. destruct Hin as [-> Hall]. split.
    + unfold advance. cbn. f_equal. lia.
    + intros [|i] Hi.
      * exists u. now rewrite Nat.add_0_r.
      * destruct (Hall i ltac:(lia)) as (v & Hv & Hpv).
        exists v. split; [|exact Hpv]. cbn in Hv.
        now replace (pos st + S i)%nat with (pos st + 1 + i)%nat by lia.
Qed.

Lemma times_chr_all s p n : forall st,
  (forall i, (i < n)%nat ->
     exists u, nth_error s (pos st + i) = Some u /\ p u = true) ->
  times (exec s (Chr p)) n st = [advance n st].
Proof.
  induction n as [|n IH]; intros st Hall.
  - cbn. destruct st. unfold advance. cbn. now rewrite Nat.add_0_r.
  - cbn [times exec].
    destruct (Hall 0%nat ltac:(lia)) as (u & Hu & Hp).
    rewrite Nat.add_0_r in Hu. rewrite Hu, Hp. cbn [flat_map].
    rewrite app_nil_r, IH.
    + unfold advance. cbn. do 2 f_equal. lia.
    + intros i Hi. destruct (Hall (S i) ltac:(lia)) as (v & Hv & Hpv).
      exists v. split; [|exact Hpv]. cbn.
      now replace (pos st + 1 + i)%nat with (pos st + S i)%nat by lia.
Qed.

Lemma existsb_seq_true f n :
  existsb f (seq 0 n) = true <-> exists i, (i < n)%nat /\ f i = true.
Proof.
  rewrite existsb_exists. split.
  - intros (i & Hi & Hf). apply in_seq in Hi. exists i. split; [lia | exact Hf].
  - intros (i & Hi & Hf). exists i. split; [apply in_seq; lia | exact Hf].
Qed.

Lemma hex_class_spec u :
  range "0" "9" u || range "a" "f" u || range "A" "F" u = true
  <-> Buffer.hex_value u <> None.
Proof.
  unfold range, Buffer.hex_value.
  change (code_unit "0") with 48. change (code_unit "9") with 57.
  change (code_unit "a") with 97. change (code_unit "f") with 102.
  change (code_unit "A") with 65. change (code_unit "F") with 70.
  destruct ((48 <=? u) && (u <=? 57)); [cbn; split; [discriminate | reflexivity]|].
  destruct ((97 <=? u) && (u <=? 102)); [cbn; split; [discriminate | reflexivity]|].
  destruct ((65 <=? u) && (u <=? 70)); cbn; split; congruence.
Qed.

(** The pattern of an identifier accepts the strings of 24 hexadecimal
    digits and no other. *)
Lemma object_id_format_spec s :
  test Routes.object_id_format s = true
  <-> List.length s = 24%nat /\ Forall (fun u => Buffer.hex_value u <> None) s.
Proof.
  unfold test. rewrite existsb_seq_true. unfold matches_at, Routes.object_id_format.
  set (hex := Chr _).
  split.
  - intros (i & _ & Hm).
    destruct i as [|i]; [|discriminate Hm].
    cbn [exec pos Nat.eqb flat_map Nat.sub] in Hm. rewrite app_nil_r in Hm.
    match type of Hm with
    | match ?l with _ => _ end = true => destruct l as [|st' l'] eqn:El; [discriminate|]
    end.
    assert (Hin : In st' (st' :: l')) by now left.
    rewrite <- El in Hin. apply in_flat_map in Hin. destruct Hin as (st1 & H1 & Hin).
    apply in_flat_map in H1. destruct H1 as (st2 & H2 & H1).
    apply times_chr_inv in H2. destruct H2 as [-> Hall].
    cbn in H1. destruct H1 as [<-|[]].
    cbn [pos advance] in Hin.
    destruct (Nat.eqb_spec (0 + 24) (List.length s)) as [Hlen|]; [|destruct Hin].
    split; [lia|].
    apply Forall_forall. intros u Hu.
    apply In_nth_error in Hu. destruct Hu as (k & Hk).
    assert (Hk24 : (k < 24)%nat).
    { assert (k < List.length s)%nat by (apply nth_error_Some; congruence). lia. }
    destruct (Hall k Hk24) as (v & Hv & Hp). cbn in Hv.
    rewrite Hk in Hv. injection Hv as ->. now apply hex_class_spec.
  - intros [Hlen Hhex]. exists 0%nat. split; [lia|].
    cbn [exec pos Nat.eqb flat_map Nat.sub]. rewrite app_nil_r.
    unfold hex. rewrite times_chr_all.
    + cbn [flat_map optional app exec pos advance].
      rewrite Hlen. reflexivity.
    + intros i Hi. cbn [pos].
      destruct (nth_error s (0 + i)) as [u|] eqn:Eu.
      * exists u. split; [reflexivity|].
        apply nth_error_In in Eu. apply hex_class_spec.
        revert u Eu. now apply Forall_forall.
      * apply nth_error_None in Eu. lia.
Qed.

Lemma find_all_false {A} (f : A -> bool) l :
  (forall x, In x l -> f x = false) -> List.find f l = None.
Proof.
  induction l as [|x l IH]; intros Hall; [reflexivity|]. cbn.
  rewrite (Hall x) by now left. apply IH. intros y Hy. apply Hall. now right.
Qed.

(** Identifiers are unique in a collection, so a query by [_id] with a
    condition finds the stored document of that [_id] or nothing. *)
Lemma findOne_unique posts id cond :
  NoDup (List.map Post._id posts) ->
  Routes.findOne posts id cond
  = match Post.findById posts id with
    | Some p => if cond p then Some p else None
    | None => None
    end.
Proof.
  unfold Routes.findOne, Post.findById.
  induction posts as [|p posts IH]; intros Hnd; [reflexivity|].
  cbn [List.map] in Hnd. inversion Hnd as [|x l Hnotin Hnd']. subst.
  cbn [find].
  destruct (oid_eqb (Post._id p) id) eqn:Ep; cbn [andb]; [|now apply IH].
  destruct (cond p); [reflexivity|].
  apply find_all_false. intros q Hq.
  apply andb_false_iff. left. apply oid_eqb_neq. intros Hqid.
  apply Hnotin. apply oid_eqb_eq in Ep. rewrite Ep, <- Hqid. now apply in_map.
Qed.

Lemma post_validate_likes post n :
  Post.validate post = true -> 0 <= n -> Post.validate (Post.set_likes n post) = true.
Proof.
  unfold Post.validate. cbn. intros Hv Hn.
  repeat (apply andb_true_iff in Hv; destruct Hv as [Hv ?]).
  repeat (apply andb_true_iff; split); auto. now apply Z.leb_le.
Qed.

Lemma post_incrementLikes_eq now g p :
  Post.incrementLikes now g p = (Post.set_likes (int_add (Post.likes p) 1) p, g).
Proof. unfold Post.incrementLikes. apply post_save_in_memory. Qed.

Lemma post_flag_eq now g p :
  Post.flag now g p
  = (let this1 := Post.set_flagCount (int_add (Post.flagCount p) 1) p in
     if 5 <=? Post.flagCount this1 then Post.set_isFlagged true this1 else this1,
     g).
Proof. unfold Post.flag. apply post_save_in_memory. Qed.

Lemma post_modified_likes p q :
  Post.likes q <> Post.likes p -> Post.modified p q = true.
Proof.
  intros Hn. unfold Post.modified. apply Z.eqb_neq in Hn. now rewrite Hn.
Qed.

Lemma post_modified_flagCount p q :
  Post.flagCount q <> Post.flagCount p -> Post.modified p q = true.
Proof.
  intros Hn. unfold Post.modified. apply Z.eqb_neq in Hn.
  now rewrite Hn, !andb_false_r.
Qed.

(** X12.  A like on the stored post of the given identifier: when the post
    is soft-deleted, flagged or expired at the time of the query, the route
    answers 404 and writes nothing; when it is live (and valid, its count
    a safe integer), the route answers with [likes] one higher than stored,
    the stored post has that count, and no other post is touched.  On a
    live post whose count is 2^53 the route answers with that same count
    and writes nothing. *)
Theorem like_post_counts_once posts now1 now2 g postId post :
  NoDup (List.map Post._id posts) ->
  test Routes.object_id_format postId = true ->
  Post.findById posts (Buffer.from_hex postId) = Some post ->
  (Routes.live now1 post = false ->
   Routes.like_post posts now1 now2 g postId
   = (Routes.json 404 [("error", VStr (js "Post not found or expired"))], posts, g))
  /\ (Routes.live now1 post = true -> Post.validate post = true ->
      Post.likes post <= MAX_SAFE_INTEGER ->
      exists posts' g',
        Routes.like_post posts now1 now2 g postId
        = (Routes.json 200 [("message", VStr (js "Post liked successfully"));
                            ("likes", VNum (Int (Post.likes post + 1)))], posts', g')
        /\ (exists post',
              Post.findById posts' (Buffer.from_hex postId) = Some post'
              /\ Post.likes post' = Post.likes post + 1)
        /\ forall id, id <> Buffer.from_hex postId ->
             Post.findById posts' id = Post.findById posts id)
  /\ (Routes.live now1 post = true -> Post.validate post = true ->
      Post.likes post = MAX_SAFE_INTEGER + 1 ->
      Routes.like_post posts now1 now2 g postId
      = (Routes.json 200 [("message", VStr (js "Post liked successfully"));
                          ("likes", VNum (Int (MAX_SAFE_INTEGER + 1)))], posts, g)).
Proof.
  intros Hnd Hid Hf. unfold Routes.like_post. rewrite Hid. cbn [negb].
  rewrite (findOne_unique _ _ _ Hnd), Hf.
  change (negb (Post.isDeleted post) && negb (Post.isFlagged post)
          && Routes.expires_after now1 (Post.expiresAt post))
    with (Routes.live now1 post).
  split; [|split]; intros Hl; rewrite Hl; [reflexivity| |];
    rewrite post_incrementLikes_eq.
  - intros Hv Hsafe. destruct (post_validate_counts post Hv) as [Hlikes _].
    rewrite int_add_one
      by (unfold MAX_SAFE_INTEGER in *; rewrite two_53 in *; lia).
    rewrite (post_validate_likes post (Post.likes post + 1) Hv) by lia.
    rewrite post_modified_likes by (cbn; lia).
    pose proof (findById_id _ _ _ Hf) as Hpid.
    eexists _, g. split; [reflexivity|]. split.
    + eexists. rewrite findById_stored. cbn [Post._id Post.set_likes].
      rewrite Hpid, oid_eqb_refl, Hf. split; reflexivity.
    + intros id Hne. rewrite findById_stored. cbn [Post._id Post.set_likes].
      rewrite Hpid.
      assert (E : oid_eqb (Buffer.from_hex postId) id = false)
        by (apply oid_eqb_neq; congruence).
      now rewrite E.
  - intros Hv Hlim.
    rewrite Hlim, max_safe_succ, int_add_at_limit.
    rewrite <- max_safe_succ, <- Hlim.
    replace (Post.set_likes (Post.likes post) post) with post
      by (destruct post; reflexivity).
    rewrite Hv, post_modified_same. reflexivity.
Qed.

Lemma like_post_counts_once_witness :
  NoDup (List.map Post._id [Samples.post1])
  /\ test Routes.object_id_format Samples.oid1_hex = true
  /\ Post.findById [Samples.post1] (Buffer.from_hex Samples.oid1_hex) = Some Samples.post1
  /\ Routes.live (Samples.t0 + 1000) Samples.post1 = true
  /\ Post.validate Samples.post1 = true
  /\ Post.likes Samples.post1 <= MAX_SAFE_INTEGER
  /\ fst (fst (Routes.like_post [Samples.post1] (Samples.t0 + 1000) (Samples.t0 + 1001)
                 Samples.draws Samples.oid1_hex))
     = Routes.json 200 [("message", VStr (js "Post liked successfully"));
                        ("likes", VNum (Int 1))].
Proof.
  assert (Hnd : NoDup (List.map Post._id [Samples.post1])).
  { constructor; [intros [] | constructor]. }
  assert (Hsafe : Post.likes Samples.post1 <= MAX_SAFE_INTEGER)
    by (vm_compute; discriminate).
  split; [exact Hnd|]. split; [reflexivity|]. split; [reflexivity|].
  split; [reflexivity|]. split; [reflexivity|]. split; [exact Hsafe|].
  destruct (like_post_counts_once [Samples.post1] (Samples.t0 + 1000) (Samples.t0 + 1001)
              Samples.draws Samples.oid1_hex Samples.post1 Hnd eq_refl eq_refl)
    as (_ & Hlive & _).
  destruct (Hlive eq_refl eq_refl Hsafe) as (posts' & g' & Hr & _).
  rewrite Hr. reflexivity.
Defined.

(** X13.  A flag on the stored post of the given identifier: the route
    answers 404 for a post that is soft-deleted or expired, and writes
    nothing.  Otherwise (the post valid, its [flagCount] a safe integer) it
    answers 200 whether or not the post is flagged already: the stored
    [flagCount] goes up by one, and the answer says [flagged] when the post
    was flagged before or the new count is five or more. *)
Theorem flag_post_counts_flagged_posts_too posts now1 now2 g postId post :
  NoDup (List.map Post._id posts) ->
  test Routes.object_id_format postId = true ->
  Post.findById posts (Buffer.from_hex postId) = Some post ->
  (Post.isDeleted post = true \/ Routes.expires_after now1 (Post.expiresAt post) = false ->
   Routes.flag_post posts now1 now2 g postId
   = (Routes.json 404 [("error", VStr (js "Post not found or expired"))], posts, g))
  /\ (Post.isDeleted post = false ->
      Routes.expires_after now1 (Post.expiresAt post) = true ->
      Post.validate post = true ->
      - MAX_SAFE_INTEGER <= Post.flagCount post <= MAX_SAFE_INTEGER ->
      exists posts' g',
        Routes.flag_post posts now1 now2 g postId
        = (Routes.json 200
             [("message", VStr (js "Post flagged for review"));
              ("flagged", VBool (Post.isFlagged post || (5 <=? Post.flagCount post + 1)))],
           posts', g')
        /\ (exists post',
              Post.findById posts' (Buffer.from_hex postId) = Some post'
              /\ Post.flagCount post' = Post.flagCount post + 1
              /\ Post.isFlagged post'
                 = Post.isFlagged post || (5 <=? Post.flagCount post + 1))
        /\ forall id, id <> Buffer.from_hex postId ->
             Post.findById posts' id = Post.findById posts id).
Proof.
  intros Hnd Hid Hf. unfold Routes.flag_post. rewrite Hid. cbn [negb].
  rewrite (findOne_unique _ _ _ Hnd), Hf.
  split.
  - intros [Hd|He]; [rewrite Hd | rewrite He, andb_false_r]; reflexivity.
  - intros Hd He Hv Hsafe. rewrite Hd, He. cbn [negb andb]. cbv zeta.
    rewrite post_flag_eq. cbv zeta. rewrite (int_add_one _ Hsafe).
    cbn [Post.flagCount Post.set_flagCount].
    pose proof (findById_id _ _ _ Hf) as Hpid.
    assert (Hv' : forall q,
               q = Post.set_flagCount (Post.flagCount post + 1) post
               \/ q = Post.set_isFlagged true
                        (Post.set_flagCount (Post.flagCount post + 1) post) ->
               Post.validate q = true /\ Post.modified post q = true
               /\ Post._id q = Buffer.from_hex postId
               /\ Post.flagCount q = Post.flagCount post + 1).
    { intros q [-> | ->]; (split; [exact Hv|]);
        (split; [apply post_modified_flagCount; cbn; lia|]); split; auto. }
    destruct (5 <=? Post.flagCount post + 1) eqn:E5.
    + destruct (Hv' _ (or_intror eq_refl)) as (V & M & I & C). rewrite V, M.
      eexists _, g. rewrite orb_true_r. split; [reflexivity|]. split.
      * eexists. rewrite findById_stored, I, oid_eqb_refl, Hf.
        split; [reflexivity|]. split; reflexivity.
      * intros id Hne. rewrite findById_stored, I.
        assert (E : oid_eqb (Buffer.from_hex postId) id = false)
          by (apply oid_eqb_neq; congruence).
        now rewrite E.
    + destruct (Hv' _ (or_introl eq_refl)) as (V & M & I & C). rewrite V, M.
      eexists _, g. rewrite orb_false_r. split; [reflexivity|]. split.
      * eexists. rewrite findById_stored, I, oid_eqb_refl, Hf.
        split; [reflexivity|]. split; reflexivity.
      * intros id Hne. rewrite findById_stored, I.
        assert (E : oid_eqb (Buffer.from_hex postId) id = false)
          by (apply oid_eqb_neq; congruence).
        now rewrite E.
Qed.

Lemma flag_post_counts_flagged_posts_too_witness :
  NoDup (List.map Post._id [Samples.flagged_post])
  /\ test Routes.object_id_format Samples.oid1_hex = true
  /\ Post.findById [Samples.flagged_post] (Buffer.from_hex Samples.oid1_hex)
     = Some Samples.flagged_post
  /\ Post.isFlagged Samples.flagged_post = true
  /\ Post.isDeleted Samples.flagged_post = false
  /\ Routes.expires_after (Samples.t0 + 1000) (Post.expiresAt Samples.flagged_post) = true
  /\ Post.validate Samples.flagged_post = true
  /\ - MAX_SAFE_INTEGER <= Post.flagCount Samples.flagged_post <= MAX_SAFE_INTEGER
  /\ fst (fst (Routes.flag_post [Samples.flagged_post] (Samples.t0 + 1000)
                 (Samples.t0 + 1001) Samples.draws Samples.oid1_hex))
     = Routes.json 200 [("message", VStr (js "Post flagged for review"));
                        ("flagged", VBool true)].
Proof.
  assert (Hnd : NoDup (List.map Post._id [Samples.flagged_post])).
  { constructor; [intros [] | constructor]. }
  assert (Hsafe : - MAX_SAFE_INTEGER <= Post.flagCount Samples.flagged_post
                  <= MAX_SAFE_INTEGER)
    by (split; vm_compute; discriminate).
  split; [exact Hnd|]. split; [reflexivity|]. split; [reflexivity|].
  split; [reflexivity|]. split; [reflexivity|]. split; [reflexivity|].
  split; [reflexivity|]. split; [exact Hsafe|].
  destruct (flag_post_counts_flagged_posts_too [Samples.flagged_post] (Samples.t0 + 1000)
              (Samples.t0 + 1001) Samples.draws Samples.oid1_hex Samples.flagged_post
              Hnd eq_refl eq_refl) as [_ Hfound].
  destruct (Hfound eq_refl eq_refl eq_refl Hsafe) as (posts' & g' & Hr & _).
  rewrite Hr. reflexivity.
Defined.

End Identifiers.

Section IdentifierFormat.
Context `{NodeCrypto}.
Variable e : env.
Import RegExp.

(** X14.  The single-post, like and flag routes answer 400 exactly for an
    identifier that is not a string of 24 hexadecimal digits; they do so
    whatever the collections hold, and the two that write leave the posts
    as they are. *)
Theorem malformed_identifier_is_refused posts comments now1 now2 g h postId :
  (~ (List.length postId = 24%nat /\ Forall (fun u => Buffer.hex_value u <> None) postId) ->
   Routes.get_post e posts comments now1 now2 g postId
   = (Routes.json 400 [("error", VStr (js "Invalid post ID format"))], g)
   /\ Routes.like_post posts now1 now2 h postId
      = (Routes.json 400 [("error", VStr (js "Invalid post ID format"))], posts, h)
   /\ Routes.flag_post posts now1 now2 h postId
      = (Routes.json 400 [("error", VStr (js "Invalid post ID format"))], posts, h))
  /\ (List.length postId = 24%nat ->
      Forall (fun u => Buffer.hex_value u <> None) postId ->
      Routes.status (fst (Routes.get_post e posts comments now1 now2 g postId)) <> 400
      /\ Routes.status (fst (fst (Routes.like_post posts now1 now2 h postId))) <> 400
      /\ Routes.status (fst (fst (Routes.flag_post posts now1 now2 h postId))) <> 400).
Proof.
  split.
  - intros Hbad.
    assert (Ht : test Routes.object_id_format postId = false).
    { destruct (test Routes.object_id_format postId) eqn:E; [|reflexivity].
      apply object_id_format_spec in E. contradiction. }
    unfold Routes.get_post, Routes.like_post, Routes.flag_post. rewrite Ht.
    repeat split; reflexivity.
  - intros Hlen Hhex.
    assert (Ht : test Routes.object_id_format postId = true)
      by (apply object_id_format_spec; auto).
    unfold Routes.get_post, Routes.like_post, Routes.flag_post. rewrite Ht.
    cbn [negb]. split; [|split].
    + destruct (find _ posts) as [post|]; [|cbn; discriminate].
      destruct (Post.decryptContent e _ g) as [[text|err] g1]; [|cbn; discriminate].
      destruct (Routes.decrypt_comments e _ g1) as [[cs|err] g2]; cbn; discriminate.
    + destruct (Routes.findOne posts _ _) as [post|]; [|cbn; discriminate].
      destruct (Post.validate _); [|cbn; discriminate].
      destruct (Post.incrementLikes now2 h post). cbn. discriminate.
    + destruct (Routes.findOne posts _ _) as [post|]; [|cbn; discriminate].
      cbv zeta. destruct (Post.validate _); [|cbn; discriminate].
      destruct (Post.flag now2 h post). cbn. discriminate.
Qed.

End IdentifierFormat.

Lemma malformed_identifier_is_refused_witness :
  ~ (List.length (js "654a1b2c3d4e5f60718293a") = 24%nat
     /\ Forall (fun u => Buffer.hex_value u <> None) (js "654a1b2c3d4e5f60718293a"))
  /\ Routes.like_post [Samples.post1] (Samples.t0 + 1000) (Samples.t0 + 1001)
       Samples.draws (js "654a1b2c3d4e5f60718293a")
     = (Routes.json 400 [("error", VStr (js "Invalid post ID format"))],
        [Samples.post1], Samples.draws).
Proof.
  assert (Hbad : ~ (List.length (js "654a1b2c3d4e5f60718293a") = 24%nat
                    /\ Forall (fun u => Buffer.hex_value u <> None)
                              (js "654a1b2c3d4e5f60718293a"))).
  { intros [Hlen _]. discriminate Hlen. }
  split; [exact Hbad|].
  destruct (@malformed_identifier_is_refused Samples.toy_crypto Samples.configured
              [Samples.post1] [] (Samples.t0 + 1000) (Samples.t0 + 1001)
              Samples.zeros Samples.draws (js "654a1b2c3d4e5f60718293a")) as [Hrefused _].
  destruct (Hrefused Hbad) as (_ & Hlike & _). exact Hlike.
Defined.

(** ** What the read routes return *)

Section Ordering.

(** The order a sort asks for. *)
Lemma insert_by_sorted {A} (key : A -> Z) (asc : bool) x l :
  StronglySorted (fun a b => if asc then key a <= key b else key b <= key a) l ->
  StronglySorted (fun a b => if asc then key a <= key b else key b <= key a)
                 (Routes.insert_by key asc x l).
Proof.
  induction l as [|y l IH]; intros Hs; cbn.
  - constructor; constructor.
  - inversion Hs as [|y' l' Hl Hy]. subst.
    destruct (if asc then key x <=? key y else key y <=? key x) eqn:E.
    + constructor; [exact Hs|]. constructor.
      * destruct asc; [apply Z.leb_le in E | apply Z.leb_le in E]; exact E.
      * eapply Forall_impl; [|exact Hy]. intros z Hz. cbv beta in *.
        destruct asc; [apply Z.leb_le in E | apply Z.leb_le in E]; lia.
    + constructor; [now apply IH|].
      apply Forall_forall. intros z Hz. apply In_insert_by in Hz.
      destruct Hz as [->|Hz].
      * destruct asc; apply Z.leb_gt in E; lia.
      * revert z Hz. now apply Forall_forall.
Qed.

Lemma sort_by_sorted {A} (key : A -> Z) (asc : bool) l :
  StronglySorted (fun a b => if asc then key a <= key b else key b <= key a)
                 (Routes.sort_by key asc l).
Proof.
  induction l as [|x l IH]; cbn; [constructor|]. now apply insert_by_sorted.
Qed.

Lemma StronglySorted_app {A} (R : A -> A -> Prop) l1 l2 :
  StronglySorted R (l1 ++ l2) -> StronglySorted R l1 /\ StronglySorted R l2.
Proof.
  induction l1 as [|x l1 IH]; cbn; intros Hs.
  - split; [constructor | exact Hs].
  - inversion Hs as [|x' l' Hl Hx]. subst. destruct (IH Hl) as [H1 H2].
    split; [|exact H2]. constructor; [exact H1|].
    apply Forall_app in Hx. tauto.
Qed.

Lemma StronglySorted_firstn {A} (R : A -> A -> Prop) n l :
  StronglySorted R l -> StronglySorted R (firstn n l).
Proof.
  intros Hs. rewrite <- (firstn_skipn n l) in Hs. now apply StronglySorted_app in Hs.
Qed.

Lemma StronglySorted_skipn {A} (R : A -> A -> Prop) n l :
  StronglySorted R l -> StronglySorted R (skipn n l).
Proof.
  intros Hs. rewrite <- (firstn_skipn n l) in Hs. now apply StronglySorted_app in Hs.
Qed.

Lemma skip_limit_sorted {A} (R : A -> A -> Prop) skip limit (l docs : list A) :
  StronglySorted R l -> Routes.skip_limit skip limit l = Normal docs ->
  StronglySorted R docs.
Proof.
  intros Hs. unfold Routes.skip_limit.
  destruct skip as [| |s|], limit as [| |n|]; try discriminate.
  destruct (s <? 0); [discriminate|].
  destruct (n =? 0); intros [= <-].
  - now apply StronglySorted_skipn.
  - now apply StronglySorted_firstn, StronglySorted_skipn.
Qed.

End Ordering.

Section ReadResponses.
Context `{NodeCrypto}.
Variable parseInt : value -> number.
Variable cast_condition : value -> completion (Post.doc -> bool).
Variable e : env.

Lemma decrypt_comments_listed docs : forall g,
  fst (Routes.decrypt_comments e docs g) = Normal (List.map Routes.listed_comment docs).
Proof.
  induction docs as [|c docs IH]; intros g; [reflexivity|].
  cbn [Routes.decrypt_comments].
  pose proof (proj2 (decryptContent_stored_string e (Comment.content c) g)) as Hd.
  destruct (Comment.decryptContent e (VStr (Comment.content c)) g) as [t g1].
  cbn [fst] in Hd. subst t.
  specialize (IH g1).
  destruct (Routes.decrypt_comments e docs g1) as [rest g2].
  cbn [fst] in IH. subst rest. reflexivity.
Qed.

(** The field and the direction of the sort of the list route. *)
Lemma get_posts_found posts now g query :
  exists docs pages,
    Routes.response_posts (fst (Routes.get_posts parseInt cast_condition e posts now g query))
    = List.map (Routes.listed [("totalPages", VNum pages);
                               ("currentPage", VNum (Routes.effective_page parseInt query))])
               docs
    /\ Forall (fun p => In p posts /\ Routes.live now p = true
                        /\ forall c, obj_get query "category" = VStr c ->
                                     c <> [] -> c <> js "all" -> Post.category p = c)
              docs
    /\ StronglySorted
         (fun a b =>
            let field := match obj_get query "sort" with
                         | VStr s =>
                             if existsb (str_eqb s)
                                  [js "createdAt"; js "likes"; js "commentCount"]
                             then s else js "createdAt"
                         | _ => js "createdAt"
                         end in
            if is_string (obj_get query "order") "asc"
            then Routes.sort_key field a <= Routes.sort_key field b
            else Routes.sort_key field b <= Routes.sort_key field a)
         docs.
Proof.
  unfold Routes.get_posts. cbv zeta.
  assert (Hfield :
    match (if truthy (obj_get query "sort") then obj_get query "sort"
           else VStr (js "createdAt")) with
    | VStr s => if existsb (str_eqb s) [js "createdAt"; js "likes"; js "commentCount"]
                then s else js "createdAt"
    | _ => js "createdAt"
    end
    = match obj_get query "sort" with
      | VStr s => if existsb (str_eqb s) [js "createdAt"; js "likes"; js "commentCount"]
                  then s else js "createdAt"
      | _ => js "createdAt"
      end).
  { destruct (obj_get query "sort") as [| |b|n|[|u s]| | | |]; try reflexivity.
    - destruct b; reflexivity.
    - destruct (truthy (VNum n)); reflexivity. }
  rewrite Hfield. clear Hfield.
  set (limit := Routes.effective_limit parseInt query).
  match goal with
  | |- context [bind (if ?b then ?x else ?y) _] =>
      destruct (if b then x else y) as [cond|err] eqn:Econd
  end; cbn [bind].
  2:{ exists [], NaN. cbn. split; [reflexivity|]. split; constructor. }
  destruct (Routes.skip_limit _ limit _) as [docs|err] eqn:Hs; cbn [bind].
  2:{ exists [], NaN. cbn. split; [reflexivity|]. split; constructor. }
  match goal with
  | |- context [Routes.decrypt_posts e ?ex docs g] =>
      pose proof (decrypt_posts_listed e ex docs g) as Hd;
      destruct (Routes.decrypt_posts e ex docs g) as [dec g']
  end.
  cbn [fst] in Hd. subst dec. cbn [fst].
  eexists docs, _. split; [reflexivity|]. split.
  - apply Forall_forall. intros p Hp.
    apply (skip_limit_incl _ _ _ _ Hs) in Hp.
    apply In_sort_by in Hp. apply filter_In in Hp. destruct Hp as [Hin Hf].
    split; [exact Hin|]. split; [eapply list_filter_live; eauto|].
    intros c Hc Hne Hall. rewrite Hc in Econd.
    destruct c as [|u c]; [congruence|].
    cbn [truthy andb is_string] in Econd.
    destruct (str_eqb (u :: c) (js "all")) eqn:Eall.
    + apply str_eqb_eq in Eall. congruence.
    + cbn [negb Routes.category_condition] in Econd. injection Econd as <-.
      unfold Routes.list_filter in Hf. apply andb_true_iff in Hf.
      destruct Hf as [_ Hcat]. now apply str_eqb_eq.
  - eapply skip_limit_sorted; [|exact Hs]. apply sort_by_sorted.
Qed.

Lemma get_category_found posts now1 now2 g category query :
  exists docs,
    Routes.response_posts
      (fst (Routes.get_category parseInt e posts now1 now2 g category query))
    = List.map (Routes.listed []) docs
    /\ Forall (fun p => In p posts /\ Routes.live now1 p = true
                        /\ Post.category p = category) docs
    /\ StronglySorted (fun a b => Post.createdAt b <= Post.createdAt a) docs.
Proof.
  unfold Routes.get_category.
  destruct (negb _); [exists []; cbn; split; [reflexivity|]; split; constructor|].
  match goal with
  | |- context [Routes.skip_limit ?sk ?li ?l] =>
      destruct (Routes.skip_limit sk li l) as [docs|err] eqn:Hs
  end; [|exists []; cbn; split; [reflexivity|]; split; constructor].
  pose proof (decrypt_posts_listed e [] docs g) as Hd.
  destruct (Routes.decrypt_posts e [] docs g) as [dec g'].
  exists docs. cbn [fst] in Hd. subst dec. cbn. split; [reflexivity|]. split.
  - apply Forall_forall. intros p Hp. apply (skip_limit_incl _ _ _ _ Hs) in Hp.
    apply In_sort_by in Hp. apply filter_In in Hp. destruct Hp as [Hin Hf].
    split; [exact Hin|]. split; [eapply list_filter_live; eauto|].
    unfold Routes.list_filter in Hf. apply andb_true_iff in Hf.
    destruct Hf as [_ Hcat]. now apply str_eqb_eq.
  - eapply skip_limit_sorted; [|exact Hs].
    apply (sort_by_sorted Post.createdAt false).
Qed.

(** X15.  The list route returns stored posts that are live at the time of
    the query, of the category asked for when the query names one other
    than 'all', in the order of the field asked for when that is
    [createdAt], [likes] or [commentCount] and of [createdAt] otherwise;
    the order is ascending only when the query says 'asc'. *)
Theorem list_route_filters_and_orders posts now g query :
  exists docs extra,
    Routes.response_posts (fst (Routes.get_posts parseInt cast_condition e posts now g query))
    = List.map (Routes.listed extra) docs
    /\ Forall (fun p => In p posts /\ Routes.live now p = true) docs
    /\ (forall c, obj_get query "category" = VStr c -> c <> [] -> c <> js "all" ->
                  Forall (fun p => Post.category p = c) docs)
    /\ StronglySorted
         (fun a b =>
            let field := match obj_get query "sort" with
                         | VStr s =>
                             if existsb (str_eqb s)
                                  [js "createdAt"; js "likes"; js "commentCount"]
                             then s else js "createdAt"
                         | _ => js "createdAt"
                         end in
            if is_string (obj_get query "order") "asc"
            then Routes.sort_key field a <= Routes.sort_key field b
            else Routes.sort_key field b <= Routes.sort_key field a)
         docs.
Proof.
  destruct (get_posts_found posts now g query) as (docs & pages & Hr & Hall & Hsorted).
  exists docs. eexists. split; [exact Hr|]. split; [|split; [|exact Hsorted]].
  - eapply Forall_impl; [|exact Hall]. cbv beta. tauto.
  - intros c Hc Hne Hnall. eapply Forall_impl; [|exact Hall]. cbv beta.
    intros p (_ & _ & Hcat). now apply Hcat.
Qed.

(** X16.  The category route returns stored posts of its category only, live
    at the time of the query, the newest first; a category outside the
    seven names is answered 400. *)
Theorem category_route_lists_its_category posts now1 now2 g category query :
  (existsb (str_eqb category) Routes.validCategories = false ->
   fst (Routes.get_category parseInt e posts now1 now2 g category query)
   = Routes.json 400 [("error", VStr (js "Invalid category"))])
  /\ exists docs,
       Routes.response_posts
         (fst (Routes.get_category parseInt e posts now1 now2 g category query))
       = List.map (Routes.listed []) docs
       /\ Forall (fun p => In p posts /\ Routes.live now1 p = true
                           /\ Post.category p = category) docs
       /\ StronglySorted (fun a b => Post.createdAt b <= Post.createdAt a) docs.
Proof.
  split; [|apply get_category_found].
  intros Hc. unfold Routes.get_category. rewrite Hc. reflexivity.
Qed.

(** The answer 200 of the single-post route, as the queries make it. *)
Lemma get_post_response posts comments now1 now2 g postId :
  Routes.status (fst (Routes.get_post e posts comments now1 now2 g postId)) = 200 ->
  exists post,
    List.find (fun p => oid_eqb (Post._id p) (Buffer.from_hex postId)
                        && Routes.list_filter now1 (fun _ => true) p) posts = Some post
    /\ fst (Routes.get_post e posts comments now1 now2 g postId)
       = Routes.json 200
           [("post", Routes.listed [] post);
            ("comments",
             VArr (List.map Routes.listed_comment
                     (firstn 100
                        (Routes.sort_by Comment.createdAt true
                           (List.filter
                              (fun c => match Comment.postId c with
                                        | Some pid => oid_eqb pid (Buffer.from_hex postId)
                                        | None => false
                                        end
                                        && negb (Comment.isDeleted c)
                                        && negb (Comment.isFlagged c)
                                        && Routes.expires_after now2 (Comment.expiresAt c))
                              comments)))))].
Proof.
  unfold Routes.get_post.
  destruct (negb _); [cbn; discriminate|].
  destruct (find _ posts) as [post|] eqn:Ef; [|cbn; discriminate].
  pose proof (proj1 (decryptContent_stored_string e (Post.content post) g)) as Hd.
  destruct (Post.decryptContent e (VStr (Post.content post)) g) as [t g1].
  cbn [fst] in Hd. subst t.
  match goal with
  | |- context [Routes.decrypt_comments e ?cs g1] =>
      pose proof (decrypt_comments_listed cs g1) as Hc;
      destruct (Routes.decrypt_comments e cs g1) as [dec g2]
  end.
  cbn [fst] in Hc. subst dec. cbn [fst]. intros _.
  exists post. split; reflexivity.
Qed.

(** X17.  When the single-post route answers 200, the post is a stored post
    of the given identifier that is live at the time of the query, and the
    comments are at most a hundred stored comments of that post, none of
    them soft-deleted, flagged or expired, the oldest first. *)
Theorem single_post_route_shows_live_comments posts comments now1 now2 g postId :
  Routes.status (fst (Routes.get_post e posts comments now1 now2 g postId)) = 200 ->
  exists post found,
    fst (Routes.get_post e posts comments now1 now2 g postId)
    = Routes.json 200 [("post", Routes.listed [] post);
                       ("comments", VArr (List.map Routes.listed_comment found))]
    /\ In post posts /\ Post._id post = Buffer.from_hex postId
    /\ Routes.live now1 post = true
    /\ (List.length found <= 100)%nat
    /\ Forall (fun c => In c comments
                        /\ Comment.postId c = Some (Buffer.from_hex postId)
                        /\ Comment.isDeleted c = false /\ Comment.isFlagged c = false
                        /\ Routes.expires_after now2 (Comment.expiresAt c) = true) found
    /\ StronglySorted (fun a b => Comment.createdAt a <= Comment.createdAt b) found.
Proof.
  intros H200.
  destruct (get_post_response posts comments now1 now2 g postId H200) as (post & Ef & Hr).
  eexists post, _. split; [exact Hr|].
  apply find_some in Ef. destruct Ef as [Hin Hcond].
  apply andb_true_iff in Hcond. destruct Hcond as [Hid Hlive].
  split; [exact Hin|]. split; [now apply oid_eqb_eq|].
  split; [eapply list_filter_live; eauto|].
  split; [apply firstn_le_length|].
  split.
  - apply Forall_forall. intros c Hc.
    apply In_firstn in Hc. apply In_sort_by in Hc. apply filter_In in Hc.
    destruct Hc as [Hcin Hf]. split; [exact Hcin|].
    repeat (apply andb_true_iff in Hf; destruct Hf as [Hf ?]).
    destruct (Comment.postId c) as [pid|]; [|discriminate].
    apply oid_eqb_eq in Hf. subst pid.
    repeat split; auto; now apply negb_true_iff.
  - apply StronglySorted_firstn.
    apply (sort_by_sorted Comment.createdAt true).
Qed.

Lemma listed_content extra p :
  extra = [] \/ (exists a b, extra = [("totalPages", a); ("currentPage", b)]) ->
  field (Routes.listed extra p) "content" = VStr Post.placeholder.
Proof.
  intros [->|(a & b & ->)]; unfold Routes.listed, obj_spread; cbn [field fold_left fst snd].
  - apply obj_get_set_same.
  - rewrite !obj_get_set_other by reflexivity. apply obj_get_set_same.
Qed.

(** X18.  The read routes hand the stored content of a document, a string,
    to [decryptContent], which finds no [authTag] in it: every post of the
    list route and of the category route, and the post and every comment of
    the single-post route, carries the placeholder
    '[Content could not be decrypted]' as its content. *)
Theorem read_routes_show_placeholder posts comments now1 now2 g query category postId :
  (forall item,
      In item (Routes.response_posts
                 (fst (Routes.get_posts parseInt cast_condition e posts now1 g query))) ->
      field item "content" = VStr Post.placeholder)
  /\ (forall item,
      In item (Routes.response_posts
                 (fst (Routes.get_category parseInt e posts now1 now2 g category query))) ->
      field item "content" = VStr Post.placeholder)
  /\ (Routes.status (fst (Routes.get_post e posts comments now1 now2 g postId)) = 200 ->
      field (field (Routes.body (fst (Routes.get_post e posts comments now1 now2 g postId)))
                   "post") "content" = VStr Post.placeholder
      /\ exists items,
           field (Routes.body (fst (Routes.get_post e posts comments now1 now2 g postId)))
                 "comments" = VArr items
           /\ Forall (fun item => field item "content" = VStr Post.placeholder) items).
Proof.
  split; [|split].
  - destruct (get_posts_found posts now1 g query) as (docs & pages & Hr & _).
    rewrite Hr. intros item Hi. apply in_map_iff in Hi. destruct Hi as (p & <- & _).
    apply listed_content. right. eauto.
  - destruct (get_category_found posts now1 now2 g category query) as (docs & Hr & _).
    rewrite Hr. intros item Hi. apply in_map_iff in Hi. destruct Hi as (p & <- & _).
    apply listed_content. now left.
  - intros H200.
    destruct (get_post_response posts comments now1 now2 g postId H200)
      as (post & _ & Hr).
    rewrite Hr. cbn [Routes.json Routes.body field obj_get String.eqb Ascii.eqb Bool.eqb].
    split; [apply listed_content; now left|].
    eexists. split; [reflexivity|].
    apply Forall_forall. intros item Hi. apply in_map_iff in Hi.
    destruct Hi as (c & <- & _).
    unfold Routes.listed_comment, obj_spread. cbn [field fold_left fst snd].
    apply obj_get_set_same.
Qed.

End ReadResponses.

Lemma category_route_lists_its_category_witness :
  existsb (str_eqb (js "politics")) Routes.validCategories = false
  /\ fst (@Routes.get_category Samples.toy_crypto Samples.parseInt Samples.configured
            [Samples.post1] (Samples.t0 + 1000) (Samples.t0 + 1000) Samples.zeros
            (js "politics") [])
     = Routes.json 400 [("error", VStr (js "Invalid category"))].
Proof.
  split; [reflexivity|].
  apply (@category_route_lists_its_category Samples.toy_crypto Samples.parseInt
           Samples.configured [Samples.post1] (Samples.t0 + 1000) (Samples.t0 + 1000)
           Samples.zeros (js "politics") []).
  reflexivity.
Defined.

Lemma single_post_route_shows_live_comments_witness :
  Routes.status
    (fst (@Routes.get_post Samples.toy_crypto Samples.configured [Samples.post1]
            [Samples.dated_comment] (Samples.t0 + 1000) (Samples.t0 + 1000) Samples.zeros
            Samples.oid1_hex)) = 200
  /\ exists post found,
       fst (@Routes.get_post Samples.toy_crypto Samples.configured [Samples.post1]
              [Samples.dated_comment] (Samples.t0 + 1000) (Samples.t0 + 1000) Samples.zeros
              Samples.oid1_hex)
       = Routes.json 200 [("post", Routes.listed [] post);
                          ("comments", VArr (List.map Routes.listed_comment found))]
       /\ In post [Samples.post1] /\ (List.length found <= 100)%nat.
Proof.
  split; [vm_compute; reflexivity|].
  destruct (@single_post_route_shows_live_comments Samples.toy_crypto Samples.configured
              [Samples.post1] [Samples.dated_comment] (Samples.t0 + 1000)
              (Samples.t0 + 1000) Samples.zeros Samples.oid1_hex)
    as (post & found & Hr & Hin & _ & _ & Hlen & _); [vm_compute; reflexivity|].
  exists post, found. auto.
Defined.

Lemma read_routes_show_placeholder_witness :
  Routes.status
    (fst (@Routes.get_post Samples.toy_crypto Samples.configured [Samples.post1]
            [Samples.dated_comment] (Samples.t0 + 1000) (Samples.t0 + 1000) Samples.zeros
            Samples.oid1_hex)) = 200
  /\ field (field (Routes.body
                    (fst (@Routes.get_post Samples.toy_crypto Samples.configured
                            [Samples.post1] [Samples.dated_comment] (Samples.t0 + 1000)
                            (Samples.t0 + 1000) Samples.zeros Samples.oid1_hex)))
                  "post") "content"
     = VStr Post.placeholder.
Proof.
  split; [vm_compute; reflexivity|].
  destruct (@read_routes_show_placeholder Samples.toy_crypto Samples.parseInt
              (fun _ => Throw (Error "Cast to string failed")) Samples.configured
              [Samples.post1] [Samples.dated_comment] (Samples.t0 + 1000)
              (Samples.t0 + 1000) Samples.zeros [] (js "general") Samples.oid1_hex)
    as (_ & _ & Hpost).
  destruct Hpost as [Hcontent _]; [vm_compute; reflexivity | exact Hcontent].
Defined.

(** ** Statistics and pagination *)

Section Counting.

Lemma filter_length {A} (f : A -> bool) l :
  (List.length (List.filter f l) <= List.length l)%nat.
Proof.
  induction l as [|x l IH]; cbn; [lia|]. destruct (f x); cbn; lia.
Qed.

Lemma distinct_length l : (List.length (Routes.distinct l) <= List.length l)%nat.
Proof.
  induction l as [|x l IH]; cbn; [lia|].
  pose proof (filter_length (fun y => negb (str_eqb x y)) (Routes.distinct l)). lia.
Qed.

(** X19.  The statistics are consistent with one another: the posts of the
    last 24 hours are among the posts counted in total, there are no more
    active categories than posts, there is a category as soon as there is
    a post, and no count exceeds the size of its collection. *)
Theorem stats_are_consistent posts comments now :
  exists total totalComments today categories,
    Routes.get_stats posts comments now
    = Routes.json 200 [("totalPosts", VNum (Int total));
                       ("totalComments", VNum (Int totalComments));
                       ("postsToday", VNum (Int today));
                       ("activeCategories", VNum (Int categories));
                       ("lastUpdated", VDate now)]
    /\ 0 <= today <= total /\ total <= Z.of_nat (List.length posts)
    /\ 0 <= categories <= total /\ (categories = 0 <-> total = 0)
    /\ 0 <= totalComments <= Z.of_nat (List.length comments).
Proof.
  unfold Routes.get_stats. cbv zeta.
  set (active := List.filter _ posts).
  do 4 eexists. split; [reflexivity|].
  pose proof (filter_length
                (fun p => Routes.stats_filter now (Post.isDeleted p) (Post.expiresAt p))
                posts) as Hactive.
  fold active in Hactive.
  pose proof (filter_length (fun p => now - 24 * 60 * 60 * 1000 <=? Post.createdAt p)
                active) as Htoday.
  pose proof (distinct_length (List.map Post.category active)) as Hcat.
  rewrite length_map in Hcat.
  pose proof (filter_length
                (fun c => Routes.stats_filter now (Comment.isDeleted c) (Comment.expiresAt c))
                comments) as Hcomments.
  split; [lia|]. split; [lia|]. split; [lia|]. split; [|lia].
  clearbody active. destruct active as [|p active']; cbn; split; intros H0; lia.
Qed.

(** X20.  The pagination block of a listing, for a page and a page size of
    at least one: the number of pages is the least that holds every
    post, [hasNext] says that posts remain beyond the current page, and
    [hasPrev] that the page is not the first. *)
Theorem pagination_tells_what_is_left page limit total :
  1 <= page -> 1 <= limit -> 0 <= total ->
  exists pages,
    Routes.pagination (Int page) total (Int limit)
    = VObj [("current", VNum (Int page)); ("total", VNum (Int pages));
            ("hasNext", VBool (page * limit <? total));
            ("hasPrev", VBool (1 <? page))]
    /\ (pages - 1) * limit < total <= pages * limit.
Proof.
  intros Hp Hl Ht. exists (ceil_div total limit).
  unfold Routes.pagination, Routes.total_pages.
  destruct (Z.ltb_spec 0 limit); [|lia].
  unfold num_ltb, ceil_div.
  assert (Hdiv : limit * ((total + limit - 1) / limit) <= total + limit - 1
                 < limit * ((total + limit - 1) / limit) + limit).
  { pose proof (Z.mul_div_le (total + limit - 1) limit ltac:(lia)).
    pose proof (Z.mul_succ_div_gt (total + limit - 1) limit ltac:(lia)). lia. }
  split; [|nia].
  do 4 f_equal. f_equal. f_equal.
  destruct (Z.ltb_spec page ((total + limit - 1) / limit));
    destruct (Z.ltb_spec (page * limit) total); try reflexivity; nia.
Qed.

Lemma pagination_tells_what_is_left_witness :
  exists pages,
    Routes.pagination (Int 2) 45 (Int 20)
    = VObj [("current", VNum (Int 2)); ("total", VNum (Int pages));
            ("hasNext", VBool true); ("hasPrev", VBool true)]
    /\ (pages - 1) * 20 < 45 <= pages * 20.
Proof.
  apply (pagination_tells_what_is_left 2 20 45); lia.
Defined.

End Counting.

(** ** What the validation rules accept *)

Section Rules.
Import RegExp Security.

Lemma exec_seq s a b st : exec s (Seq a b) st = flat_map (exec s b) (exec s a st).
Proof. reflexivity. Qed.

Lemma exec_quant s r lo hi st :
  exec s (Quant r lo hi) st
  = flat_map (optional (exec s r) (match hi with
                                   | Some h => (h - lo)%nat
                                   | None => List.length s
                                   end))
             (times (exec s r) lo st).
Proof. reflexivity. Qed.

Lemma exec_group s n r st :
  exec s (Group n r) st
  = List.map (fun st' => capture n (substring s (pos st) (pos st')) st') (exec s r st).
Proof. reflexivity. Qed.

Lemma exec_chr s p st u :
  nth_error s (pos st) = Some u -> p u = true -> exec s (Chr p) st = [advance 1 st].
Proof. intros Hu Hp. cbn [exec]. now rewrite Hu, Hp. Qed.

Lemma exec_bol s st : exec s Bol st = if Nat.eqb (pos st) 0 then [st] else [].
Proof. reflexivity. Qed.

Lemma exec_eol s st :
  exec s Eol st = if Nat.eqb (pos st) (List.length s) then [st] else [].
Proof. reflexivity. Qed.

Lemma optional_head step budget st : exists rest, optional step budget st = st :: rest.
Proof. destruct budget; cbn; eauto. Qed.

Lemma test_here r s i :
  (i <= List.length s)%nat -> exec s r {| pos := i; caps := [] |} <> [] ->
  test r s = true.
Proof.
  intros Hi Hne. unfold test. apply existsb_exists. exists i.
  split; [apply in_seq; lia|]. unfold matches_at.
  destruct (exec s r _); [congruence | reflexivity].
Qed.

Lemma nth_error_middle {A} (pre w post : list A) i :
  (i < List.length w)%nat ->
  nth_error (pre ++ w ++ post) (List.length pre + i) = nth_error w i.
Proof.
  intros Hi. rewrite nth_error_app2 by lia.
  replace (List.length pre + i - List.length pre)%nat with i by lia.
  now rewrite nth_error_app1.
Qed.

(** A run of [n] characters of a class matches [{n,}] of the class. *)
Lemma at_least_matches p n pre w post :
  (n <= List.length w)%nat -> forallb p w = true ->
  test (at_least n (Chr p)) (pre ++ w ++ post) = true.
Proof.
  intros Hn Hw. apply (test_here _ _ (List.length pre)).
  - rewrite length_app. lia.
  - unfold at_least. rewrite exec_quant, times_chr_all.
    + cbn [flat_map].
      destruct (optional_head (exec (pre ++ w ++ post) (Chr p))
                  (List.length (pre ++ w ++ post))
                  (advance n {| pos := List.length pre; caps := [] |})) as [rest ->].
      discriminate.
    + intros i Hi. cbn [pos]. rewrite nth_error_middle by lia.
      destruct (nth_error w i) as [u|] eqn:Eu.
      * exists u. split; [reflexivity|]. apply nth_error_In in Eu.
        revert u Eu. now apply forallb_forall.
      * apply nth_error_None in Eu. lia.
Qed.

(** X21.  A content that holds twenty capital letters in a row, anywhere, is
    refused as spam in a post, and one that holds fifteen is refused in a
    comment. *)
Theorem capitals_in_a_row_are_spam pre caps post :
  forallb (range "A" "Z") caps = true ->
  ((20 <= List.length caps)%nat ->
   postContentCustom (pre ++ caps ++ post) = Throw (Error "Content appears to be spam"))
  /\ ((15 <= List.length caps)%nat ->
      commentContentCustom (pre ++ caps ++ post)
      = Throw (Error "Comment appears to be spam")).
Proof.
  intros Hcaps. split; intros Hlen.
  - unfold postContentCustom.
    assert (Hex : existsb (fun pattern => test pattern (pre ++ caps ++ post))
                          postSpamPatterns = true).
    { apply existsb_exists. exists (all_caps 20). split; [cbn; tauto|].
      now apply at_least_matches. }
    now rewrite Hex.
  - unfold commentContentCustom.
    assert (Hex : existsb (fun pattern => test pattern (pre ++ caps ++ post))
                          commentSpamPatterns = true).
    { apply existsb_exists. exists (all_caps 15). split; [cbn; tauto|].
      now apply at_least_matches. }
    now rewrite Hex.
Qed.

Lemma capitals_in_a_row_are_spam_witness :
  forallb (range "A" "Z") (js "AAAAAAAAAAAAAAAAAAAA") = true
  /\ (20 <= List.length (js "AAAAAAAAAAAAAAAAAAAA"))%nat
  /\ postContentCustom (js "so " ++ js "AAAAAAAAAAAAAAAAAAAA" ++ js " it is")
     = Throw (Error "Content appears to be spam").
Proof.
  split; [reflexivity|]. split; [cbn; lia|].
  apply (capitals_in_a_row_are_spam (js "so ") (js "AAAAAAAAAAAAAAAAAAAA") (js " it is"));
    [reflexivity | cbn; lia].
Defined.

Lemma substring_one s i c :
  nth_error s i = Some c -> substring s i (i + 1) = [c].
Proof.
  unfold substring. replace (i + 1 - i)%nat with 1%nat by lia.
  revert i. induction s as [|u s IH]; intros [|i]; cbn; try discriminate.
  - now intros [= ->].
  - apply IH.
Qed.

Lemma times_backref s c n : forall st,
  captured 1 st = [c] ->
  (forall i, (i < n)%nat -> nth_error s (pos st + i) = Some c) ->
  times (exec s (Backref 1)) n st = [advance n st].
Proof.
  induction n as [|n IH]; intros st Hcap Hall.
  - cbn. destruct st. unfold advance. cbn. now rewrite Nat.add_0_r.
  - cbn [times exec]. rewrite Hcap. cbn [List.length].
    rewrite (substring_one s (pos st) c).
    + cbn [str_eqb]. rewrite Z.eqb_refl. cbn [andb flat_map].
      rewrite app_nil_r, IH.
      * unfold advance. cbn. do 2 f_equal. lia.
      * exact Hcap.
      * intros i Hi. cbn.
        replace (pos st + 1 + i)%nat with (pos st + S i)%nat by lia.
        apply Hall. lia.
    + rewrite <- (Nat.add_0_r (pos st)). apply Hall. lia.
Qed.

(** X22.  A content that holds the same UTF-16 code unit eleven times in a
    row (any code unit but a line terminator), anywhere, is refused as spam
    in a post and in a comment.  The pattern compares code units: a
    character outside the Basic Multilingual Plane is two code units, and
    repeating it repeats none. *)
Theorem repeated_character_is_spam pre c n post :
  (11 <= n)%nat -> dot c = true ->
  postContentCustom (pre ++ repeat c n ++ post) = Throw (Error "Content appears to be spam")
  /\ commentContentCustom (pre ++ repeat c n ++ post)
     = Throw (Error "Comment appears to be spam").
Proof.
  intros Hn Hdot.
  assert (Ht : test repeated_characters (pre ++ repeat c n ++ post) = true).
  { apply (test_here _ _ (List.length pre)).
    - rewrite length_app. lia.
    - assert (Hnth : forall i, (i < n)%nat ->
                nth_error (pre ++ repeat c n ++ post) (List.length pre + i) = Some c).
      { intros i Hi. rewrite nth_error_middle by (rewrite repeat_length; lia).
        rewrite nth_error_repeat by lia. reflexivity. }
      assert (H0 : nth_error (pre ++ repeat c n ++ post) (List.length pre) = Some c).
      { rewrite <- (Nat.add_0_r (List.length pre)). apply Hnth. lia. }
      unfold repeated_characters, at_least.
      rewrite exec_seq, exec_group, (exec_chr _ _ _ c) by (cbn [pos]; auto).
      cbn [List.map flat_map advance pos]. rewrite app_nil_r.
      rewrite (substring_one _ _ c) by exact H0.
      rewrite exec_quant, (times_backref _ c).
      + cbn [flat_map].
        match goal with
        | |- optional ?step ?b ?st ++ [] <> [] =>
            destruct (optional_head step b st) as [rest ->]
        end.
        discriminate.
      + reflexivity.
      + intros i Hi. cbn [capture advance pos].
        replace (List.length pre + 1 + i)%nat with (List.length pre + S i)%nat by lia.
        apply Hnth. lia. }
  split.
  - unfold postContentCustom.
    assert (Hex : existsb (fun pattern => test pattern (pre ++ repeat c n ++ post))
                          postSpamPatterns = true).
    { apply existsb_exists. exists repeated_characters. split; [cbn; tauto | exact Ht]. }
    now rewrite Hex.
  - unfold commentContentCustom.
    assert (Hex : existsb (fun pattern => test pattern (pre ++ repeat c n ++ post))
                          commentSpamPatterns = true).
    { apply existsb_exists. exists repeated_characters. split; [cbn; tauto | exact Ht]. }
    now rewrite Hex.
Qed.

Lemma repeated_character_is_spam_witness :
  (11 <= 11)%nat /\ dot (code_unit "!") = true
  /\ commentContentCustom (js "wow" ++ repeat (code_unit "!") 11 ++ js "")
     = Throw (Error "Comment appears to be spam").
Proof.
  split; [lia|]. split; [reflexivity|].
  apply (repeated_character_is_spam (js "wow") (code_unit "!") 11 (js ""));
    [lia | reflexivity].
Defined.

(** U+1F600, which is a surrogate pair, twenty times in a row: both
    validators accept it. *)
Example repeated_surrogate_pair_is_not_spam :
  postContentCustom (List.concat (repeat [0xD83D; 0xDE00] 20)) = Normal true
  /\ commentContentCustom (List.concat (repeat [0xD83D; 0xDE00] 20)) = Normal true.
Proof. split; vm_compute; reflexivity. Qed.

Lemma advance_zero st : advance 0 st = st.
Proof. destruct st. unfold advance. cbn. now rewrite Nat.add_0_r. Qed.

Lemma advance_plus n m st : advance n (advance m st) = advance (m + n) st.
Proof. unfold advance. cbn. f_equal. lia. Qed.

(** The optional repetitions of a character class read code units of the
    class, and reach every position up to which the subject holds nothing
    else. *)
Lemma optional_chr_inv s p budget : forall st st',
  In st' (optional (exec s (Chr p)) budget st) ->
  exists k, st' = advance k st
            /\ forall i, (i < k)%nat ->
                 exists u, nth_error s (pos st + i) = Some u /\ p u = true.
Proof.
  induction budget as [|budget IH]; intros st st' Hin; cbn [optional] in Hin.
  - destruct Hin as [<-|[]]. exists 0%nat. split; [now rewrite advance_zero | lia].
  - destruct Hin as [<-|Hin].
    + exists 0%nat. split; [now rewrite advance_zero | lia].
    + apply in_flat_map in Hin. destruct Hin as (st1 & H1 & Hin).
      apply filter_In in H1. destruct H1 as [H1 _].
      cbn [exec] in H1.
      destruct (nth_error s (pos st)) as [u|] eqn:Eu; [|destruct H1].
      destruct (p u) eqn:Ep; [|destruct H1].
      destruct H1 as [<-|[]].
      apply IH in Hin. destruct Hin as (k & -> & Hall).
      exists (S k). split; [now rewrite advance_plus|].
      intros [|i] Hi.
      * exists u. now rewrite Nat.add_0_r.
      * destruct (Hall i ltac:(lia)) as (v & Hv & Hpv). exists v. split; [|exact Hpv].
        cbn in Hv. now replace (pos st + S i)%nat with (pos st + 1 + i)%nat by lia.
Qed.

Lemma optional_chr_reach s p : forall k budget st,
  (k <= budget)%nat ->
  (forall i, (i < k)%nat -> exists u, nth_error s (pos st + i) = Some u /\ p u = true) ->
  In (advance k st) (optional (exec s (Chr p)) budget st).
Proof.
  induction k as [|k IH]; intros budget st Hk Hall.
  - rewrite advance_zero. destruct (optional_head (exec s (Chr p)) budget st) as [rest ->].
    now left.
  - destruct budget as [|budget]; [lia|]. cbn [optional]. right.
    apply in_flat_map. exists (advance 1 st). split.
    + apply filter_In. split.
      * destruct (Hall 0%nat ltac:(lia)) as (u & Hu & Hp).
        rewrite Nat.add_0_r in Hu. rewrite (exec_chr s p st u Hu Hp). now left.
      * apply Nat.ltb_lt. cbn. lia.
    + replace (advance (S k) st) with (advance k (advance 1 st))
        by now rewrite advance_plus.
      apply IH; [lia|]. intros i Hi.
      destruct (Hall (S i) ltac:(lia)) as (v & Hv & Hpv). exists v. split; [|exact Hpv].
      cbn. now replace (pos st + 1 + i)%nat with (pos st + S i)%nat by lia.
Qed.

(** A pattern [^[class]+$] accepts the strings that are not empty and
    hold code units of the class only. *)
Lemma anchored_class_spec p s :
  test (Seq Bol (Seq (plus (Chr p)) Eol)) s = true <-> s <> [] /\ forallb p s = true.
Proof.
  split.
  - unfold test. intros Ht. apply existsb_exists in Ht. destruct Ht as (i & _ & Hm).
    unfold matches_at in Hm. rewrite exec_seq, exec_bol in Hm. cbn [pos] in Hm.
    destruct i as [|i]; [|discriminate Hm].
    cbn [Nat.eqb flat_map] in Hm. rewrite app_nil_r in Hm.
    match type of Hm with
    | match ?l with _ => _ end = true => destruct l as [|st' l'] eqn:El; [discriminate|]
    end.
    assert (Hin : In st' (st' :: l')) by now left.
    rewrite <- El in Hin. rewrite exec_seq in Hin.
    apply in_flat_map in Hin. destruct Hin as (st2 & H2 & Hin).
    unfold plus in H2. rewrite exec_quant in H2.
    apply in_flat_map in H2. destruct H2 as (st1 & H1 & H2).
    apply times_chr_inv in H1. destruct H1 as [-> Hfirst].
    apply optional_chr_inv in H2. destruct H2 as (k & -> & Hrest).
    rewrite exec_eol in Hin. cbn [pos advance] in Hin.
    destruct (Nat.eqb_spec (0 + 1 + k) (List.length s)) as [Hlen|]; [|destruct Hin].
    split; [destruct s; [discriminate Hlen | discriminate]|].
    apply forallb_forall. intros u Hu.
    apply In_nth_error in Hu. destruct Hu as (j & Hj).
    assert (Hjlen : (j < List.length s)%nat) by (apply nth_error_Some; congruence).
    destruct j as [|j].
    + destruct (Hfirst 0%nat ltac:(lia)) as (v & Hv & Hp). cbn [pos Nat.add] in Hv.
      rewrite Hj in Hv. now injection Hv as ->.
    + destruct (Hrest j ltac:(lia)) as (v & Hv & Hp). cbn [pos advance Nat.add] in Hv.
      rewrite Hj in Hv. now injection Hv as ->.
  - intros [Hne Hall].
    assert (Hnth : forall i, (i < List.length s)%nat ->
               exists u, nth_error s i = Some u /\ p u = true).
    { intros i Hi. destruct (nth_error s i) as [u|] eqn:Eu.
      - exists u. split; [reflexivity|]. apply nth_error_In in Eu.
        revert u Eu. now apply forallb_forall.
      - apply nth_error_None in Eu. lia. }
    assert (Hlen : (1 <= List.length s)%nat) by (destruct s; [congruence | cbn; lia]).
    apply (test_here _ _ 0%nat); [lia|].
    rewrite exec_seq, exec_bol. cbn [pos Nat.eqb flat_map]. rewrite app_nil_r.
    rewrite exec_seq. unfold plus. rewrite exec_quant.
    rewrite times_chr_all by (intros i Hi; cbn [pos]; apply Hnth; lia).
    cbn [flat_map]. rewrite app_nil_r.
    intros Hnil.
    assert (Hin : In (advance (List.length s - 1) (advance 1 {| pos := 0; caps := [] |}))
                     (optional (exec s (Chr p)) (List.length s)
                               (advance 1 {| pos := 0; caps := [] |}))).
    { apply optional_chr_reach; [lia|]. intros i Hi. cbn [pos advance]. apply Hnth. lia. }
    assert (Hout : In (advance (List.length s - 1) (advance 1 {| pos := 0; caps := [] |}))
                      (flat_map (exec s Eol)
                         (optional (exec s (Chr p)) (List.length s)
                                   (advance 1 {| pos := 0; caps := [] |})))).
    { apply in_flat_map. eexists. split; [exact Hin|].
      rewrite exec_eol. cbn [pos advance].
      replace (0 + 1 + (List.length s - 1))%nat with (List.length s) by lia.
      rewrite Nat.eqb_refl. now left. }
    rewrite Hnil in Hout. destruct Hout.
Qed.

Lemma In_check f m f' msg ok : In (f, m) (check f' msg ok) -> f = f' /\ ok = false.
Proof.
  unfold check. destruct ok; [intros []|]. intros [E|[]].
  injection E as <- _. auto.
Qed.

Lemma In_custom f m f' c : In (f, m) (custom f' c) -> f = f' /\ c <> Normal true.
Proof.
  unfold custom. destruct c as [[|]|[msg|msg]]; cbn; intros Hin.
  - contradiction.
  - destruct Hin as [E|[]]. injection E as <- _. split; [reflexivity | discriminate].
  - destruct Hin as [E|[]]. injection E as <- _. split; [reflexivity | discriminate].
  - destruct Hin as [E|[]]. injection E as <- _. split; [reflexivity | discriminate].
Qed.

(** X23.  The rules leave no error on the title exactly when its length, a
    surrogate pair counting once and a variation selector not at all, is
    between 3 and 200, and each of its code units is an ASCII letter or
    digit, white space, an accented letter of the two ranges of the
    pattern, or one of [.,!?()-]. *)
Theorem title_is_accepted_iff req :
  (forall message, ~ In ("title", message) (postValidationRules req))
  <-> isLength 3 200 (title req) = true
      /\ Forall (fun u => alphanumeric u || white_space u || accented u
                          || existsb (Z.eqb u) (js ".,!?()-") = true)
                (title req).
Proof.
  unfold postValidationRules. split.
  - intros Hnone.
    assert (Hlen : isLength 3 200 (title req) = true).
    { destruct (isLength 3 200 (title req)) eqn:E; [reflexivity|].
      exfalso. apply (Hnone "Title must be between 3 and 200 characters"). now left. }
    assert (Hfmt : test title_format (title req) = true).
    { destruct (test title_format (title req)) eqn:E; [reflexivity|].
      exfalso. apply (Hnone "Title contains invalid characters").
      rewrite Hlen. now left. }
    split; [exact Hlen|].
    apply anchored_class_spec in Hfmt. destruct Hfmt as [_ Hall].
    apply Forall_forall. intros u Hu. revert u Hu. now apply forallb_forall.
  - intros [Hlen Hall] message Hin.
    assert (Hfmt : test title_format (title req) = true).
    { apply anchored_class_spec. split.
      - intros Hnil. rewrite Hnil in Hlen. discriminate Hlen.
      - apply forallb_forall. intros u Hu. revert u Hu. now apply Forall_forall. }
    rewrite Hlen, Hfmt in Hin. cbn [check app] in Hin.
    repeat (apply in_app_or in Hin; destruct Hin as [Hin|Hin]);
      try (apply In_check in Hin; destruct Hin as [Hf _]; discriminate Hf);
      try (apply In_custom in Hin; destruct Hin as [Hf _]; discriminate Hf).
    destruct (tags req) as [items|]; [|destruct Hin].
    apply in_app_or in Hin. destruct Hin as [Hin|Hin].
    + apply In_check in Hin. destruct Hin as [Hf _]. discriminate Hf.
    + apply In_custom in Hin. destruct Hin as [Hf _]. discriminate Hf.
Qed.

Lemma tagsCustom_spec items :
  tagsCustom items = Normal true
  <-> Forall (fun v => exists tag,
                v = VStr tag /\ (List.length tag <= 50)%nat /\ tag <> []
                /\ Forall (fun u => alphanumeric u || accented u || white_space u
                                    || (u =? code_unit "-") = true) tag)
             items.
Proof.
  induction items as [|v items IH]; cbn [tagsCustom].
  - split; [constructor | reflexivity].
  - destruct v as [| |b|n|tag|ms|oid|items'|fields];
      try (split; [discriminate | intros Hf; inversion Hf as [|? ? Hhd _];
                                  destruct Hhd as (t & Ht & _); discriminate Ht]).
    destruct (Z.ltb_spec 50 (Z.of_nat (List.length tag))) as [Hlong|Hshort].
    { split; [discriminate|]. intros Hf. inversion Hf as [|? ? Hhd _].
      destruct Hhd as (t & Ht & Hl & _). injection Ht as <-. lia. }
    destruct (test tag_format tag) eqn:Efmt; cbn [negb].
    + apply anchored_class_spec in Efmt. destruct Efmt as [Hne Hall].
      rewrite IH. split.
      * intros Hrest. constructor; [|exact Hrest].
        exists tag. split; [reflexivity|]. split; [lia|]. split; [exact Hne|].
        apply Forall_forall. intros u Hu. revert u Hu. now apply forallb_forall.
      * intros Hf. now inversion Hf.
    + split; [discriminate|]. intros Hf.
      inversion Hf as [|? ? Hhd _]. destruct Hhd as (t & Ht & _ & Hne & Hall).
      injection Ht as <-.
      assert (Ht : test tag_format tag = true).
      { apply anchored_class_spec. split; [exact Hne|].
        apply forallb_forall. intros u Hu. revert u Hu. now apply Forall_forall. }
      congruence.
Qed.

(** X24.  The rules leave no error on the tags exactly when the field is
    absent, or holds at most five tags each of which is a string of one to
    fifty code units, all of them ASCII letters or digits, accented
    letters of the two ranges, white space or hyphens. *)
Theorem tags_are_accepted_iff req :
  (forall message, ~ In ("tags", message) (postValidationRules req))
  <-> match tags req with
      | None => True
      | Some items =>
          (List.length items <= 5)%nat
          /\ Forall (fun v => exists tag,
                       v = VStr tag /\ (List.length tag <= 50)%nat /\ tag <> []
                       /\ Forall (fun u => alphanumeric u || accented u || white_space u
                                           || (u =? code_unit "-") = true) tag)
                    items
      end.
Proof.
  unfold postValidationRules. split.
  - intros Hnone. destruct (tags req) as [items|]; [|exact I].
    assert (Hcount : Nat.leb (List.length items) 5 = true).
    { destruct (Nat.leb (List.length items) 5) eqn:E; [reflexivity|].
      exfalso. apply (Hnone "Maximum 5 tags allowed").
      do 5 (apply in_or_app; right). apply in_or_app. left. now left. }
    split; [now apply Nat.leb_le|].
    apply tagsCustom_spec.
    destruct (tagsCustom items) as [[|]|err] eqn:Ec; [reflexivity | |].
    + exfalso. apply (Hnone "Invalid value").
      do 5 (apply in_or_app; right). apply in_or_app. right. now left.
    + exfalso. destruct err as [msg|msg]; apply (Hnone msg);
        do 5 (apply in_or_app; right); apply in_or_app; right; now left.
  - intros Hok message Hin.
    repeat (apply in_app_or in Hin; destruct Hin as [Hin|Hin]);
      try (apply In_check in Hin; destruct Hin as [Hf _]; discriminate Hf);
      try (apply In_custom in Hin; destruct Hin as [Hf _]; discriminate Hf).
    destruct (tags req) as [items|]; [|destruct Hin].
    destruct Hok as [Hcount Hitems].
    apply in_app_or in Hin. destruct Hin as [Hin|Hin].
    + apply In_check in Hin. destruct Hin as [_ Hc].
      apply Nat.leb_le in Hcount. congruence.
    + apply In_custom in Hin. destruct Hin as [_ Hc].
      apply tagsCustom_spec in Hitems. congruence.
Qed.

End Rules.

(** ** The request filters *)

Section Filters.
Import RegExp Pattern Middleware.

Lemma value_nested_ind (P : value -> Prop) :
  P VUndefined -> P VNull -> (forall b, P (VBool b)) -> (forall n, P (VNum n)) ->
  (forall s, P (VStr s)) -> (forall ms, P (VDate ms)) -> (forall oid, P (VId oid)) ->
  (forall items, Forall P items -> P (VArr items)) ->
  (forall fields, Forall (fun kv => P (snd kv)) fields -> P (VObj fields)) ->
  forall v, P v.
Proof.
  intros Hu Hn Hb Hnum Hs Hd Hi Ha Ho.
  fix IH 1. intros [| |b|n|s|ms|oid|items|fields];
    [exact Hu | exact Hn | apply Hb | apply Hnum | apply Hs | apply Hd | apply Hi | |].
  - apply Ha. induction items as [|v items IHitems]; constructor; [apply IH | exact IHitems].
  - apply Ho. induction fields as [|[k v] fields IHfields]; constructor;
      [apply IH | exact IHfields].
Qed.

Lemma flat_map_map {A B C} (f : A -> B) (g : B -> list C) l :
  flat_map g (List.map f l) = flat_map (fun x => g (f x)) l.
Proof. induction l as [|x l IH]; cbn; [reflexivity | now rewrite IH]. Qed.

Lemma map_flat_map {A B C} (f : B -> C) (g : A -> list B) l :
  List.map f (flat_map g l) = flat_map (fun x => List.map f (g x)) l.
Proof.
  induction l as [|x l IH]; cbn; [reflexivity | now rewrite map_app, IH].
Qed.

Lemma flat_map_ext_Forall {A B} (f g : A -> list B) l :
  Forall (fun x => f x = g x) l -> flat_map f l = flat_map g l.
Proof.
  induction 1 as [|x l Hx _ IH]; cbn; [reflexivity | now rewrite Hx, IH].
Qed.

Lemma existsb_flat_map {A B} (f : B -> bool) (g : A -> list B) l :
  existsb f (flat_map g l) = existsb (fun x => existsb f (g x)) l.
Proof.
  induction l as [|x l IH]; cbn; [reflexivity | now rewrite existsb_app, IH].
Qed.

Lemma existsb_ext_Forall {A} (f g : A -> bool) l :
  Forall (fun x => f x = g x) l -> existsb f l = existsb g l.
Proof.
  induction 1 as [|x l Hx _ IH]; cbn; [reflexivity | now rewrite Hx, IH].
Qed.

(** [sanitizeObject] cleans every string it comes by and leaves none out. *)
Lemma strings_in_sanitizeObject purify obj :
  strings_in (sanitizeObject purify obj) = List.map (clean purify) (strings_in obj).
Proof.
  induction obj as [| |b|n|s|ms|oid|items IH|fields IH] using value_nested_ind;
    try reflexivity.
  - cbn [sanitizeObject strings_in]. rewrite flat_map_map, map_flat_map.
    apply flat_map_ext_Forall. eapply Forall_impl; [|exact IH].
    intros [| |b|n|s|ms|oid|items'|fields'] Hv; try reflexivity; exact Hv.
  - cbn [sanitizeObject strings_in]. rewrite flat_map_map, map_flat_map.
    apply flat_map_ext_Forall. eapply Forall_impl; [|exact IH].
    intros [k [| |b|n|s|ms|oid|items'|fields']] Hv; try reflexivity; exact Hv.
Qed.

(** [checkSuspicious] tests every string it comes by. *)
Lemma checkSuspicious_strings obj :
  checkSuspicious obj
  = existsb (fun s => existsb (fun p => test p s) suspicious) (strings_in obj).
Proof.
  induction obj as [| |b|n|s|ms|oid|items IH|fields IH] using value_nested_ind;
    try reflexivity.
  - cbn [checkSuspicious strings_in]. rewrite existsb_flat_map.
    apply existsb_ext_Forall. eapply Forall_impl; [|exact IH].
    intros [| |b|n|s|ms|oid|items'|fields'] Hv; try reflexivity; try exact Hv.
    cbn [existsb]. now rewrite orb_false_r.
  - cbn [checkSuspicious strings_in]. rewrite existsb_flat_map.
    apply existsb_ext_Forall. eapply Forall_impl; [|exact IH].
    intros [k [| |b|n|s|ms|oid|items'|fields']] Hv; try reflexivity; try exact Hv.
    cbn [existsb]. now rewrite orb_false_r.
Qed.

Lemma In_remove_ci w s : forall skip x, In x (remove_ci w skip s) -> In x s.
Proof.
  induction s as [|u s IH]; intros skip x; [auto|].
  cbn [remove_ci]. destruct skip as [|k].
  - destruct (starts_with_ci w (u :: s)).
    + intros Hx. right. eapply IH; eauto.
    + intros [->|Hx]; [now left | right; eapply IH; eauto].
  - intros Hx. right. eapply IH; eauto.
Qed.

Lemma trim_start_suffix s : exists pre, s = pre ++ trim_start s.
Proof.
  induction s as [|u s [pre IH]]; [exists []; reflexivity|].
  cbn. destruct (white_space u).
  - exists (u :: pre). cbn. now rewrite <- IH.
  - exists []. reflexivity.
Qed.

Lemma trim_start_head s u : hd_error (trim_start s) = Some u -> white_space u = false.
Proof.
  induction s as [|v s IH]; cbn; [discriminate|].
  destruct (white_space v) eqn:E; [exact IH|]. cbn. now intros [= <-].
Qed.

Lemma trim_start_id s :
  (forall u, hd_error s = Some u -> white_space u = false) -> trim_start s = s.
Proof.
  destruct s as [|u s]; [reflexivity|]. intros Hu. cbn.
  now rewrite (Hu u eq_refl).
Qed.

Lemma In_trim s x : In x (trim s) -> In x s.
Proof.
  unfold trim. intros Hx. apply in_rev in Hx.
  destruct (trim_start_suffix (rev (trim_start s))) as [pre Hp].
  assert (Hr : In x (rev (trim_start s))) by (rewrite Hp; apply in_or_app; now right).
  apply in_rev in Hr.
  destruct (trim_start_suffix s) as [pre' Hp']. rewrite Hp'. apply in_or_app. now right.
Qed.

Lemma trim_trim s : trim (trim s) = trim s.
Proof.
  unfold trim.
  set (t := trim_start s). set (y := trim_start (rev t)).
  assert (Hr : trim_start (rev y) = rev y).
  { apply trim_start_id. intros u Hu.
    destruct (trim_start_suffix (rev t)) as [pre Hp]. fold y in Hp.
    apply (f_equal (@rev Z)) in Hp. rewrite rev_involutive, rev_app_distr in Hp.
    destruct (rev y) as [|v r]; [discriminate|]. cbn in Hu. injection Hu as ->.
    apply (trim_start_head s). fold t. rewrite Hp. reflexivity. }
  rewrite Hr, rev_involutive. f_equal.
  apply trim_start_id. intros u. apply trim_start_head.
Qed.

Lemma clean_spec purify s :
  ~ In (code_unit "<") (clean purify s) /\ ~ In (code_unit ">") (clean purify s)
  /\ trim (clean purify s) = clean purify s.
Proof.
  assert (Hin : forall x, In x (clean purify s) ->
                          (x =? code_unit "<") || (x =? code_unit ">") = false).
  { intros x Hx. unfold clean in Hx.
    apply In_trim in Hx. do 3 apply In_remove_ci in Hx.
    unfold remove_angle_brackets in Hx. apply filter_In in Hx.
    now apply negb_true_iff. }
  split; [|split].
  - intros Hx. apply Hin in Hx. now rewrite Z.eqb_refl in Hx.
  - intros Hx. apply Hin in Hx. rewrite Z.eqb_refl, orb_true_r in Hx. discriminate.
  - apply trim_trim.
Qed.

(** X25.  [sanitizeInput] passes on a request in which every string of the
    body, of the query and of the route parameters, at any depth, is the
    cleaned form of the string received; a cleaned string holds neither
    [<] nor [>] and has no white space at either end. *)
Theorem sanitizeInput_cleans_every_string purify req :
  let req' := sanitizeInput purify req in
  strings_in (body req') = List.map (clean purify) (strings_in (body req))
  /\ strings_in (query req') = List.map (clean purify) (strings_in (query req))
  /\ strings_in (params req') = List.map (clean purify) (strings_in (params req))
  /\ Forall (fun s => ~ In (code_unit "<") s /\ ~ In (code_unit ">") s /\ trim s = s)
            (strings_in (body req') ++ strings_in (query req')
             ++ strings_in (params req')).
Proof.
  assert (Hpart : forall v,
             strings_in (if truthy v then sanitizeObject purify v else v)
             = List.map (clean purify) (strings_in v)).
  { intros v. destruct (truthy v) eqn:Et; [apply strings_in_sanitizeObject|].
    destruct v as [| |b|n|s|ms|oid|items|fields]; try reflexivity; discriminate. }
  cbv zeta. unfold sanitizeInput. cbn [body query params].
  rewrite !Hpart. repeat split.
  rewrite <- !map_app. apply Forall_forall. intros s Hs.
  apply in_map_iff in Hs. destruct Hs as (s0 & <- & _). apply clean_spec.
Qed.

Lemma exec_seq_nonempty s a b st : exec s (Seq a b) st <> [] -> exec s a st <> [].
Proof. cbn [exec]. destruct (exec s a st); [intros Hn; now apply Hn | discriminate]. Qed.

Lemma exec_ci_nonempty s c st :
  exec s (ci c) st <> [] ->
  exists u, nth_error s (pos st) = Some u /\ canonicalize u = canonicalize (code_unit c).
Proof.
  unfold ci. cbn [exec]. destruct (nth_error s (pos st)) as [u|]; [|congruence].
  destruct (Z.eqb_spec (canonicalize u) (canonicalize (code_unit c))); [|congruence].
  intros _. eauto.
Qed.

(** The script pattern starts with [<]. *)
Lemma script_element_needs_angle_bracket s :
  test script_element s = true -> In (code_unit "<") s.
Proof.
  unfold test. intros Ht. apply existsb_exists in Ht. destruct Ht as (i & _ & Hm).
  unfold matches_at, script_element in Hm.
  match type of Hm with
  | match run s (Then (Plain ?r) ?p) ?st with _ => _ end = true =>
      assert (Hne : exec s r st <> []);
      [cbn [run] in Hm; destruct (exec s r st); [discriminate Hm | discriminate]|]
  end.
  change (ci_str "<script" ?k) with (Seq (ci "<") (ci_str "script" k)) in Hne.
  apply exec_seq_nonempty, exec_ci_nonempty in Hne.
  destruct Hne as (u & Hu & Hc). apply nth_error_In in Hu.
  assert (u = code_unit "<"); [|now subst].
  unfold canonicalize in Hc. change (code_unit "<") with 60 in *. cbn in Hc.
  destruct ((97 <=? u) && (u <=? 122)) eqn:E; [|exact Hc].
  apply andb_true_iff in E. lia.
Qed.

(** X26.  Behind [sanitizeInput], the script pattern of
    [suspiciousActivityDetector] matches nothing: it needs a [<], and no
    string of a sanitized body or query has one. *)
Theorem script_pattern_is_dead_behind_sanitizeInput purify req :
  Forall (fun s => test script_element s = false)
         (strings_in (body (sanitizeInput purify req))
          ++ strings_in (query (sanitizeInput purify req))).
Proof.
  assert (Hpart : forall v,
             Forall (fun s => test script_element s = false)
                    (strings_in (if truthy v then sanitizeObject purify v else v))).
  { intros v. destruct (truthy v) eqn:Et.
    - rewrite strings_in_sanitizeObject. apply Forall_forall. intros s Hs.
      apply in_map_iff in Hs. destruct Hs as (s0 & <- & _).
      destruct (test script_element (clean purify s0)) eqn:E; [|reflexivity].
      apply script_element_needs_angle_bracket in E.
      now apply (clean_spec purify s0) in E.
    - destruct v as [| |b|n|s|ms|oid|items|fields]; try constructor; discriminate. }
  unfold sanitizeInput. cbn [body query]. apply Forall_app. split; apply Hpart.
Qed.

(** A literal under the flag [i] reads a text that differs from it in the
    case of its letters at most. *)
Lemma exec_ci_text s k cs : forall w pre post st,
  s = pre ++ w ++ post -> pos st = List.length pre ->
  List.map canonicalize w = List.map (fun c => canonicalize (code_unit c)) cs ->
  exec s (ci_text cs k) st = exec s k (advance (List.length cs) st).
Proof.
  induction cs as [|c cs IH]; intros w pre post st Hs Hp Hw.
  - cbn. destruct st. unfold advance. cbn. now rewrite Nat.add_0_r.
  - destruct w as [|u w]; [discriminate|]. cbn in Hw. injection Hw as Hu Hw.
    cbn [ci_text exec]. unfold ci at 1. cbn [exec].
    assert (Hn : nth_error s (pos st) = Some u).
    { rewrite Hs, Hp, nth_error_app2, Nat.sub_diag by lia. reflexivity. }
    rewrite Hn, Hu, Z.eqb_refl. cbn [flat_map]. rewrite app_nil_r.
    rewrite (IH w (pre ++ [u]) post (advance 1 st)).
    + now rewrite advance_plus.
    + rewrite Hs, <- app_assoc. reflexivity.
    + cbn. rewrite Hp, length_app. cbn. lia.
    + exact Hw.
Qed.

Lemma test_at p s i :
  (i <= List.length s)%nat -> matches_at p s i = true -> test p s = true.
Proof.
  intros Hi Hm. unfold test. apply existsb_exists. exists i.
  split; [apply in_seq; lia | exact Hm].
Qed.

(** X27.  A body or a query that holds, in a string at any depth, the text
    [javascript:] in any mixture of upper and lower case is answered 403 by
    [suspiciousActivityDetector]. *)
Theorem javascript_protocol_is_suspicious req s pre w post :
  In s (strings_in (body req) ++ strings_in (query req)) ->
  s = pre ++ w ++ post ->
  List.map canonicalize w = List.map canonicalize (js "javascript:") ->
  suspiciousActivityDetector req
  = Respond 403 [("error", VStr (js "Suspicious activity detected"))].
Proof.
  intros Hin Hs Hw.
  assert (Ht : test javascript_protocol s = true).
  { apply (test_at _ _ (List.length pre)).
    - rewrite Hs, length_app. lia.
    - unfold matches_at, javascript_protocol. cbn [run]. unfold ci_str.
      assert (Hlen : List.length w = 11%nat).
      { apply (f_equal (@List.length Z)) in Hw. now rewrite !length_map in Hw. }
      assert (Hsplit : exists w10 u, w = w10 ++ [u] /\ List.length w10 = 10%nat).
      { exists (removelast w), (last w 0). split.
        - apply app_removelast_last. destruct w; [discriminate | discriminate].
        - assert (Hw' : w <> []) by (destruct w; discriminate).
          pose proof (app_removelast_last 0 Hw') as Hrl.
          apply (f_equal (@List.length Z)) in Hrl.
          rewrite length_app in Hrl. cbn in Hrl. lia. }
      destruct Hsplit as (w10 & u & -> & Hl10).
      rewrite map_app in Hw.
      change (js "javascript:") with (js "javascript" ++ [58]) in Hw.
      rewrite map_app in Hw.
      apply app_inj_tail_iff in Hw. destruct Hw as [Hw10 Hu].
      rewrite (exec_ci_text s _ _ w10 pre ([u] ++ post)
                 {| pos := List.length pre; caps := [] |});
        [| now rewrite Hs, <- app_assoc | reflexivity | exact Hw10].
      cbn [lit exec advance pos List.length list_ascii_of_string].
      assert (Hn : nth_error s (List.length pre + 10) = Some u).
      { rewrite Hs, nth_error_app2 by lia.
        replace (List.length pre + 10 - List.length pre)%nat with 10%nat by lia.
        rewrite <- app_assoc, nth_error_app2 by lia. rewrite Hl10. reflexivity. }
      rewrite Hn.
      assert (Hu58 : u = 58).
      { unfold canonicalize in Hu. cbn in Hu.
        destruct ((97 <=? u) && (u <=? 122)) eqn:E; [|exact Hu].
        apply andb_true_iff in E. lia. }
      subst u. reflexivity. }
  unfold suspiciousActivityDetector.
  rewrite !checkSuspicious_strings, <- existsb_app.
  assert (Hex : existsb (fun s0 => existsb (fun p => test p s0) suspicious)
                        (strings_in (body req) ++ strings_in (query req)) = true).
  { apply existsb_exists. exists s. split; [exact Hin|].
    apply existsb_exists. exists javascript_protocol. split; [|exact Ht].
    unfold suspicious. cbn. tauto. }
  rewrite Hex. reflexivity.
Qed.

Lemma javascript_protocol_is_suspicious_witness :
  suspiciousActivityDetector
    {| body := VObj [("title", VStr (js "Hello"));
                     ("tags", VArr [VStr (js "see JavaScript:alert(1)")])];
       query := VObj []; params := VObj [] |}
  = Respond 403 [("error", VStr (js "Suspicious activity detected"))].
Proof.
  apply (javascript_protocol_is_suspicious _ (js "see JavaScript:alert(1)")
           (js "see ") (js "JavaScript:") (js "alert(1)")).
  - cbn. tauto.
  - reflexivity.
  - reflexivity.
Defined.

Section NonStrings.
Variable ToString : value -> jsstring.

(** X28.  [contentFilter] rejects nothing when the title or the content of
    the body is a number, a boolean, an array or an object: either the
    patterns find nothing, or writing the log entry fails on the missing
    [substring] and the [catch] block calls [next()]. *)
Theorem contentFilter_passes_non_strings req o v :
  body req = VObj o ->
  obj_get o "title" = v \/ obj_get o "content" = v ->
  match v with
  | VStr _ | VUndefined | VNull => False
  | _ => True
  end ->
  contentFilter ToString req = Next.
Proof.
  intros Hb Hv Hkind. unfold contentFilter. rewrite Hb. cbn [Post.prop bind].
  destruct (negb (checkContent ToString (obj_get o "title"))
            || negb (checkContent ToString (obj_get o "content"))); [|reflexivity].
  destruct Hv as [Hv|Hv]; rewrite Hv.
  - destruct v; try contradiction; reflexivity.
  - destruct (substring_of (obj_get o "title") 50); [|reflexivity].
    destruct v; try contradiction; reflexivity.
Qed.

End NonStrings.

Lemma contentFilter_passes_non_strings_witness :
  contentFilter (fun _ => js "spam")
    {| body := VObj [("title", VArr [VStr (js "spam")]);
                     ("content", VStr (js "A first post."))];
       query := VObj []; params := VObj [] |}
  = Next.
Proof.
  apply (contentFilter_passes_non_strings (fun _ => js "spam") _
           [("title", VArr [VStr (js "spam")]); ("content", VStr (js "A first post."))]
           (VArr [VStr (js "spam")])).
  - reflexivity.
  - left. reflexivity.
  - exact I.
Defined.

Lemma canonicalize_letter u c :
  canonicalize u = canonicalize (code_unit c) ->
  word_char (code_unit c) = true -> word_char u = true.
Proof.
  unfold canonicalize, word_char. generalize (code_unit c). intros k Hc Hk.
  assert (Hu : u = k \/ (97 <= u <= 122 /\ u - 32 = k) \/ (97 <= k <= 122 /\ u = k - 32)).
  { destruct ((97 <=? u) && (u <=? 122)) eqn:Eu;
      destruct ((97 <=? k) && (k <=? 122)) eqn:Ek;
      rewrite ?andb_true_iff, ?andb_false_iff, ?Z.leb_le, ?Z.leb_gt in *; lia. }
  rewrite !orb_true_iff, !andb_true_iff, !Z.leb_le, Z.eqb_eq in *. lia.
Qed.

Section ListedWords.
Variable ToString : value -> jsstring.

(** A word of the filter, its letters in either case, between two places
    where a word can end. *)
Lemma listed_word_matches (p : pattern) cs c pre w post :
  List.map canonicalize w
  = List.map (fun a => canonicalize (code_unit a)) (cs ++ [c]) ->
  (forall s st, In (advance (List.length (cs ++ [c])) st) (exec s (ci_text cs (ci c)) st) ->
                In (advance (List.length (cs ++ [c])) st) (run s p st)) ->
  word_char (code_unit (hd c cs)) = true -> word_char (code_unit c) = true ->
  match rev pre with
  | u :: _ => word_char u = false
  | [] => True
  end ->
  match post with
  | u :: _ => word_char u = false
  | [] => True
  end ->
  test (Then (Plain WordBoundary) (Then p (Plain WordBoundary))) (pre ++ w ++ post) = true.
Proof.
  intros Hw Hp Hfirst Hlast Hpre Hpost.
  set (s := pre ++ w ++ post).
  assert (Hlen : List.length w = List.length (cs ++ [c])).
  { apply (f_equal (@List.length Z)) in Hw. now rewrite !length_map in Hw. }
  assert (Hwne : w <> []).
  { intros ->. rewrite length_app in Hlen. cbn in Hlen. lia. }
  assert (Hwpos : (1 <= List.length w)%nat) by (destruct w; [congruence | cbn; lia]).
  assert (Hnth : forall i, (i < List.length w)%nat ->
             nth_error s (List.length pre + i) = nth_error w i).
  { intros i Hi. unfold s. rewrite nth_error_app2 by lia.
    replace (List.length pre + i - List.length pre)%nat with i by lia.
    now rewrite nth_error_app1. }
  (* the first and the last code unit of the word are word characters *)
  assert (Hw0 : exists u, nth_error w 0 = Some u /\ word_char u = true).
  { destruct w as [|u w']; [congruence|]. exists u. split; [reflexivity|].
    destruct cs as [|a cs']; cbn in Hw; injection Hw as Hu _;
      eapply canonicalize_letter; eauto. }
  assert (Hwl : exists u, nth_error w (List.length w - 1) = Some u /\ word_char u = true).
  { destruct (exists_last Hwne) as (w' & u & ->).
    rewrite length_app. cbn [List.length].
    replace (List.length w' + 1 - 1)%nat with (List.length w') by lia.
    rewrite nth_error_app2, Nat.sub_diag by lia. exists u. split; [reflexivity|].
    rewrite !map_app in Hw. apply app_inj_tail_iff in Hw. destruct Hw as [_ Hu].
    eapply canonicalize_letter; eauto. }
  apply (test_at _ _ (List.length pre)).
  { unfold s. rewrite length_app. lia. }
  unfold matches_at. cbn [run].
  set (st0 := {| pos := List.length pre; caps := [] |}).
  (* the boundary before the word *)
  assert (Hb1 : exec s WordBoundary st0 = [st0]).
  { cbn [exec pos st0].
    destruct Hw0 as (u & Hu & Hwc).
    assert (Hat : word_at s (List.length pre) = true).
    { unfold word_at. rewrite <- (Nat.add_0_r (List.length pre)), Hnth, Hu by lia.
      exact Hwc. }
    rewrite Hat.
    destruct (List.length pre) as [|n] eqn:En; [reflexivity|].
    assert (Hbefore : word_at s n = false).
    { unfold word_at, s. rewrite nth_error_app1 by lia.
      destruct (rev pre) as [|v r] eqn:Er.
      - apply (f_equal (@List.length Z)) in Er. rewrite length_rev in Er.
        cbn in Er. lia.
      - apply (f_equal (@rev Z)) in Er. rewrite rev_involutive in Er. cbn in Er.
        rewrite Er in En |- *. rewrite length_app in En. cbn in En.
        rewrite nth_error_app2 by (rewrite length_rev in *; lia).
        replace (n - List.length (rev r))%nat with 0%nat by lia. exact Hpre. }
    now rewrite Hbefore. }
  rewrite Hb1. cbn [flat_map]. rewrite app_nil_r.
  (* the word *)
  assert (Hword : In (advance (List.length (cs ++ [c])) st0) (run s p st0)).
  { apply Hp.
    destruct (exists_last Hwne) as (w' & u & Hw').
    rewrite Hw', !map_app in Hw. apply app_inj_tail_iff in Hw. destruct Hw as [Hw1 Hu].
    rewrite (exec_ci_text s (ci c) cs w' pre ([u] ++ post) st0);
      [| unfold s; now rewrite Hw', <- app_assoc | reflexivity | exact Hw1].
    assert (Hn : nth_error s (pos (advance (List.length cs) st0)) = Some u).
    { cbn [pos advance st0].
      assert (Hl' : List.length w' = List.length cs).
      { apply (f_equal (@List.length Z)) in Hw1. now rewrite !length_map in Hw1. }
      rewrite Hnth by (rewrite Hw', length_app; cbn; lia).
      rewrite Hw', nth_error_app2, Hl', Nat.sub_diag by lia. reflexivity. }
    unfold ci. rewrite (exec_chr s _ _ u Hn) by (cbn in Hu; now apply Z.eqb_eq).
    left. rewrite advance_plus. f_equal. rewrite length_app. reflexivity. }
  (* the boundary after the word *)
  assert (Hb2 : exec s WordBoundary (advance (List.length (cs ++ [c])) st0)
                = [advance (List.length (cs ++ [c])) st0]).
  { cbn [exec pos advance st0]. rewrite <- Hlen.
    destruct Hwl as (u & Hu & Hwc).
    replace (List.length pre + List.length w)%nat
      with (S (List.length pre + (List.length w - 1))) by lia.
    assert (Hbefore : word_at s (List.length pre + (List.length w - 1)) = true).
    { unfold word_at. rewrite Hnth, Hu by lia. exact Hwc. }
    rewrite Hbefore.
    assert (Hafter : word_at s (S (List.length pre + (List.length w - 1))) = false).
    { unfold word_at, s. rewrite nth_error_app2 by lia. rewrite nth_error_app2 by lia.
      replace (S (List.length pre + (List.length w - 1)) - List.length pre
               - List.length w)%nat with 0%nat by lia.
      destruct post as [|v post']; [reflexivity | exact Hpost]. }
    now rewrite Hafter. }
  match goal with
  | |- match ?l with _ => _ end = true =>
      assert (Hout : In (advance (List.length (cs ++ [c])) st0) l);
      [|destruct l; [destruct Hout | reflexivity]]
  end.
  apply in_flat_map. eexists. split; [exact Hword|]. rewrite Hb2. now left.
Qed.

(** X29.  A title that holds 'spam', 'scam', 'fake', 'buy now', 'click here'
    or 'urgent' as a whole word, its letters in upper or lower case, is
    answered 400 by [contentFilter] (the content being a string or
    missing). *)
Theorem contentFilter_rejects_listed_words req o pre w post :
  body req = VObj o ->
  obj_get o "title" = VStr (pre ++ w ++ post) ->
  match obj_get o "content" with
  | VStr _ | VUndefined | VNull => True
  | _ => False
  end ->
  In (List.map canonicalize w)
     (List.map (fun word => List.map canonicalize (js word))
               ["spam"; "scam"; "fake"; "buy now"; "click here"; "urgent"]) ->
  match rev pre with
  | u :: _ => word_char u = false
  | [] => True
  end ->
  match post with
  | u :: _ => word_char u = false
  | [] => True
  end ->
  contentFilter ToString req
  = Respond 400 [("error", VStr (js "Content violates community guidelines"))].
Proof.
  intros Hb Ht Hc Hw Hpre Hpost.
  assert (Hmatch : existsb (fun p => test p (pre ++ w ++ post)) inappropriatePatterns
                   = true).
  { unfold inappropriatePatterns. cbn [existsb]. apply orb_true_iff.
    cbn [List.map In] in Hw.
    destruct Hw as [Hw|[Hw|[Hw|[Hw|[Hw|[Hw|[]]]]]]]; symmetry in Hw.
    - left. apply (listed_word_matches _ (list_ascii_of_string "spa") "m"); auto.
      intros s st Hin. cbn [run]. apply in_or_app. now left.
    - left. apply (listed_word_matches _ (list_ascii_of_string "sca") "m"); auto.
      intros s st Hin. cbn [run]. apply in_or_app. right. apply in_or_app. now left.
    - left. apply (listed_word_matches _ (list_ascii_of_string "fak") "e"); auto.
      intros s st Hin. cbn [run]. apply in_or_app. right. apply in_or_app. now right.
    - right. rewrite orb_false_r.
      apply (listed_word_matches _ (list_ascii_of_string "buy no") "w"); auto.
      intros s st Hin. cbn [run]. apply in_or_app. now left.
    - right. rewrite orb_false_r.
      apply (listed_word_matches _ (list_ascii_of_string "click her") "e"); auto.
      intros s st Hin. cbn [run]. apply in_or_app. right. apply in_or_app. now left.
    - right. rewrite orb_false_r.
      apply (listed_word_matches _ (list_ascii_of_string "urgen") "t"); auto.
      intros s st Hin. cbn [run]. apply in_or_app. right. apply in_or_app. now right. }
  unfold contentFilter. rewrite Hb. cbn [Post.prop bind]. rewrite Ht.
  assert (Hcheck : checkContent ToString (VStr (pre ++ w ++ post)) = false).
  { unfold checkContent.
    destruct (pre ++ w ++ post) as [|u s] eqn:Es.
    - exfalso. destruct pre; [|discriminate Es]. destruct w; [|discriminate Es].
      cbn in Hmatch. discriminate Hmatch.
    - cbn [truthy negb]. now rewrite Hmatch. }
  rewrite Hcheck. cbn [negb orb substring_of bind].
  destruct (obj_get o "content"); try contradiction; reflexivity.
Qed.

End ListedWords.

Lemma contentFilter_rejects_listed_words_witness :
  contentFilter (fun _ => [])
    {| body := VObj [("title", VStr (js "Not a " ++ js "SCAM" ++ js ", honest"));
                     ("content", VStr (js "A first post."))];
       query := VObj []; params := VObj [] |}
  = Respond 400 [("error", VStr (js "Content violates community guidelines"))].
Proof.
  apply (contentFilter_rejects_listed_words (fun _ => []) _
           [("title", VStr (js "Not a " ++ js "SCAM" ++ js ", honest"));
            ("content", VStr (js "A first post."))]
           (js "Not a ") (js "SCAM") (js ", honest")).
  - reflexivity.
  - reflexivity.
  - exact I.
  - right. left. reflexivity.
  - reflexivity.
  - reflexivity.
Defined.

End Filters.
